(** * Foveated-panorama transcoder: [optimizeImage] / [extractImage]

    A shallow embedding of [src/optimizer/optimizer.cpp].  The C++ code works
    on OpenCV matrices ([cv::Mat]): headers that share reference-counted pixel
    buffers.  The embedding keeps that sharing: a [Mat] is a header (buffer
    handle, region of interest, dimensions, element type) and the pixel
    buffers live in an explicit [Store] threaded through every operation.
    [double] arithmetic is IEEE 754 binary64, taken from the Standard
    Library's executable specification [SpecFloat].  Timing and logging
    ([Timer::time], [std::cout]) do not influence any result and are left
    out. *)

From Stdlib Require Import ZArith Lia Bool List.
From Stdlib Require Import Floats.SpecFloat.
Import ListNotations.
Local Open Scope Z_scope.

(** ** C++ [int] and [double] *)

Definition INT_MIN : Z := - 2 ^ 31.
Definition INT_MAX : Z := 2 ^ 31 - 1.
Definition in_int (z : Z) : bool := (INT_MIN <=? z) && (z <=? INT_MAX).

Definition prec : Z := 53.
Definition emax : Z := 1024.
Definition double : Type := spec_float.

(** Conversion [int -> double] (exact, every [int] is representable). *)
Definition of_int (z : Z) : double := binary_normalize prec emax z 0 false.

Definition dmul : double -> double -> double := SFmul prec emax.
Definition ddiv : double -> double -> double := SFdiv prec emax.
Definition dadd : double -> double -> double := SFadd prec emax.
Definition dltb : double -> double -> bool := SFltb.
Definition dleb : double -> double -> bool := SFleb.

(** The integral part of a double, rounding toward zero; [None] for
    infinities and NaN. *)
Definition trunc (x : double) : option Z :=
  match x with
  | S754_zero _ => Some 0
  | S754_finite s m e =>
      Some (cond_Zopp s (if 0 <=? e then Zpos m * 2 ^ e else Zpos m / 2 ^ (- e)))
  | _ => None
  end.

(** C's [fmod]: the exact remainder of [x / y] with the sign of [x]. *)
Definition fmod (x y : double) : double :=
  match x, y with
  | S754_nan, _ | _, S754_nan => S754_nan
  | S754_infinity _, _ => S754_nan
  | _, S754_zero _ => S754_nan
  | _, S754_infinity _ => x
  | S754_zero _, _ => x
  | S754_finite sx mx ex, S754_finite _ my ey =>
      let e := Z.min ex ey in
      let X := Zpos mx * 2 ^ (ex - e) in
      let Y := Zpos my * 2 ^ (ey - e) in
      binary_normalize prec emax (cond_Zopp sx (X mod Y)) e sx
  end.

(** ** Pixels, buffers and the store *)

(** One value per channel. *)
Definition Pixel : Type := list Z.

Record Store := mkStore {
  next : nat;                       (* the next free buffer handle *)
  mem : nat -> Z -> Z -> Pixel      (* buffer -> row -> column -> pixel *)
}.

(** ** Failures *)

Inductive failure :=
| ContractViolation (line : Z)        (* REQUIRES / ASSERT / ENSURES at that source line *)
| BadRange (start stop limit : Z)     (* CV_Assert of cv::Mat's range constructor *)
| BadConcat                           (* CV_Assert of cv::hconcat / cv::vconcat *)
| BadResize                           (* CV_Assert of cv::resize *)
| BadAlloc                            (* negative dimension in cv::Mat::create *)
| Undefined.                          (* undefined behaviour: int overflow, double out of int range *)

Inductive outcome (A : Type) :=
| Ok (a : A) (s : Store)
| Err (f : failure) (s : Store).
Arguments Ok {A} a s.
Arguments Err {A} f s.

Definition M (A : Type) : Type := Store -> outcome A.

Definition ret {A} (a : A) : M A := fun s => Ok a s.
Definition fail {A} (f : failure) : M A := fun s => Err f s.
Definition bind {A B} (m : M A) (k : A -> M B) : M B :=
  fun s => match m s with
           | Ok a s' => k a s'
           | Err f s' => Err f s'
           end.

Notation "x <- m ;; k" := (bind m (fun x => k))
  (at level 61, m at next level, right associativity).
Notation "' pat <- m ;; k" := (bind m (fun x => match x with pat => k end))
  (at level 61, pat pattern, m at next level, right associativity).
Notation "m ;; k" := (bind m (fun _ => k))
  (at level 61, right associativity).

Definition final_store {A} (o : outcome A) : Store :=
  match o with Ok _ s => s | Err _ s => s end.

Definition result_of {A} (o : outcome A) : failure + A :=
  match o with Ok a _ => inr a | Err f _ => inl f end.

(** Modelled from the spec: the contract macros [REQUIRES], [ASSERT] and
    [ENSURES] come from a header that is not part of the sources; section 7
    calls their violations "fatal, unrecoverable". *)
Definition contract (line : Z) (b : bool) : M unit :=
  if b then ret tt else fail (ContractViolation line).
Definition REQUIRES := contract.
Definition ASSERT := contract.
Definition ENSURES := contract.

(** Conversion [double -> int]: truncation; out of range is undefined. *)
Definition d2i (x : double) : M Z :=
  match trunc x with
  | Some z => if in_int z then ret z else fail Undefined
  | None => fail Undefined
  end.

(** The result of an [int] addition or subtraction that may overflow. *)
Definition int (z : Z) : M Z := if in_int z then ret z else fail Undefined.

(** ** OpenCV: [cv::Size], [cv::Range], [cv::Mat] *)

Record Size := mkSize { width : Z; height : Z }.

Definition size_eqb (a b : Size) : bool :=
  (width a =? width b) && (height a =? height b).

(** [Size::empty()] *)
Definition empty (sz : Size) : bool := (width sz <=? 0) || (height sz <=? 0).

Inductive Range := all | range (start stop : Z).

Record Mat := mkMat {
  data : option nat;    (* pixel buffer, [None] for [Mat()] and for a released header *)
  row0 : Z;             (* origin of the region of interest inside the buffer *)
  col0 : Z;
  rows : Z;
  cols : Z;
  type : Z              (* CV_MAKETYPE(depth, channels) *)
}.

Definition Mat_empty : Mat := mkMat None 0 0 0 0 0.

Definition size (m : Mat) : Size := mkSize (cols m) (rows m).

(** CV_MAT_CN, CV_ELEM_SIZE *)
Definition channels (ty : Z) : Z := Z.land (Z.shiftr ty 3) 511 + 1.
Definition depth_size (ty : Z) : Z :=
  match Z.land ty 7 with
  | 0 | 1 => 1
  | 2 | 3 | 7 => 2
  | 4 | 5 => 4
  | _ => 8
  end.
Definition elemSize (m : Mat) : Z := channels (type m) * depth_size (type m).
Definition total (m : Mat) : Z := rows m * cols m.

Definition CV_8UC3 : Z := 16.

(** [cv::Scalar(0,0,0)] written to an element of the given type. *)
Definition black (ty : Z) : Pixel := repeat 0 (Z.to_nat (channels ty)).

(** [m.at(r, c)] in store [s]. *)
Definition at_ (s : Store) (m : Mat) (r c : Z) : Pixel :=
  match data m with
  | Some b => mem s b (row0 m + r) (col0 m + c)
  | None => []
  end.

Definition check_range (r : Range) (limit : Z) : failure + (Z * Z) :=
  match r with
  | all => inr (0, limit)
  | range a b =>
      if (a =? 0) && (b =? limit) then inr (0, limit)
      else if (0 <=? a) && (a <=? b) && (b <=? limit) then inr (a, b - a)
      else inl (BadRange a b limit)
  end.

(** The header on a region of [m]'s buffer.  The range constructors end
    with [if (rows <= 0 || cols <= 0) { release(); rows = cols = 0; }]: an
    empty region leaves a header without buffer, rows or columns. *)
Definition roi (m : Mat) (r0 c0 nr nc : Z) : Mat :=
  if (nr <=? 0) || (nc <=? 0) then mkMat None 0 0 0 0 (type m)
  else mkMat (data m) (row0 m + r0) (col0 m + c0) nr nc (type m).

(** [Mat(m, rowRange, colRange)]: a header on the same buffer. *)
Definition Mat_roi (m : Mat) (rowRange colRange : Range) : M Mat :=
  match check_range rowRange (rows m) with
  | inl f => fail f
  | inr (r0, nr) =>
      match check_range colRange (cols m) with
      | inl f => fail f
      | inr (c0, nc) => ret (roi m r0 c0 nr nc)
      end
  end.

(** [dst.create(rows, cols, type)]: keeps [dst] when it already has that
    shape, allocates a fresh buffer otherwise. *)
Definition create (dst : Mat) (nrows ncols ty : Z) : M Mat := fun s =>
  if (nrows <? 0) || (ncols <? 0) then Err BadAlloc s
  else
    match data dst with
    | Some _ =>
        if (rows dst =? nrows) && (cols dst =? ncols) && (type dst =? ty)
        then Ok dst s
        else Ok (mkMat (Some (next s)) 0 0 nrows ncols ty) (mkStore (S (next s)) (mem s))
    | None => Ok (mkMat (Some (next s)) 0 0 nrows ncols ty) (mkStore (S (next s)) (mem s))
    end.

Definition inside (m : Mat) (r c : Z) : bool :=
  (row0 m <=? r) && (r <? row0 m + rows m) && (col0 m <=? c) && (c <? col0 m + cols m).

(** Overwrite the pixels of [dst] with [f] (in [dst]'s own coordinates). *)
Definition write (dst : Mat) (f : Z -> Z -> Pixel) : M unit := fun s =>
  match data dst with
  | Some b =>
      Ok tt (mkStore (next s)
               (fun b' => if Nat.eqb b' b
                          then fun r c => if inside dst r c
                                          then f (r - row0 dst) (c - col0 dst)
                                          else mem s b r c
                          else mem s b'))
  | None => Ok tt s
  end.

(** [dst.create(rows, cols, type)] followed by filling [dst]; [render]
    reads the sources in the store as it is once [dst] exists. *)
Definition fill (dst : Mat) (nrows ncols ty : Z) (render : Store -> Z -> Z -> Pixel) : M Mat :=
  d <- create dst nrows ncols ty ;;
  (fun s => write d (render s) s) ;;
  ret d.

(** [Mat(rows, cols, type)] *)
Definition Mat_new (nrows ncols ty : Z) : M Mat := create Mat_empty nrows ncols ty.

(** [m.setTo(px)] *)
Definition setTo (m : Mat) (px : Pixel) : M unit := write m (fun _ _ => px).

(** [cv::hconcat(src1, src2, dst)] *)
Definition hconcat (src1 src2 dst : Mat) : M Mat :=
  if (rows src2 =? rows src1) && (type src2 =? type src1) then
    fill dst (rows src1) (cols src1 + cols src2) (type src1)
      (fun s r c => if c <? cols src1 then at_ s src1 r c
                    else at_ s src2 r (c - cols src1))
  else fail BadConcat.

(** Modelled from the spec: [ImageUtil] is not part of the sources.
    [hconcat3] and [vconcat3] "reassemble the horizontal stack" and "the
    vertical stack" of three panels (section 4.5); they follow
    [cv::hconcat] / [cv::vconcat] on a three-element array: every panel
    must agree with the first one in the other dimension and in type. *)
Definition hconcat3 (a b c dst : Mat) : M Mat :=
  if (rows b =? rows a) && (type b =? type a) &&
     (rows c =? rows a) && (type c =? type a) then
    fill dst (rows a) (cols a + cols b + cols c) (type a)
      (fun s r x => if x <? cols a then at_ s a r x
                    else if x <? cols a + cols b then at_ s b r (x - cols a)
                    else at_ s c r (x - cols a - cols b))
  else fail BadConcat.

Definition vconcat3 (a b c dst : Mat) : M Mat :=
  if (cols b =? cols a) && (type b =? type a) &&
     (cols c =? cols a) && (type c =? type a) then
    fill dst (rows a + rows b + rows c) (cols a) (type a)
      (fun s r x => if r <? rows a then at_ s a r x
                    else if r <? rows a + rows b then at_ s b (r - rows a) x
                    else at_ s c (r - rows a - rows b) x)
  else fail BadConcat.

(** Modelled from the spec: [ImageUtil::imageSize], the "byte size" of a
    panel (section 8): number of elements times element size. *)
Definition imageSize (m : Mat) : Z := total m * elemSize m.

(** ** The record connecting the two transforms *)

Record OptimizedImage := mkOptimizedImage {
  focused : Mat;
  blurredLeft : Mat;
  blurredRight : Mat;
  blurredTop : Mat;
  blurredBottom : Mat;
  origHSize : Size;
  origVSize : Size;
  fullSize : Size;
  leftBuffer : Z
}.

(** [OptimizedImage::size] *)
Definition OptimizedImage_size (o : OptimizedImage) : Z :=
  imageSize (focused o) + imageSize (blurredLeft o) + imageSize (blurredRight o) +
  imageSize (blurredTop o) + imageSize (blurredBottom o).

Definition CROP_ANGLE : Z := 120.
Definition H_FOCUS_ANGLE : Z := 20.
Definition V_FOCUS_ANGLE : Z := 20.
Definition BLUR_FACTOR : Z := 5.

(** [constrainAngle(int)] *)
Definition constrainAngle (x : Z) : M Z :=
  let x := Z.rem x 360 in
  let x := if x <? 0 then x + 360 else x in
  ENSURES 48 ((0 <=? x) && (x <? 360)) ;;
  ret x.

(** [constrainAngle(double)] *)
Definition constrainAngle_double (x : double) : M double :=
  let x := fmod x (of_int 360) in
  let x := if dltb x (of_int 0) then dadd x (of_int 360) else x in
  ENSURES 57 (dleb (of_int 0) x && dltb x (of_int 360)) ;;
  ret x.

Inductive CropBranch := Contiguous | Wraparound.

Definition cropBranch (leftCol rightCol : Z) : CropBranch :=
  if leftCol <? rightCol then Contiguous else Wraparound.

Section Optimizer.

(** The interpolation kernel of [cv::resize] (bilinear by default): pixel
    [(r, c)] of the destination of the given size, for a source of the given
    element type, size and contents. *)
Variable resample : Z -> Size -> (Z -> Z -> Pixel) -> Size -> Z -> Z -> Pixel.

(** [cv::resize(src, dst, dsize)] *)
Definition resize (src dst : Mat) (dsize : Size) : M Mat :=
  if empty (size src) || empty dsize then fail BadResize
  else
    fill dst (height dsize) (width dsize) (type src)
      (fun s => if size_eqb dsize (size src) then at_ s src
                else resample (type src) (size src) (at_ s src) dsize).

(** Lines 65-81: the crop window, as a pair of columns. *)
Definition cropWindow (width angle : Z) : M (Z * Z) :=
  angle <- constrainAngle angle ;;
  REQUIRES 66 (H_FOCUS_ANGLE <? CROP_ANGLE) ;;
  let angleToWidth := ddiv (of_int width) (of_int 360) in
  leftAngle <- constrainAngle (angle - CROP_ANGLE ÷ 2) ;;
  rightAngle <- constrainAngle (angle + CROP_ANGLE ÷ 2) ;;
  leftCol <- d2i (dmul (of_int leftAngle) angleToWidth) ;;
  rightCol <- d2i (dmul (of_int rightAngle) angleToWidth) ;;
  ASSERT 78 (0 <=? leftCol) ;;
  ASSERT 79 (leftCol <? width) ;;
  ASSERT 80 (0 <=? rightCol) ;;
  ASSERT 81 (rightCol <? width) ;;
  ret (leftCol, rightCol).

(** Lines 84-95: the crop. *)
Definition crop (image : Mat) (leftCol rightCol : Z) : M Mat :=
  match cropBranch leftCol rightCol with
  | Contiguous => Mat_roi image all (range leftCol rightCol)
  | Wraparound =>
      leftMat <- Mat_roi image all (range leftCol (cols image)) ;;
      rightMat <- Mat_roi image all (range 0 rightCol) ;;
      hconcat leftMat rightMat Mat_empty
  end.

(** Lines 99-110: the horizontal split into [left], [middle], [right]. *)
Definition splitH (cropped : Mat) (width : Z) : M (Mat * Mat * Mat) :=
  let angleToWidth := ddiv (of_int width) (of_int 360) in
  focusWidth <- d2i (dmul (of_int H_FOCUS_ANGLE) angleToWidth) ;;
  let focusLeftCol := cols cropped ÷ 2 - focusWidth ÷ 2 in
  let focusRightCol := cols cropped ÷ 2 + focusWidth ÷ 2 in
  ASSERT 105 (0 <=? focusLeftCol) ;;
  ASSERT 106 (focusLeftCol <=? focusRightCol) ;;
  ASSERT 107 (focusRightCol <? cols cropped) ;;
  middle <- Mat_roi cropped all (range focusLeftCol focusRightCol) ;;
  left <- Mat_roi cropped all (range 0 focusLeftCol) ;;
  right <- Mat_roi cropped all (range focusRightCol (cols cropped)) ;;
  ret (left, middle, right).

(** Lines 126-129: the rows of the vertical focus band. *)
Definition focusRows (height vAngle : Z) : M (Z * Z) :=
  let angleToHeight := ddiv (of_int height) (of_int 180) in
  focusHeight <- d2i (dmul (of_int V_FOCUS_ANGLE) angleToHeight) ;;
  focusMiddleRow <- d2i (dmul (of_int vAngle) angleToHeight) ;;
  focusTopRow <- int (focusMiddleRow - focusHeight ÷ 2) ;;
  focusBottomRow <- int (focusMiddleRow + focusHeight ÷ 2) ;;
  ret (focusTopRow, focusBottomRow).

(** Lines 132-134: the vertical split into [top], [focused], [bottom]. *)
Definition splitV (middle : Mat) (focusTopRow focusBottomRow : Z) : M (Mat * Mat * Mat) :=
  top <- Mat_roi middle (range 0 focusTopRow) all ;;
  focused <- Mat_roi middle (range focusTopRow focusBottomRow) all ;;
  bottom <- Mat_roi middle (range focusBottomRow (rows middle)) all ;;
  ret (top, focused, bottom).

(** [Optimizer::optimizeImage] *)
Definition optimizeImage (image : Mat) (angle vAngle : Z) : M OptimizedImage :=
  let width := cols image in
  let height := rows image in
  '(leftCol, rightCol) <- cropWindow width angle ;;
  cropped <- crop image leftCol rightCol ;;
  '(left', middle, right') <- splitH cropped width ;;
  let origHSize := size left' in
  let blurredLeft := left' in
  let blurredRight := right' in
  let smallSize := mkSize (cols left' ÷ BLUR_FACTOR) (rows left' ÷ BLUR_FACTOR) in
  blurredLeft <- resize left' blurredLeft smallSize ;;
  blurredRight <- resize right' blurredRight smallSize ;;
  '(focusTopRow, focusBottomRow) <- focusRows height vAngle ;;
  '(top, focused, bottom) <- splitV middle focusTopRow focusBottomRow ;;
  let origVSize := size top in
  let smallVSize := mkSize (cols top ÷ BLUR_FACTOR) (rows top ÷ BLUR_FACTOR) in
  blurredTop <- resize top Mat_empty smallVSize ;;
  blurredBottom <- resize bottom Mat_empty smallVSize ;;
  ret (mkOptimizedImage focused blurredLeft blurredRight blurredTop blurredBottom
         origHSize origVSize (size image) leftCol).

(** Lines 190-224: the three panels of the full frame.  The sum of line
    190 and the differences of lines 198, 203 and 217 are [int]
    arithmetic. *)
Definition placement (optImage : OptimizedImage) (croppedImage : Mat) : M (Mat * Mat * Mat) :=
  let numRows := height (size croppedImage) in
  let origType := type (focused optImage) in
  cropEnd <- int (width (size croppedImage) + leftBuffer optImage) ;;
  if cropEnd >=? width (fullSize optImage) then
    rightEndExclusive <- int (width (fullSize optImage) - leftBuffer optImage) ;;
    ASSERT 199 ((0 <=? rightEndExclusive) && (rightEndExclusive <=? cols croppedImage)) ;;
    fullRight <- Mat_roi croppedImage all (range 0 rightEndExclusive) ;;
    fullLeft <- Mat_roi croppedImage all (range rightEndExclusive (cols croppedImage)) ;;
    rest <- int (width (fullSize optImage) - width (size fullRight)) ;;
    centerCols <- int (rest - width (size fullLeft)) ;;
    ASSERT 204 (centerCols >=? 0) ;;
    fullCenter <- Mat_new numRows centerCols origType ;;
    setTo fullCenter (black origType) ;;
    ret (fullLeft, fullCenter, fullRight)
  else
    let leftBufferCols := leftBuffer optImage in
    fullLeft <- Mat_new numRows leftBufferCols origType ;;
    let fullCenter := croppedImage in
    rest <- int (width (fullSize optImage) - leftBufferCols) ;;
    rightBufferCols <- int (rest - width (size croppedImage)) ;;
    ASSERT 218 (rightBufferCols >=? 0) ;;
    fullRight <- Mat_new numRows rightBufferCols origType ;;
    setTo fullLeft (black origType) ;;
    setTo fullRight (black origType) ;;
    ret (fullLeft, fullCenter, fullRight).

(** [Optimizer::extractImage] *)
Definition extractImage (optImage : OptimizedImage) : M Mat :=
  left <- resize (blurredLeft optImage) Mat_empty (origHSize optImage) ;;
  right <- resize (blurredRight optImage) Mat_empty (origHSize optImage) ;;
  top <- resize (blurredTop optImage) Mat_empty (origVSize optImage) ;;
  bottom <- resize (blurredBottom optImage) Mat_empty (origVSize optImage) ;;
  middle <- vconcat3 top (focused optImage) bottom Mat_empty ;;
  croppedImage <- hconcat3 left middle right Mat_empty ;;
  '(fullLeft, fullCenter, fullRight) <- placement optImage croppedImage ;;
  fullImage <- hconcat3 fullLeft fullCenter fullRight Mat_empty ;;
  ENSURES 232 (size_eqb (size fullImage) (fullSize optImage)) ;;
  ret fullImage.

End Optimizer.

(** A frame of the given dimensions in buffer 0 of a one-buffer store. *)
Definition frame0 (w h : Z) : Mat := mkMat (Some 0%nat) 0 0 h w CV_8UC3.
Definition store0 (px : Pixel) : Store := mkStore 1 (fun _ _ _ => px).
Definition nearest (ty : Z) (ss : Size) (v : Z -> Z -> Pixel) (ds : Size) (r c : Z) : Pixel :=
  v (r * height ss / height ds) (c * width ss / width ds).

Definition roundtrip rs image angle vAngle : M Mat :=
  o <- optimizeImage rs image angle vAngle ;; extractImage rs o.

(** ** Vocabulary of the statements *)

(** Stores [s] and [s'] hold the same pixels in every buffer below [n]. *)
Definition agree (n : nat) (s s' : Store) : Prop :=
  forall b r c, (b < n)%nat -> mem s' b r c = mem s b r c.

(** The header [m] refers to a buffer below [n] (or to none). *)
Definition valid (n : nat) (m : Mat) : Prop :=
  match data m with Some b => (b < n)%nat | None => True end.

(** [d] is a header on a buffer allocated by the step from [s] to [s'],
    of the given shape and holding [f]; older buffers are untouched. *)
Definition produced (s : Store) (d : Mat) (s' : Store) (nr nc ty : Z)
    (f : Z -> Z -> Pixel) : Prop :=
  d = mkMat (Some (next s)) 0 0 nr nc ty /\ 0 <= nr /\ 0 <= nc /\
  next s' = S (next s) /\ agree (next s) s s' /\
  forall r c, 0 <= r < nr -> 0 <= c < nc -> at_ s' d r c = f r c.

(** A computation that never writes to a buffer that existed before it ran. *)
Definition preserving {A} (m : M A) : Prop :=
  forall s, (next s <= next (final_store (m s)))%nat /\
            agree (next s) s (final_store (m s)).

(** A computation that, started with at least [n] buffers, never writes
    to a buffer below [n]. *)
Definition keeps {A} (n : nat) (m : M A) : Prop :=
  forall s, (n <= next s)%nat ->
    (n <= next (final_store (m s)))%nat /\ agree n s (final_store (m s)).

(** [Mat::empty()] *)
Definition Mat_is_empty (m : Mat) : bool := (rows m <=? 0) || (cols m <=? 0).

(** The records [extractImage] can rebuild a frame from: panels and
    recorded sizes that are not empty and fit each other and the frame,
    with a crop whose right end is an [int]. *)
Definition decodable (o : OptimizedImage) : Prop :=
  (Mat_is_empty (blurredLeft o) = false /\ Mat_is_empty (blurredRight o) = false /\
   Mat_is_empty (blurredTop o) = false /\ Mat_is_empty (blurredBottom o) = false) /\
  (empty (origHSize o) = false /\ empty (origVSize o) = false) /\
  (type (blurredRight o) = type (blurredLeft o) /\ type (blurredTop o) = type (blurredLeft o) /\
   type (blurredBottom o) = type (blurredLeft o) /\ type (focused o) = type (blurredLeft o)) /\
  cols (focused o) = width (origVSize o) /\
  height (origVSize o) + rows (focused o) + height (origVSize o) = height (origHSize o) /\
  height (origHSize o) = height (fullSize o) /\
  width (origHSize o) + width (origVSize o) + width (origHSize o) <= width (fullSize o) /\
  0 <= leftBuffer o < width (fullSize o) /\
  width (origHSize o) + width (origVSize o) + width (origHSize o) + leftBuffer o
  <> width (fullSize o) /\
  width (origHSize o) + width (origVSize o) + width (origHSize o) + leftBuffer o
  <= INT_MAX.

(** The two ends of the crop window, in degrees, and the pixel coordinate
    [int(a * (n / d.0))] of an angle [a], as [cropWindow] computes them. *)
Definition leftAngle_of (angle : Z) : Z := (angle mod 360 - 60) mod 360.
Definition rightAngle_of (angle : Z) : Z := (angle mod 360 + 60) mod 360.
Definition scaled (a n d : Z) : option Z :=
  trunc (dmul (of_int a) (ddiv (of_int n) (of_int d))).

(** A computation that leaves the store as it found it, whatever its outcome. *)
Definition readonly {A} (m : M A) : Prop := forall s, final_store (m s) = s.

(** The value of a run, and reading one pixel inside a run. *)
Definition value_of {A} (o : outcome A) : option A :=
  match o with Ok a _ => Some a | Err _ _ => None end.
Definition pixel_at (m : Mat) (r c : Z) : M Pixel := fun s => Ok (at_ s m r c) s.

(** [-2^-60], a normal binary64 number. *)
Definition tiny_negative : double := S754_finite true 4503599627370496 (-112).

(** * Properties *)

(** ** binary64 arithmetic on the values the transcoder scales *)

Lemma digits2_pos_size p : digits2_pos p = Pos.size p.
Proof. induction p; simpl; congruence. Qed.

Lemma Zdigits2_log2 m : 0 < m -> Zdigits2 m = Z.log2 m + 1.
Proof.
  destruct m as [|p|p]; try lia. intros _. simpl.
  rewrite digits2_pos_size. destruct p; simpl; lia.
Qed.

Lemma Zdigits2_bounds m : 0 < m -> 2 ^ (Zdigits2 m - 1) <= m < 2 ^ Zdigits2 m.
Proof.
  intros H. rewrite Zdigits2_log2 by assumption.
  replace (Z.log2 m + 1 - 1) with (Z.log2 m) by lia.
  pose proof (Z.log2_spec m H). replace (Z.log2 m + 1) with (Z.succ (Z.log2 m)) by lia. lia.
Qed.

Lemma Zdigits2_unique m d : 2 ^ (d - 1) <= m < 2 ^ d -> 0 < d -> Zdigits2 m = d.
Proof.
  intros H Hd. assert (0 < m) by (pose proof (Z.pow_pos_nonneg 2 (d-1)); lia).
  rewrite Zdigits2_log2 by assumption.
  assert (Z.log2 m = d - 1); [|lia].
  apply Z.log2_unique; [lia|]. replace (Z.succ (d-1)) with d by lia. lia.
Qed.

Lemma shr_1_m mrs : 0 <= shr_m mrs -> shr_m (shr_1 mrs) = shr_m mrs / 2.
Proof.
  destruct mrs as [m r s]; simpl. intros H.
  destruct m as [|[p|p|]|p]; simpl; try lia; try reflexivity;
    first [ apply Z.div_unique with 1; lia | apply Z.div_unique with 0; lia ].
Qed.

Lemma iter_shr_1_m p : forall mrs, 0 <= shr_m mrs ->
  shr_m (iter_pos shr_1 p mrs) = shr_m mrs / 2 ^ Zpos p.
Proof.
  induction p as [p IH|p IH|]; intros mrs H; simpl iter_pos.
  - assert (H1 : 0 <= shr_m (shr_1 mrs)) by (rewrite shr_1_m by assumption; apply Z.div_pos; lia).
    assert (H2 : 0 <= shr_m (iter_pos shr_1 p (shr_1 mrs))) by (rewrite IH by assumption; apply Z.div_pos; lia).
    rewrite IH, IH, shr_1_m by assumption.
    rewrite !Z.div_div by lia. f_equal.
    replace (Z.pos p~1) with (1 + Z.pos p + Z.pos p) by lia.
    rewrite !Z.pow_add_r, Z.pow_1_r by lia. ring.
  - assert (H2 : 0 <= shr_m (iter_pos shr_1 p mrs)) by (rewrite IH by assumption; apply Z.div_pos; lia).
    rewrite IH, IH by assumption.
    rewrite !Z.div_div by lia. f_equal.
    replace (Z.pos p~0) with (Z.pos p + Z.pos p) by lia.
    rewrite Z.pow_add_r by lia. reflexivity.
  - rewrite shr_1_m by assumption. reflexivity.
Qed.

Lemma shr_spec mrs e n : 0 <= shr_m mrs ->
  exists mrs', shr mrs e n = (mrs', e + Z.max 0 n) /\
               shr_m mrs' = shr_m mrs / 2 ^ Z.max 0 n.
Proof.
  intros H. destruct n as [|p|p]; simpl shr.
  - exists mrs. rewrite Z.div_1_r, Z.add_0_r. auto.
  - exists (iter_pos shr_1 p mrs). rewrite iter_shr_1_m by assumption. auto.
  - exists mrs. rewrite Z.div_1_r, Z.add_0_r. auto.
Qed.

Lemma shr_record_of_loc_m m l : shr_m (shr_record_of_loc m l) = m.
Proof. destruct l as [|[]]; reflexivity. Qed.

Lemma round_nearest_even_bounds m l :
  round_nearest_even m l = m \/ round_nearest_even m l = m + 1.
Proof. destruct l as [|[]]; simpl; auto. destruct (Z.even m); auto. Qed.

Lemma fexp_normal e : -1074 <= e - 53 -> fexp prec emax e = e - 53.
Proof. unfold fexp, emin, prec, emax. lia. Qed.

Lemma binary_round_aux_spec s mx ex l :
  0 < mx -> 53 <= Zdigits2 mx -> -1074 <= Zdigits2 mx + ex - 53 ->
  Zdigits2 mx + ex < 1024 ->
  exists m2 k r,
    binary_round_aux prec emax s mx ex l = S754_finite s m2 (ex + k) /\
    2 ^ 52 <= Zpos m2 < 2 ^ 53 /\
    Zdigits2 mx - 53 <= k <= Zdigits2 mx - 52 /\
    (r = mx / 2 ^ (Zdigits2 mx - 53) \/ r = mx / 2 ^ (Zdigits2 mx - 53) + 1) /\
    Zpos m2 * 2 ^ k = r * 2 ^ (Zdigits2 mx - 53).
Proof.
  intros Hm Hd Hlo Hhi.
  set (d := Zdigits2 mx) in *. set (n := d - 53).
  assert (Hn : 0 <= n) by (unfold n; lia).
  pose proof (Zdigits2_bounds mx Hm) as Hb. fold d in Hb.
  assert (Hpn : 0 < 2 ^ n) by (apply Z.pow_pos_nonneg; lia).
  assert (Hsplit : 2 ^ d = 2 ^ 53 * 2 ^ n)
    by (rewrite <- Z.pow_add_r by lia; f_equal; unfold n; lia).
  assert (Hsplit' : 2 ^ (d - 1) = 2 ^ 52 * 2 ^ n)
    by (rewrite <- Z.pow_add_r by lia; f_equal; unfold n; lia).
  set (m1 := mx / 2 ^ n).
  assert (Hm1 : 2 ^ 52 <= m1 < 2 ^ 53).
  { unfold m1. split.
    - apply Z.div_le_lower_bound; lia.
    - apply Z.div_lt_upper_bound; lia. }
  unfold binary_round_aux, shr_fexp.
  fold d. rewrite (fexp_normal (d + ex)) by lia.
  replace (d + ex - 53 - ex) with n by (unfold n; lia).
  destruct (shr_spec (shr_record_of_loc mx l) ex n) as (mrs' & E1 & E2).
  { rewrite shr_record_of_loc_m. lia. }
  rewrite shr_record_of_loc_m in E2. rewrite Z.max_r in E1, E2 by lia. fold m1 in E2.
  rewrite E1.
  set (r := round_nearest_even (shr_m mrs') (loc_of_shr_record mrs')).
  assert (Hr : r = m1 \/ r = m1 + 1).
  { unfold r. rewrite <- E2. apply round_nearest_even_bounds. }
  assert (Hr0 : 0 < r) by lia. clearbody r.
  destruct (Z.eq_dec r (2 ^ 53)) as [Hr53|Hr53].
  - (* the rounded mantissa reached 2^53: one more, exact, shift *)
    assert (Hdr : Zdigits2 r = 54) by (apply Zdigits2_unique; [rewrite Hr53; change (54 - 1) with 53; change (2 ^ 54) with (2 * 2 ^ 53); lia|lia]).
    rewrite Hdr. rewrite (fexp_normal (54 + (ex + n))) by (unfold n; lia).
    replace (54 + (ex + n) - 53 - (ex + n)) with 1 by lia.
    destruct (shr_spec (shr_record_of_loc r loc_Exact) (ex + n) 1) as (mrs'' & F1 & F2).
    { simpl. lia. }
    rewrite F1. cbn [shr_record_of_loc shr_m] in F2. rewrite F2, Hr53.
    change (2 ^ 53 / 2 ^ Z.max 0 1) with (Zpos (2 ^ 52)).
    change (Z.max 0 1) with 1.
    replace (ex + n + 1 <=? emax - prec) with true
      by (symmetry; apply Z.leb_le; unfold emax, prec, n; lia).
    exists (2 ^ 52)%positive, (n + 1), (2 ^ 53). fold n. fold m1.
    replace (ex + n + 1) with (ex + (n + 1)) by lia.
    repeat split; try lia.
    rewrite Z.pow_add_r, Z.pow_1_r by lia.
    change (Z.pos (2 ^ 52)) with (2 ^ 52). change (2 ^ 53) with (2 * 2 ^ 52). ring.
  - assert (Hdr : Zdigits2 r = 53) by (apply Zdigits2_unique; [change (53 - 1) with 52; lia|lia]).
    rewrite Hdr. rewrite (fexp_normal (53 + (ex + n))) by (unfold n; lia).
    replace (53 + (ex + n) - 53 - (ex + n)) with 0 by lia.
    cbn [shr shr_record_of_loc shr_m].
    destruct r as [|p|p]; try lia.
    replace (ex + n <=? emax - prec) with true
      by (symmetry; apply Z.leb_le; unfold emax, prec, n; lia).
    exists p, n, (Zpos p). fold n. fold m1.
    repeat split; try lia.
Qed.

Lemma binary_round_aux_exact s p ex :
  Zdigits2 (Zpos p) = 53 -> -1074 <= ex -> ex <= 971 ->
  binary_round_aux prec emax s (Zpos p) ex loc_Exact = S754_finite s p ex.
Proof.
  intros Hd Hlo Hhi. unfold binary_round_aux, shr_fexp.
  rewrite Hd, (fexp_normal (53 + ex)) by lia.
  replace (53 + ex - 53 - ex) with 0 by lia.
  cbn [shr shr_record_of_loc shr_m loc_of_shr_record round_nearest_even].
  rewrite Hd, (fexp_normal (53 + ex)) by lia.
  replace (53 + ex - 53 - ex) with 0 by lia.
  cbn [shr shr_record_of_loc shr_m].
  replace (ex <=? emax - prec) with true
    by (symmetry; apply Z.leb_le; unfold emax, prec; lia).
  reflexivity.
Qed.

Lemma iter_xO_mul m p : Zpos (Pos.iter xO m p) = Zpos m * 2 ^ Zpos p.
Proof.
  pose proof (Zpower.shift_pos_correct p m) as H. unfold Zpower.shift_pos in H.
  rewrite H, Zpower.Zpower_pos_nat, Zpower.Zpower_nat_Z, positive_nat_Z. ring.
Qed.

Lemma of_int_spec z :
  1 <= z < 2 ^ 53 ->
  exists m, of_int z = S754_finite false m (Zdigits2 z - 53) /\
         Zpos m = z * 2 ^ (53 - Zdigits2 z) /\ 2 ^ 52 <= Zpos m < 2 ^ 53.
Proof.
  intros Hz. destruct z as [|p|p]; try lia.
  pose proof (Zdigits2_bounds (Zpos p) ltac:(lia)) as Hb.
  set (d := Zdigits2 (Zpos p)) in *.
  assert (Hd1 : 1 <= d) by (unfold d; simpl; lia).
  assert (Hd53 : d <= 53).
  { destruct (Z_le_gt_dec d 53) as [|Hgt]; [assumption|exfalso].
    assert (2 ^ 53 <= 2 ^ (d - 1)) by (apply Z.pow_le_mono_r; lia). lia. }
  unfold of_int, binary_normalize, binary_round.
  change (Z.pos (digits2_pos p)) with d.
  rewrite Z.add_0_r, (fexp_normal d) by lia.
  unfold shl_align. rewrite Z.sub_0_r.
  assert (Hval : 2 ^ 52 <= Zpos p * 2 ^ (53 - d) < 2 ^ 53).
  { assert (E1 : 2 ^ 52 = 2 ^ (d - 1) * 2 ^ (53 - d))
      by (rewrite <- Z.pow_add_r by lia; f_equal; lia).
    assert (E2 : 2 ^ 53 = 2 ^ d * 2 ^ (53 - d))
      by (rewrite <- Z.pow_add_r by lia; f_equal; lia).
    assert (0 < 2 ^ (53 - d)) by (apply Z.pow_pos_nonneg; lia).
    rewrite E1 at 1. rewrite E2. nia. }
  destruct (d - 53) as [|q|q] eqn:Eq; try lia.
  - replace (53 - d) with 0 in * by lia. rewrite Z.pow_0_r, Z.mul_1_r in *.
    rewrite binary_round_aux_exact; [|apply Zdigits2_unique; [exact Hval|lia]|lia|lia].
    exists p. repeat split; lia.
  - assert (Eq' : 53 - d = Zpos q) by lia. rewrite Eq' in *.
    rewrite binary_round_aux_exact.
    + exists (Pos.iter xO p q). rewrite iter_xO_mul. repeat split; lia.
    + apply Zdigits2_unique; [rewrite iter_xO_mul; exact Hval|lia].
    + lia.
    + lia.
Qed.

Lemma Zdigits2_range m a b :
  0 <= a -> 2 ^ a <= m < 2 ^ b -> a < Zdigits2 m <= b.
Proof.
  intros Ha H. assert (Hm : 0 < m) by (pose proof (Z.pow_pos_nonneg 2 a); lia).
  pose proof (Zdigits2_bounds m Hm) as Hb.
  assert (Hd : 0 < Zdigits2 m) by (rewrite Zdigits2_log2 by assumption; pose proof (Z.log2_nonneg m); lia).
  split.
  - apply (Z.pow_lt_mono_r_iff 2); lia.
  - destruct (Z_le_gt_dec (Zdigits2 m) b) as [|Hgt]; [assumption|exfalso].
    assert (2 ^ b <= 2 ^ (Zdigits2 m - 1)) by (apply Z.pow_le_mono_r; lia). lia.
Qed.

Lemma div_pow2_bounds m n : 0 <= n ->
  m / 2 ^ n * 2 ^ n <= m < (m / 2 ^ n + 1) * 2 ^ n.
Proof.
  intros Hn. assert (H : 0 < 2 ^ n) by (apply Z.pow_pos_nonneg; lia).
  pose proof (Z.div_mod m (2 ^ n) ltac:(lia)).
  pose proof (Z.mod_pos_bound m (2 ^ n) H). nia.
Qed.

Lemma dmul_spec m1 e1 m2 e2 :
  2 ^ 52 <= Zpos m1 < 2 ^ 53 -> 2 ^ 52 <= Zpos m2 < 2 ^ 53 ->
  -1126 <= e1 + e2 -> e1 + e2 < 918 ->
  exists m k,
    dmul (S754_finite false m1 e1) (S754_finite false m2 e2)
      = S754_finite false m (e1 + e2 + k) /\
    2 ^ 52 <= Zpos m < 2 ^ 53 /\ 52 <= k <= 54 /\
    Zpos m1 * Zpos m2 - 2 ^ k <= Zpos m * 2 ^ k <= Zpos m1 * Zpos m2 + 2 ^ k.
Proof.
  intros H1 H2 Hlo Hhi. unfold dmul, SFmul. cbn [xorb].
  rewrite Pos2Z.inj_mul.
  set (P := Zpos m1 * Zpos m2).
  assert (HP : 2 ^ 104 <= P < 2 ^ 106).
  { unfold P. change (2 ^ 104) with (2 ^ 52 * 2 ^ 52). change (2 ^ 106) with (2 ^ 53 * 2 ^ 53). nia. }
  pose proof (Zdigits2_range P 104 106 ltac:(lia) HP) as Hd.
  destruct (binary_round_aux_spec false P (e1 + e2) loc_Exact) as (m & k & r & E & Hm & Hk & Hr & Hv);
    try lia.
  exists m, k. split; [exact E|]. split; [exact Hm|]. split; [lia|].
  set (n := Zdigits2 P - 53) in *.
  pose proof (div_pow2_bounds P n ltac:(lia)) as Hb.
  assert (2 ^ n <= 2 ^ k) by (apply Z.pow_le_mono_r; lia).
  rewrite Hv. destruct Hr as [-> | ->]; nia.
Qed.

Lemma ddiv_spec m1 e1 m2 e2 :
  2 ^ 52 <= Zpos m1 < 2 ^ 53 -> 2 ^ 52 <= Zpos m2 < 2 ^ 53 ->
  -1021 <= e1 - e2 -> e1 - e2 < 1020 ->
  exists m k,
    ddiv (S754_finite false m1 e1) (S754_finite false m2 e2)
      = S754_finite false m (e1 - e2 - 53 + k) /\
    2 ^ 52 <= Zpos m < 2 ^ 53 /\ 0 <= k <= 2 /\
    Zpos m1 * 2 ^ 53 - 2 ^ k * Zpos m2 <= Zpos m * 2 ^ k * Zpos m2
      <= Zpos m1 * 2 ^ 53 + 2 ^ k * Zpos m2.
Proof.
  intros H1 H2 Hlo Hhi. unfold ddiv, SFdiv, SFdiv_core_binary. cbn [xorb].
  rewrite (Zdigits2_unique (Zpos m1) 53), (Zdigits2_unique (Zpos m2) 53)
    by (try (change (53 - 1) with 52); lia).
  replace (53 + e1 - (53 + e2)) with (e1 - e2) by lia.
  rewrite (fexp_normal (e1 - e2)) by lia.
  rewrite Z.min_l by lia.
  replace (e1 - e2 - (e1 - e2 - 53)) with 53 by lia.
  cbv zeta. rewrite Z.shiftl_mul_pow2 by lia.
  set (a := Zpos m1 * 2 ^ 53). set (b := Zpos m2).
  destruct (Z.div_eucl a b) as [q r] eqn:Eqr.
  assert (Hq : q = a / b) by (unfold Z.div; rewrite Eqr; reflexivity).
  assert (Hb0 : 0 < b) by (unfold b; lia).
  pose proof (Z.div_mod a b ltac:(lia)) as Hdm.
  pose proof (Z.mod_pos_bound a b Hb0) as Hmb. rewrite <- Hq in Hdm.
  assert (Hqr : 2 ^ 52 <= q < 2 ^ 54).
  { assert (Ha : a = Zpos m1 * (2 * 2 ^ 52)) by reflexivity.
    change (2 ^ 54) with (4 * 2 ^ 52). change (2 ^ 53) with (2 * 2 ^ 52) in H1, H2.
    fold b in H2. clearbody a b. revert Ha H1 H2. generalize (2 ^ 52), (Zpos m1).
    intros c x ? ? ?. split.
    - destruct (Z_le_gt_dec c q) as [|Hgt]; [assumption|exfalso].
      assert (b * (q + 1) <= b * c) by (apply Z.mul_le_mono_nonneg_l; lia). nia.
    - destruct (Z_lt_ge_dec q (4 * c)) as [|Hge]; [assumption|exfalso].
      assert (b * (4 * c) <= b * q) by (apply Z.mul_le_mono_nonneg_l; lia). nia. }
  pose proof (Zdigits2_range q 52 54 ltac:(lia) Hqr) as Hd.
  destruct (binary_round_aux_spec false q (e1 - e2 - 53) (new_location b r))
    as (m & k & r' & E & Hm & Hk & Hr & Hv); try lia.
  exists m, k. split; [exact E|]. split; [exact Hm|]. split; [lia|].
  set (n := Zdigits2 q - 53) in *.
  pose proof (div_pow2_bounds q n ltac:(lia)) as Hbn.
  assert (2 ^ n <= 2 ^ k) by (apply Z.pow_le_mono_r; lia).
  assert (0 < 2 ^ n) by (apply Z.pow_pos_nonneg; lia).
  rewrite Hv. destruct Hr as [-> | ->]; nia.
Qed.

Lemma cancel_le_l c x y : 0 < c -> c * x <= c * y -> x <= y.
Proof. intros. nia. Qed.

Lemma div_between y C q : 0 < C -> q * C <= y < (q + 1) * C -> y / C = q.
Proof.
  intros HC H. symmetry. apply Z.div_unique with (y - q * C); lia.
Qed.

Lemma scale_arith a W D x y C A :
  1 <= a <= D -> D < 1024 -> 1 <= W < 2147483648 ->
  4503599627370496 <= y -> 0 < C -> 0 < A ->
  W * (C * A) - D <= x * D <= W * (C * A) + D ->
  a * x - A <= y * A <= a * x + A ->
  a * W / D - 1 <= y / C <= a * W / D /\
  ((a * W) mod D <> 0 -> y / C = a * W / D).
Proof.
  intros Ha HD HW Hy HC HA G1 G2.
  assert (U1 : a * (x * D) <= a * (W * (C * A) + D)) by (apply Z.mul_le_mono_nonneg_l; lia).
  assert (L1 : a * (W * (C * A) - D) <= a * (x * D)) by (apply Z.mul_le_mono_nonneg_l; lia).
  assert (U2 : D * (y * A) <= D * (a * x + A)) by (apply Z.mul_le_mono_nonneg_l; lia).
  assert (L2 : D * (a * x - A) <= D * (y * A)) by (apply Z.mul_le_mono_nonneg_l; lia).
  assert (HaD : a * D <= a * D * A) by nia.
  (* both bounds, with the common factor A *)
  assert (U3 : A * (D * y) <= A * (a * W * C + D * (a + 1))) by lia.
  assert (L3 : A * (a * W * C - D * (a + 1)) <= A * (D * y)) by lia.
  apply cancel_le_l in U3; [|assumption]. apply cancel_le_l in L3; [|assumption].
  clear U1 L1 U2 L2 HaD G1 G2.
  (* the result is below 2^31, so its unit in the last place is small *)
  assert (HC21 : 2097152 <= C).
  { destruct (Z_le_gt_dec 2097152 C) as [|Hgt]; [assumption|exfalso].
    assert (W * C <= 2147483647 * 2097151) by nia.
    assert (a * (W * C) <= D * (2147483647 * 2097151)) by nia.
    nia. }
  pose proof (Z.div_mod (a * W) D ltac:(lia)) as Hdm.
  pose proof (Z.mod_pos_bound (a * W) D ltac:(lia)) as Hmb.
  set (Q := a * W / D) in *. set (R := (a * W) mod D) in *.
  assert (HaW : a * W * C = D * Q * C + R * C) by (rewrite Hdm; ring).
  rewrite HaW in U3, L3.
  assert (Hsmall : D * (a + 1) < C) by nia.
  assert (Hup : y < (Q + 1) * C).
  { apply (Z.mul_lt_mono_pos_l D); [lia|]. nia. }
  assert (Hlo : (Q - 1) * C <= y).
  { apply (cancel_le_l D); [lia|]. nia. }
  split.
  - split.
    + apply Z.div_le_lower_bound; lia.
    + assert (y / C < Q + 1); [apply Z.div_lt_upper_bound; lia|lia].
  - intros HR. apply div_between; [assumption|]. split; [|assumption].
    apply (cancel_le_l D); [lia|]. nia.
Qed.

Lemma scale_spec a W D :
  1 <= a <= D -> D < 2 ^ 10 -> 1 <= W < 2 ^ 31 ->
  exists t, trunc (dmul (of_int a) (ddiv (of_int W) (of_int D))) = Some t /\
    a * W / D - 1 <= t <= a * W / D /\
    ((a * W) mod D <> 0 -> t = a * W / D).
Proof.
  intros Ha HD HW.
  assert (P10 : 2 ^ 10 = 1024) by reflexivity.
  assert (P31 : 2 ^ 31 = 2147483648) by reflexivity.
  destruct (of_int_spec a) as (ma & Ea & Va & Ba); [change (2 ^ 53) with 9007199254740992; lia|].
  destruct (of_int_spec W) as (mW & EW & VW & BW); [change (2 ^ 53) with 9007199254740992; lia|].
  destruct (of_int_spec D) as (mD & ED & VD & BD); [change (2 ^ 53) with 9007199254740992; lia|].
  pose proof (Zdigits2_range a 0 10 ltac:(lia) ltac:(change (2 ^ 0) with 1; lia)) as Hda.
  pose proof (Zdigits2_range W 0 31 ltac:(lia) ltac:(change (2 ^ 0) with 1; lia)) as HdW.
  pose proof (Zdigits2_range D 0 10 ltac:(lia) ltac:(change (2 ^ 0) with 1; lia)) as HdD.
  set (da := Zdigits2 a) in *. set (dW := Zdigits2 W) in *. set (dD := Zdigits2 D) in *.
  rewrite Ea, EW, ED.
  destruct (ddiv_spec mW (dW - 53) mD (dD - 53)) as (mx & kx & Ex & Bx & Hkx & Vx); try lia.
  rewrite Ex.
  destruct (dmul_spec ma (da - 53) mx (dW - 53 - (dD - 53) - 53 + kx)) as (my & ky & Ey & By & Hky & Vy);
    try lia.
  rewrite Ey. unfold trunc. cbn [cond_Zopp].
  set (ey := da - 53 + (dW - 53 - (dD - 53) - 53 + kx) + ky).
  assert (Hey : ey < 0) by (unfold ey; lia).
  replace (0 <=? ey) with false by (symmetry; apply Z.leb_gt; lia).
  eexists; split; [reflexivity|].
  (* the scalings, as powers of two *)
  set (j := ky - (53 - da)). set (Sy := - ey).
  assert (Hj : 0 <= j) by (unfold j; lia).
  assert (HSy : 0 <= Sy) by (unfold Sy; lia).
  assert (PA : 0 < 2 ^ j) by (apply Z.pow_pos_nonneg; lia).
  assert (PC : 0 < 2 ^ Sy) by (apply Z.pow_pos_nonneg; lia).
  assert (PE : 0 < 2 ^ (53 - dD + kx)) by (apply Z.pow_pos_nonneg; lia).
  assert (Psa : 0 < 2 ^ (53 - da)) by (apply Z.pow_pos_nonneg; lia).
  assert (Q1 : 2 ^ (53 - dW) * 2 ^ 53 = 2 ^ (53 - dD + kx) * (2 ^ Sy * 2 ^ j))
    by (rewrite <- !Z.pow_add_r by lia; f_equal; unfold Sy, ey, j; lia).
  assert (Q2 : 2 ^ kx * 2 ^ (53 - dD) = 2 ^ (53 - dD + kx))
    by (rewrite <- !Z.pow_add_r by lia; f_equal; lia).
  assert (Q3 : 2 ^ ky = 2 ^ (53 - da) * 2 ^ j)
    by (rewrite <- !Z.pow_add_r by lia; f_equal; unfold j; lia).
  (* x = mx / 2^Sx is within one unit in the last place of W / D *)
  assert (G1 : W * (2 ^ Sy * 2 ^ j) - D <= Zpos mx * D <= W * (2 ^ Sy * 2 ^ j) + D).
  { rewrite VW, VD in Vx.
    assert (T1 : W * 2 ^ (53 - dW) * 2 ^ 53 = 2 ^ (53 - dD + kx) * (W * (2 ^ Sy * 2 ^ j)))
      by (rewrite <- Z.mul_assoc, Q1; ring).
    assert (T2 : 2 ^ kx * (D * 2 ^ (53 - dD)) = 2 ^ (53 - dD + kx) * D)
      by (rewrite <- Q2; ring).
    assert (T3 : Zpos mx * 2 ^ kx * (D * 2 ^ (53 - dD)) = 2 ^ (53 - dD + kx) * (Zpos mx * D))
      by (rewrite <- Q2; ring).
    rewrite T1, T2, T3 in Vx.
    split; apply (cancel_le_l (2 ^ (53 - dD + kx))); try assumption; lia. }
  (* y = my / 2^Sy is within one unit in the last place of a * x *)
  assert (G2 : a * Zpos mx - 2 ^ j <= Zpos my * 2 ^ j <= a * Zpos mx + 2 ^ j).
  { rewrite Va, Q3 in Vy.
    split; apply (cancel_le_l (2 ^ (53 - da))); try assumption; lia. }
  clear Vx Vy Q1 Q2 Q3 PE Psa Ex Ey Ea EW ED Va VW VD.
  change (2 ^ 52) with 4503599627370496 in *. change (2 ^ 53) with 9007199254740992 in *.
  replace (- ey) with Sy by reflexivity.
  apply (scale_arith a W D (Zpos mx) (Zpos my) (2 ^ Sy) (2 ^ j)); try assumption; lia.
Qed.

(** ** The result monad *)

Lemma bind_Ok {A B} (m : M A) (k : A -> M B) s b s' :
  bind m k s = Ok b s' -> exists a s1, m s = Ok a s1 /\ k a s1 = Ok b s'.
Proof.
  unfold bind. destruct (m s) as [a s1|f s1]; [|discriminate]. eauto.
Qed.

Lemma ret_Ok {A} (a b : A) s s' : ret a s = Ok b s' -> b = a /\ s' = s.
Proof. unfold ret. intros H. inversion H. auto. Qed.

Lemma contract_Ok line b s u s' : contract line b s = Ok u s' -> b = true /\ s' = s.
Proof.
  unfold contract. destruct b; [|discriminate]. intros H. apply ret_Ok in H. tauto.
Qed.

Lemma in_int_true z : in_int z = true -> - 2147483648 <= z <= 2147483647.
Proof.
  unfold in_int, INT_MIN, INT_MAX. rewrite andb_true_iff, !Z.leb_le.
  change (2 ^ 31) with 2147483648. lia.
Qed.

Lemma d2i_Ok x s z s' :
  d2i x s = Ok z s' -> s' = s /\ trunc x = Some z /\ - 2147483648 <= z <= 2147483647.
Proof.
  unfold d2i. destruct (trunc x) as [t|]; [|discriminate].
  destruct (in_int t) eqn:E; [|discriminate].
  intros H. apply ret_Ok in H. destruct H; subst. auto using in_int_true.
Qed.

Lemma int_Ok z s z' s' :
  int z s = Ok z' s' -> s' = s /\ z' = z /\ - 2147483648 <= z <= 2147483647.
Proof.
  unfold int. destruct (in_int z) eqn:E; [|discriminate].
  intros H. apply ret_Ok in H. destruct H; subst. auto using in_int_true.
Qed.

Lemma rem_constrain x :
  (if Z.rem x 360 <? 0 then Z.rem x 360 + 360 else Z.rem x 360) = x mod 360.
Proof.
  pose proof (Z.quot_rem x 360 ltac:(lia)) as Hq.
  assert (Hb : -360 < Z.rem x 360 < 360).
  { pose proof (Z.rem_bound_abs x 360 ltac:(lia)). lia. }
  assert (Hs : 0 <= x -> 0 <= Z.rem x 360) by (intros; apply Z.rem_nonneg; lia).
  assert (Hs' : x <= 0 -> Z.rem x 360 <= 0).
  { intros. pose proof (Z.rem_opp_l x 360 ltac:(lia)).
    pose proof (Z.rem_nonneg (- x) 360 ltac:(lia) ltac:(lia)). lia. }
  destruct (Z.ltb_spec (Z.rem x 360) 0).
  - apply Z.mod_unique with (x ÷ 360 - 1); lia.
  - apply Z.mod_unique with (x ÷ 360); lia.
Qed.

Lemma constrainAngle_eq x s : constrainAngle x s = Ok (x mod 360) s.
Proof.
  unfold constrainAngle, ENSURES, contract. cbv zeta. rewrite rem_constrain.
  pose proof (Z.mod_pos_bound x 360 ltac:(lia)).
  replace ((0 <=? x mod 360) && (x mod 360 <? 360)) with true; [reflexivity|].
  symmetry. rewrite andb_true_iff, Z.leb_le, Z.ltb_lt. lia.
Qed.

Ltac inv_bind H :=
  let a := fresh "v" in
  let s := fresh "s" in
  let E := fresh "E" in
  apply bind_Ok in H; destruct H as (a & s & E & H).

Tactic Notation "step" hyp(H) "as" simple_intropattern(a) ident(s) ident(E) :=
  apply bind_Ok in H; destruct H as (a & s & E & H).

(** ** The store *)

Lemma agree_refl n s : agree n s s.
Proof. intros b r c _. reflexivity. Qed.

Lemma agree_trans n s1 s2 s3 : agree n s1 s2 -> agree n s2 s3 -> agree n s1 s3.
Proof. intros H1 H2 b r c Hb. rewrite H2, H1 by assumption. reflexivity. Qed.

Lemma agree_mono n n' s s' : (n' <= n)%nat -> agree n s s' -> agree n' s s'.
Proof. intros Hn H b r c Hb. apply H. lia. Qed.

Lemma valid_mono n n' m : (n <= n')%nat -> valid n m -> valid n' m.
Proof. unfold valid. destruct (data m); [lia|auto]. Qed.

Lemma at_agree n s s' m r c : valid n m -> agree n s s' -> at_ s' m r c = at_ s m r c.
Proof.
  unfold valid, at_. destruct (data m) as [b|]; [|reflexivity].
  intros Hb H. apply H. assumption.
Qed.

Lemma produced_valid s d s' nr nc ty f :
  produced s d s' nr nc ty f -> valid (next s') d.
Proof. intros (-> & _ & _ & Hn & _). unfold valid; simpl. lia. Qed.

(** ** OpenCV primitives *)

Lemma check_range_all limit : check_range all limit = inr (0, limit).
Proof. reflexivity. Qed.

Lemma check_range_Ok a b limit p :
  check_range (range a b) limit = inr p ->
  p = (a, b - a) /\ ((0 <= a /\ a <= b /\ b <= limit) \/ (a = 0 /\ b = limit)).
Proof.
  unfold check_range.
  destruct ((a =? 0) && (b =? limit)) eqn:E1.
  - apply andb_true_iff in E1. rewrite !Z.eqb_eq in E1. destruct E1; subst.
    intros H; inversion H. split; [f_equal; lia|auto].
  - destruct ((0 <=? a) && (a <=? b) && (b <=? limit)) eqn:E2; [|discriminate].
    rewrite !andb_true_iff, !Z.leb_le in E2. intros H; inversion H. split; [reflexivity|lia].
Qed.

Lemma check_range_Err a b limit f :
  check_range (range a b) limit = inl f ->
  f = BadRange a b limit /\ ~ (0 <= a /\ a <= b /\ b <= limit).
Proof.
  unfold check_range.
  destruct ((a =? 0) && (b =? limit)); [discriminate|].
  destruct ((0 <=? a) && (a <=? b) && (b <=? limit)) eqn:E2; [discriminate|].
  intros H; inversion H. split; [reflexivity|].
  intros (G1 & G2 & G3). apply Z.leb_le in G1, G2, G3. rewrite G1, G2, G3 in E2. discriminate.
Qed.

Lemma Mat_roi_cols_Ok m a b s m' s' :
  Mat_roi m all (range a b) s = Ok m' s' ->
  s' = s /\ m' = roi m 0 a (rows m) (b - a) /\
  ((0 <= a /\ a <= b /\ b <= cols m) \/ (a = 0 /\ b = cols m)).
Proof.
  unfold Mat_roi. rewrite check_range_all.
  destruct (check_range (range a b) (cols m)) as [f|p] eqn:E; [discriminate|].
  apply check_range_Ok in E. destruct E as [-> E].
  intros H. apply ret_Ok in H. destruct H; subst. auto.
Qed.

Lemma Mat_roi_rows_Ok m a b s m' s' :
  Mat_roi m (range a b) all s = Ok m' s' ->
  s' = s /\ m' = roi m a 0 (b - a) (cols m) /\
  ((0 <= a /\ a <= b /\ b <= rows m) \/ (a = 0 /\ b = rows m)).
Proof.
  unfold Mat_roi. rewrite check_range_all.
  destruct (check_range (range a b) (rows m)) as [f|p] eqn:E; [discriminate|].
  apply check_range_Ok in E. destruct E as [-> E].
  intros H. apply ret_Ok in H. destruct H; subst. auto.
Qed.

(** A non-empty region is a view of the buffer; an empty one is released. *)
Lemma roi_nonempty m r0 c0 nr nc :
  0 < nr -> 0 < nc ->
  roi m r0 c0 nr nc = mkMat (data m) (row0 m + r0) (col0 m + c0) nr nc (type m).
Proof.
  intros Hr Hc. unfold roi.
  destruct (Z.leb_spec nr 0); [lia|]. destruct (Z.leb_spec nc 0); [lia|]. reflexivity.
Qed.

Lemma roi_released m r0 c0 nr nc :
  nr <= 0 \/ nc <= 0 -> roi m r0 c0 nr nc = mkMat None 0 0 0 0 (type m).
Proof.
  intros H. unfold roi.
  destruct (Z.leb_spec nr 0); [reflexivity|]. destruct (Z.leb_spec nc 0); [reflexivity|lia].
Qed.

Lemma roi_cases m r0 c0 nr nc :
  (0 < nr /\ 0 < nc /\
   roi m r0 c0 nr nc = mkMat (data m) (row0 m + r0) (col0 m + c0) nr nc (type m)) \/
  ((nr <= 0 \/ nc <= 0) /\ roi m r0 c0 nr nc = mkMat None 0 0 0 0 (type m)).
Proof.
  destruct (Z.leb_spec nr 0); [right; split; [lia|apply roi_released; lia]|].
  destruct (Z.leb_spec nc 0); [right; split; [lia|apply roi_released; lia]|].
  left. split; [lia|]. split; [lia|]. apply roi_nonempty; lia.
Qed.

Lemma roi_rows_pos m r0 c0 nr nc :
  0 < rows (roi m r0 c0 nr nc) ->
  0 < nr /\ 0 < nc /\
  roi m r0 c0 nr nc = mkMat (data m) (row0 m + r0) (col0 m + c0) nr nc (type m).
Proof.
  destruct (roi_cases m r0 c0 nr nc) as [H|[_ ->]]; [auto|]. cbn [rows]. lia.
Qed.

Lemma roi_cols_pos m r0 c0 nr nc :
  0 < cols (roi m r0 c0 nr nc) ->
  0 < nr /\ 0 < nc /\
  roi m r0 c0 nr nc = mkMat (data m) (row0 m + r0) (col0 m + c0) nr nc (type m).
Proof.
  destruct (roi_cases m r0 c0 nr nc) as [H|[_ ->]]; [auto|]. cbn [cols]. lia.
Qed.

Lemma type_roi m r0 c0 nr nc : type (roi m r0 c0 nr nc) = type m.
Proof. unfold roi. destruct ((nr <=? 0) || (nc <=? 0)); reflexivity. Qed.

Lemma at_roi s m r0 c0 nr nc r c :
  at_ s (mkMat (data m) (row0 m + r0) (col0 m + c0) nr nc (type m)) r c
  = at_ s m (r0 + r) (c0 + c).
Proof.
  unfold at_; simpl. destruct (data m); [|reflexivity]. f_equal; lia.
Qed.

Lemma valid_roi n m r0 c0 nr nc : valid n m -> valid n (roi m r0 c0 nr nc).
Proof.
  unfold valid, roi. destruct ((nr <=? 0) || (nc <=? 0)); simpl; auto.
Qed.

Lemma inside_fresh nr nc ty b r c :
  0 <= r < nr -> 0 <= c < nc -> inside (mkMat (Some b) 0 0 nr nc ty) r c = true.
Proof.
  intros Hr Hc. unfold inside; simpl.
  rewrite !andb_true_iff, !Z.leb_le, !Z.ltb_lt. lia.
Qed.

(** Allocation of a fresh buffer followed by filling it. *)
Lemma create_fresh dst nr nc ty s :
  (data dst = None \/ rows dst <> nr \/ cols dst <> nc \/ type dst <> ty) ->
  create dst nr nc ty s =
  if (nr <? 0) || (nc <? 0) then Err BadAlloc s
  else Ok (mkMat (Some (next s)) 0 0 nr nc ty) (mkStore (S (next s)) (mem s)).
Proof.
  intros Hfresh. unfold create. destruct ((nr <? 0) || (nc <? 0)); [reflexivity|].
  destruct (data dst); [|reflexivity].
  destruct ((rows dst =? nr) && (cols dst =? nc) && (type dst =? ty)) eqn:E; [|reflexivity].
  rewrite !andb_true_iff, !Z.eqb_eq in E.
  destruct Hfresh as [?|[?|[?|?]]]; try discriminate; lia.
Qed.

Lemma fill_fresh_Ok dst nr nc ty (f : Store -> Z -> Z -> Pixel) s d s' :
  (data dst = None \/ rows dst <> nr \/ cols dst <> nc \/ type dst <> ty) ->
  fill dst nr nc ty f s = Ok d s' ->
  produced s d s' nr nc ty (f (mkStore (S (next s)) (mem s))).
Proof.
  intros Hfresh H. unfold fill, bind in H. rewrite create_fresh in H by assumption.
  destruct ((nr <? 0) || (nc <? 0)) eqn:Eneg; [discriminate|].
  apply orb_false_iff in Eneg. rewrite !Z.ltb_ge in Eneg.
  unfold write, ret in H. cbn [data next mem] in H. inversion H; subst d s'; clear H.
  unfold produced.
  split; [reflexivity|]. split; [lia|]. split; [lia|]. split; [reflexivity|]. split.
  - intros b r c Hb. cbn [mem next] in *.
    destruct (Nat.eqb_spec b (next s)); [lia|reflexivity].
  - intros r c Hr Hc'. unfold at_. cbn [data mem row0 col0]. rewrite Nat.eqb_refl.
    rewrite inside_fresh by lia. f_equal; lia.
Qed.

Lemma fill_fresh_preserving dst nr nc ty (f : Store -> Z -> Z -> Pixel) :
  (data dst = None \/ rows dst <> nr \/ cols dst <> nc \/ type dst <> ty) ->
  preserving (fill dst nr nc ty f).
Proof.
  intros Hfresh s. unfold fill, bind. rewrite create_fresh by assumption.
  destruct ((nr <? 0) || (nc <? 0)).
  - simpl. split; [lia|apply agree_refl].
  - unfold write, ret. cbn [data final_store next mem]. split; [lia|].
    intros b r c Hb. cbn [mem]. destruct (Nat.eqb_spec b (next s)); [lia|reflexivity].
Qed.

Lemma hconcat_Ok a b s d s' :
  hconcat a b Mat_empty s = Ok d s' ->
  rows b = rows a /\ type b = type a /\
  produced s d s' (rows a) (cols a + cols b) (type a)
    (fun r c => if c <? cols a then at_ s a r c else at_ s b r (c - cols a)).
Proof.
  unfold hconcat.
  destruct ((rows b =? rows a) && (type b =? type a)) eqn:E; [|discriminate].
  rewrite !andb_true_iff, !Z.eqb_eq in E. intros H.
  apply fill_fresh_Ok in H; [|left; reflexivity]. tauto.
Qed.

Lemma hconcat3_Ok a b c s d s' :
  hconcat3 a b c Mat_empty s = Ok d s' ->
  rows b = rows a /\ type b = type a /\ rows c = rows a /\ type c = type a /\
  produced s d s' (rows a) (cols a + cols b + cols c) (type a)
    (fun r x => if x <? cols a then at_ s a r x
                else if x <? cols a + cols b then at_ s b r (x - cols a)
                else at_ s c r (x - cols a - cols b)).
Proof.
  unfold hconcat3.
  destruct ((rows b =? rows a) && (type b =? type a) &&
            (rows c =? rows a) && (type c =? type a)) eqn:E; [|discriminate].
  rewrite !andb_true_iff, !Z.eqb_eq in E. intros H.
  apply fill_fresh_Ok in H; [|left; reflexivity]. tauto.
Qed.

Lemma vconcat3_Ok a b c s d s' :
  vconcat3 a b c Mat_empty s = Ok d s' ->
  cols b = cols a /\ type b = type a /\ cols c = cols a /\ type c = type a /\
  produced s d s' (rows a + rows b + rows c) (cols a) (type a)
    (fun r x => if r <? rows a then at_ s a r x
                else if r <? rows a + rows b then at_ s b (r - rows a) x
                else at_ s c (r - rows a - rows b) x).
Proof.
  unfold vconcat3.
  destruct ((cols b =? cols a) && (type b =? type a) &&
            (cols c =? cols a) && (type c =? type a)) eqn:E; [|discriminate].
  rewrite !andb_true_iff, !Z.eqb_eq in E. intros H.
  apply fill_fresh_Ok in H; [|left; reflexivity]. tauto.
Qed.

Lemma empty_false sz : empty sz = false -> 0 < width sz /\ 0 < height sz.
Proof. unfold empty. rewrite orb_false_iff, !Z.leb_gt. tauto. Qed.

Section Resize.
Variable resample : Z -> Size -> (Z -> Z -> Pixel) -> Size -> Z -> Z -> Pixel.

Lemma resize_Ok src dst dsize s d s' :
  (0 < width dsize -> 0 < height dsize ->
   data dst = None \/ rows dst <> height dsize \/ cols dst <> width dsize) ->
  resize resample src dst dsize s = Ok d s' ->
  0 < cols src /\ 0 < rows src /\ 0 < width dsize /\ 0 < height dsize /\
  produced s d s' (height dsize) (width dsize) (type src)
    (if size_eqb dsize (size src) then at_ s src
     else resample (type src) (size src) (at_ s src) dsize).
Proof.
  intros Hfresh. unfold resize.
  destruct (empty (size src) || empty dsize) eqn:E; [discriminate|].
  apply orb_false_iff in E. destruct E as [E1 E2].
  apply empty_false in E1, E2. cbn [size width height] in E1.
  intros H. apply fill_fresh_Ok in H; [|specialize (Hfresh ltac:(tauto) ltac:(tauto)); tauto].
  tauto.
Qed.

Lemma resize_preserving src dst dsize :
  (empty dsize = false ->
   data dst = None \/ rows dst <> height dsize \/ cols dst <> width dsize) ->
  preserving (resize resample src dst dsize).
Proof.
  intros Hfresh. unfold resize.
  destruct (empty (size src) || empty dsize) eqn:E.
  - intros s. simpl. split; [lia|apply agree_refl].
  - apply orb_false_iff in E. destruct E as [_ E].
    apply fill_fresh_preserving. specialize (Hfresh E). tauto.
Qed.

End Resize.

Lemma Mat_new_Ok nr nc ty s d s' :
  Mat_new nr nc ty s = Ok d s' ->
  d = mkMat (Some (next s)) 0 0 nr nc ty /\ s' = mkStore (S (next s)) (mem s) /\
  0 <= nr /\ 0 <= nc.
Proof.
  unfold Mat_new. rewrite create_fresh by (left; reflexivity).
  destruct ((nr <? 0) || (nc <? 0)) eqn:Eneg; [discriminate|].
  apply orb_false_iff in Eneg. rewrite !Z.ltb_ge in Eneg.
  intros H; inversion H. auto.
Qed.

Lemma setTo_Ok b nr nc ty px s u s' :
  setTo (mkMat (Some b) 0 0 nr nc ty) px s = Ok u s' ->
  next s' = next s /\ agree b s s' /\
  (forall b' r c, b' <> b -> mem s' b' r c = mem s b' r c).
Proof.
  unfold setTo, write. cbn [data]. intros H; inversion H; subst; clear H.
  cbn [next mem]. split; [reflexivity|]. split.
  - intros b' r c Hb. cbn [mem]. destruct (Nat.eqb_spec b' b); [lia|reflexivity].
  - intros b' r c Hb. cbn [mem]. destruct (Nat.eqb_spec b' b); [contradiction|reflexivity].
Qed.

(** ** The stages of [optimizeImage] *)

Ltac Zify.zify_convert_to_euclidean_division_equations_flag ::= constr:(true).

Lemma cropWindow_Ok W angle s lc rc s' :
  cropWindow W angle s = Ok (lc, rc) s' ->
  s' = s /\ 0 <= lc < W /\ 0 <= rc < W /\
  scaled (leftAngle_of angle) W 360 = Some lc /\
  scaled (rightAngle_of angle) W 360 = Some rc.
Proof.
  unfold cropWindow, REQUIRES, ASSERT. intros H.
  unfold bind at 1 in H. rewrite constrainAngle_eq in H.
  inv_bind H. apply contract_Ok in E. destruct E as [_ ->].
  unfold bind at 1 in H. rewrite constrainAngle_eq in H.
  unfold bind at 1 in H. rewrite constrainAngle_eq in H.
  inv_bind H. apply d2i_Ok in E. destruct E as (-> & El & _).
  inv_bind H. apply d2i_Ok in E. destruct E as (-> & Er & _).
  inv_bind H. apply contract_Ok in E. destruct E as [A1 ->].
  inv_bind H. apply contract_Ok in E. destruct E as [A2 ->].
  inv_bind H. apply contract_Ok in E. destruct E as [A3 ->].
  inv_bind H. apply contract_Ok in E. destruct E as [A4 ->].
  apply ret_Ok in H. destruct H as [H ->]. inversion H; subst.
  apply Z.leb_le in A1, A3. apply Z.ltb_lt in A2, A4.
  repeat split; try lia; assumption.
Qed.

Lemma crop_Ok image lc rc s cropped s1 :
  0 <= lc < cols image -> 0 <= rc < cols image ->
  crop image lc rc s = Ok cropped s1 ->
  type cropped = type image /\
  (next s <= next s1)%nat /\ agree (next s) s s1 /\
  (valid (next s) image -> valid (next s1) cropped) /\
  (0 < rows cropped ->
   rows cropped = rows image /\
   cols cropped = (if lc <? rc then rc - lc else cols image - lc + rc) /\
   (rc <= lc -> 0 < rc) /\
   forall r c, 0 <= r < rows image -> 0 <= c < cols cropped ->
     at_ s1 cropped r c = at_ s image r ((lc + c) mod cols image)).
Proof.
  intros Hl Hr. unfold crop, cropBranch.
  destruct (Z.ltb_spec lc rc) as [Hlt|Hge]; intros H.
  - (* contiguous *)
    apply Mat_roi_cols_Ok in H. destruct H as (-> & -> & _).
    split; [apply type_roi|]. split; [lia|]. split; [apply agree_refl|].
    split; [apply valid_roi|].
    intros Hpos. apply roi_rows_pos in Hpos. destruct Hpos as (_ & _ & ->).
    cbn [rows cols]. repeat split; try lia.
    intros r c Hr' Hc. rewrite at_roi. rewrite Z.mod_small by lia. f_equal; lia.
  - (* across the seam *)
    inv_bind H. apply Mat_roi_cols_Ok in E. destruct E as (-> & -> & _).
    inv_bind H. apply Mat_roi_cols_Ok in E. destruct E as (-> & -> & _).
    apply hconcat_Ok in H. rewrite !type_roi in H.
    destruct H as (Hrows & _ & -> & Hr0 & Hc0 & Hn & Hag & Hat).
    cbn [type rows cols]. split; [reflexivity|]. split; [lia|]. split; [assumption|].
    split; [intros _; unfold valid; simpl; lia|].
    intros Hpos. pose proof Hpos as Hpos'. rewrite <- Hrows in Hpos'.
    apply roi_rows_pos in Hpos. destruct Hpos as (_ & _ & El).
    apply roi_rows_pos in Hpos'. destruct Hpos' as (_ & Hrc & Er).
    rewrite El, Er in *. cbn [rows cols] in *.
    repeat split; try lia.
    intros r c Hr' Hc. rewrite Hat by lia. rewrite !at_roi.
    destruct (Z.ltb_spec c (cols image - lc)).
    + rewrite Z.mod_small by lia. f_equal; lia.
    + replace ((lc + c) mod cols image) with (lc + c - cols image)
        by (apply Z.mod_unique with 1; lia).
      f_equal; lia.
Qed.

Lemma splitH_Ok cropped W s l m r s' :
  splitH cropped W s = Ok (l, m, r) s' ->
  s' = s /\ exists fw, scaled 20 W 360 = Some fw /\
  let fl := cols cropped ÷ 2 - fw ÷ 2 in
  let fr := cols cropped ÷ 2 + fw ÷ 2 in
  0 <= fl /\ fl <= fr /\ fr < cols cropped /\
  l = roi cropped 0 0 (rows cropped) (fl - 0) /\
  m = roi cropped 0 fl (rows cropped) (fr - fl) /\
  r = roi cropped 0 fr (rows cropped) (cols cropped - fr).
Proof.
  unfold splitH, ASSERT. intros H.
  inv_bind H. apply d2i_Ok in E. destruct E as (-> & Ew & _).
  inv_bind H. apply contract_Ok in E. destruct E as [A1 ->].
  inv_bind H. apply contract_Ok in E. destruct E as [A2 ->].
  inv_bind H. apply contract_Ok in E. destruct E as [A3 ->].
  inv_bind H. apply Mat_roi_cols_Ok in E. destruct E as (-> & -> & _).
  inv_bind H. apply Mat_roi_cols_Ok in E. destruct E as (-> & -> & _).
  inv_bind H. apply Mat_roi_cols_Ok in E. destruct E as (-> & -> & _).
  apply ret_Ok in H. destruct H as [H ->]. inversion H; subst.
  apply Z.leb_le in A1, A2. apply Z.ltb_lt in A3.
  split; [reflexivity|]. exists v. split; [exact Ew|]. cbv zeta. auto 10.
Qed.

Lemma focusRows_Ok H vAngle s ft fb s' :
  focusRows H vAngle s = Ok (ft, fb) s' ->
  s' = s /\ exists fh fm, scaled 20 H 180 = Some fh /\ scaled vAngle H 180 = Some fm /\
  ft = fm - fh ÷ 2 /\ fb = fm + fh ÷ 2.
Proof.
  unfold focusRows. intros Hf.
  inv_bind Hf. apply d2i_Ok in E. destruct E as (-> & Eh & _).
  inv_bind Hf. apply d2i_Ok in E. destruct E as (-> & Em & _).
  inv_bind Hf. apply int_Ok in E. destruct E as (-> & -> & _).
  inv_bind Hf. apply int_Ok in E. destruct E as (-> & -> & _).
  apply ret_Ok in Hf. destruct Hf as [Hf ->]. inversion Hf; subst.
  split; [reflexivity|]. exists v, v0. auto.
Qed.

Lemma splitV_Ok middle ft fb s t f b s' :
  splitV middle ft fb s = Ok (t, f, b) s' ->
  s' = s /\
  t = roi middle 0 0 (ft - 0) (cols middle) /\
  f = roi middle ft 0 (fb - ft) (cols middle) /\
  b = roi middle fb 0 (rows middle - fb) (cols middle) /\
  (0 <= rows middle -> 0 <= ft /\ ft <= fb /\ fb <= rows middle).
Proof.
  unfold splitV. intros H.
  inv_bind H. apply Mat_roi_rows_Ok in E. destruct E as (-> & -> & R1).
  inv_bind H. apply Mat_roi_rows_Ok in E. destruct E as (-> & -> & R2).
  inv_bind H. apply Mat_roi_rows_Ok in E. destruct E as (-> & -> & R3).
  apply ret_Ok in H. destruct H as [H ->]. inversion H; subst.
  split; [reflexivity|]. repeat split; try reflexivity; lia.
Qed.

Section Stages.
Variable resample : Z -> Size -> (Z -> Z -> Pixel) -> Size -> Z -> Z -> Pixel.

Lemma optimizeImage_Ok image angle vAngle s opt s' :
  optimizeImage resample image angle vAngle s = Ok opt s' ->
  exists lc rc cropped s1 l m r bl s2 br s3 ft fb t f b bt s4 bb,
    cropWindow (cols image) angle s = Ok (lc, rc) s /\
    crop image lc rc s = Ok cropped s1 /\
    splitH cropped (cols image) s1 = Ok (l, m, r) s1 /\
    resize resample l l (mkSize (cols l ÷ 5) (rows l ÷ 5)) s1 = Ok bl s2 /\
    resize resample r r (mkSize (cols l ÷ 5) (rows l ÷ 5)) s2 = Ok br s3 /\
    focusRows (rows image) vAngle s3 = Ok (ft, fb) s3 /\
    splitV m ft fb s3 = Ok (t, f, b) s3 /\
    resize resample t Mat_empty (mkSize (cols t ÷ 5) (rows t ÷ 5)) s3 = Ok bt s4 /\
    resize resample b Mat_empty (mkSize (cols t ÷ 5) (rows t ÷ 5)) s4 = Ok bb s' /\
    opt = mkOptimizedImage f bl br bt bb (size l) (size t) (size image) lc.
Proof.
  unfold optimizeImage. cbv zeta. intros H.
  step H as [lc rc] s0 Ewin.
  pose proof (cropWindow_Ok _ _ _ _ _ _ Ewin) as (-> & _).
  step H as cropped s1 Ecrop.
  step H as [[l m] r] s1' Esplit.
  pose proof (splitH_Ok _ _ _ _ _ _ _ Esplit) as (-> & _).
  step H as bl s2 Ebl.
  step H as br s3 Ebr.
  step H as [ft fb] s3' Erows.
  pose proof (focusRows_Ok _ _ _ _ _ _ Erows) as (-> & _).
  step H as [[t f] b] s3' Ev.
  pose proof (splitV_Ok _ _ _ _ _ _ _ _ Ev) as (-> & _).
  step H as bt s4 Ebt.
  step H as bb s5 Ebb.
  apply ret_Ok in H. destruct H as [-> ->].
  exists lc, rc, cropped, s1, l, m, r, bl, s2, br, s3, ft, fb, t, f, b, bt, s4, bb.
  repeat split; assumption.
Qed.

(** The left strip is resized, so the crop it is cut from has rows. *)
Lemma left_strip_rows cropped W s1 l m r bl s2 :
  splitH cropped W s1 = Ok (l, m, r) s1 ->
  resize resample l l (mkSize (cols l ÷ 5) (rows l ÷ 5)) s1 = Ok bl s2 ->
  0 < rows cropped.
Proof.
  intros Esplit Ebl.
  apply splitH_Ok in Esplit. destruct Esplit as (_ & fw & _ & _ & _ & _ & El & _).
  apply resize_Ok in Ebl; [|cbn [width height]; intros; right; left; lia].
  destruct Ebl as (_ & Hl2 & _).
  rewrite El in Hl2. apply roi_rows_pos in Hl2. lia.
Qed.

(** Everything a successful run of [optimizeImage] fixes about the shape
    of its result. *)
Lemma encode_shape image angle vAngle s opt s' :
  optimizeImage resample image angle vAngle s = Ok opt s' ->
  let W := cols image in
  let H := rows image in
  exists lc rc cw fw fhh fm,
    scaled (leftAngle_of angle) W 360 = Some lc /\
    scaled (rightAngle_of angle) W 360 = Some rc /\
    0 <= lc < W /\ 0 <= rc < W /\
    cw = (if lc <? rc then rc - lc else W - lc + rc) /\
    scaled 20 W 360 = Some fw /\
    scaled 20 H 180 = Some fhh /\
    scaled vAngle H 180 = Some fm /\
    origHSize opt = mkSize (cw ÷ 2 - fw ÷ 2) H /\
    origVSize opt = mkSize (2 * (fw ÷ 2)) (fm - fhh ÷ 2) /\
    fullSize opt = mkSize W H /\
    leftBuffer opt = lc /\
    (rows (focused opt) = 2 * (fhh ÷ 2) /\
     cols (focused opt) = (if 0 <? fhh ÷ 2 then 2 * (fw ÷ 2) else 0)) /\
    (rows (blurredLeft opt) = H ÷ 5 /\ cols (blurredLeft opt) = (cw ÷ 2 - fw ÷ 2) ÷ 5) /\
    (rows (blurredRight opt) = H ÷ 5 /\ cols (blurredRight opt) = (cw ÷ 2 - fw ÷ 2) ÷ 5) /\
    (rows (blurredTop opt) = (fm - fhh ÷ 2) ÷ 5 /\ cols (blurredTop opt) = (2 * (fw ÷ 2)) ÷ 5) /\
    (rows (blurredBottom opt) = (fm - fhh ÷ 2) ÷ 5 /\ cols (blurredBottom opt) = (2 * (fw ÷ 2)) ÷ 5) /\
    (type (focused opt) = type image /\ type (blurredLeft opt) = type image /\
     type (blurredRight opt) = type image /\ type (blurredTop opt) = type image /\
     type (blurredBottom opt) = type image) /\
    5 <= cw ÷ 2 - fw ÷ 2 /\ cw ÷ 2 + fw ÷ 2 < cw /\ cw <= W /\ 5 <= H /\
    5 <= 2 * (fw ÷ 2) /\ 5 <= fm - fhh ÷ 2 /\ 0 <= fhh ÷ 2 /\ fm + fhh ÷ 2 < H /\
    (rc <= lc -> 0 < rc).
Proof.
  intros Hrun W H. subst W H.
  apply optimizeImage_Ok in Hrun.
  destruct Hrun as (lc & rc & cropped & s1 & l & m & r & bl & s2 & br & s3 & ft & fb &
                    t & f & b & bt & s4 & bb &
                    Ewin & Ecrop & Esplit & Ebl & Ebr & Erows & Ev & Ebt & Ebb & ->).
  apply cropWindow_Ok in Ewin. destruct Ewin as (_ & Hlc & Hrc & Sl & Sr).
  apply crop_Ok in Ecrop; [|assumption|assumption].
  destruct Ecrop as (Tc & _ & _ & _ & Hcrop).
  apply splitH_Ok in Esplit. destruct Esplit as (_ & fw & Sw & Hfl & Hflr & Hfr & El & Em & Er).
  (* the left strip was resized, so it is not empty *)
  apply resize_Ok in Ebl; [|cbn [width height]; intros; right; left; lia].
  destruct Ebl as (Hl1 & Hl2 & Hl3 & Hl4 & (-> & _)).
  rewrite El in Hl2. apply roi_rows_pos in Hl2. destruct Hl2 as (Hrows & Hlcols & El').
  rewrite El' in El. clear El'. subst l. cbn [rows cols type width height] in *.
  destruct (Hcrop Hrows) as (Rc & Cc & Hwrap & _). clear Hcrop.
  rewrite roi_nonempty in Er by lia. subst r.
  apply resize_Ok in Ebr; [|cbn [rows cols width height]; lia].
  destruct Ebr as (Hr1 & Hr2 & _ & _ & (-> & _)).
  apply focusRows_Ok in Erows. destruct Erows as (_ & fhh & fm & Sh & Sm & -> & ->).
  apply splitV_Ok in Ev. destruct Ev as (_ & Et & Ef & Eb & Hv).
  (* so were the top and the bottom strip *)
  apply resize_Ok in Ebt; [|left; reflexivity].
  destruct Ebt as (Ht1 & Ht2 & Ht3 & Ht4 & (-> & _)).
  rewrite Et in Ht2. apply roi_rows_pos in Ht2. destruct Ht2 as (Htrows & Hmcols & Et').
  rewrite Et' in Et. clear Et'. subst t.
  rewrite Em in Hmcols. apply roi_cols_pos in Hmcols. destruct Hmcols as (_ & Hmc & Em').
  rewrite Em' in Em. clear Em'. subst m. cbn [rows cols type width height data row0 col0] in *.
  apply resize_Ok in Ebb; [|left; reflexivity].
  destruct Ebb as (Hb1 & Hb2 & _ & _ & (-> & _)).
  rewrite Eb in Hb2. apply roi_rows_pos in Hb2. destruct Hb2 as (Hbrows & _ & Eb').
  rewrite Eb' in Eb. clear Eb'. subst b. cbn [rows cols type width height data row0 col0] in *.
  specialize (Hv ltac:(lia)).
  assert (Hf : rows f = 2 * (fhh ÷ 2) /\
               cols f = (if 0 <? fhh ÷ 2 then 2 * (fw ÷ 2) else 0) /\ type f = type image).
  { subst f. rewrite type_roi. cbn [type].
    destruct (roi_cases
                (mkMat (data cropped) (row0 cropped + 0)
                   (col0 cropped + (cols cropped ÷ 2 - fw ÷ 2)) (rows cropped)
                   (cols cropped ÷ 2 + fw ÷ 2 - (cols cropped ÷ 2 - fw ÷ 2)) (type cropped))
                (fm - fhh ÷ 2) 0 (fm + fhh ÷ 2 - (fm - fhh ÷ 2))
                (cols cropped ÷ 2 + fw ÷ 2 - (cols cropped ÷ 2 - fw ÷ 2)))
      as [(Hp & _ & ->)|(Hn & ->)]; cbn [rows cols].
    - destruct (Z.ltb_spec 0 (fhh ÷ 2)); [|lia]. repeat split; try assumption; lia.
    - destruct (Z.ltb_spec 0 (fhh ÷ 2)); [lia|]. repeat split; try assumption; lia. }
  destruct Hf as (Hf1 & Hf2 & Hf3).
  exists lc, rc, (cols cropped), fw, fhh, fm.
  cbn [origHSize origVSize fullSize leftBuffer focused blurredLeft blurredRight
       blurredTop blurredBottom rows cols type size].
  rewrite Rc, Tc in *.
  repeat match goal with |- _ /\ _ => split end;
    try assumption; try reflexivity; try (f_equal; lia); try lia;
    try (unfold size; cbn [rows cols]; f_equal; lia);
    try (destruct (Z.ltb_spec lc rc); lia).
Qed.

End Stages.

(** ** Scaling an angle to a pixel coordinate *)

Lemma scaled_bounds a n d :
  0 <= a <= d -> 1 <= d < 1024 -> 1 <= n < 2147483648 ->
  exists t, scaled a n d = Some t /\ a * n - d <= d * t <= a * n /\ 0 <= t.
Proof.
  intros Ha Hd Hn. destruct (Z.eq_dec a 0) as [->|Ha0].
  - (* the angle is zero: the product is a signed zero *)
    exists 0. unfold scaled.
    destruct (of_int_spec n) as (mn & En & _); [change (2 ^ 53) with 9007199254740992; lia|].
    destruct (of_int_spec d) as (md & Ed & _ & Bd); [change (2 ^ 53) with 9007199254740992; lia|].
    destruct (of_int_spec n) as (mn' & En' & _ & Bn); [change (2 ^ 53) with 9007199254740992; lia|].
    rewrite En in En'. inversion En'; subst mn'.
    pose proof (Zdigits2_range n 0 31 ltac:(lia) ltac:(change (2 ^ 0) with 1; change (2 ^ 31) with 2147483648; lia)).
    pose proof (Zdigits2_range d 0 10 ltac:(lia) ltac:(change (2 ^ 0) with 1; change (2 ^ 10) with 1024; lia)).
    rewrite En, Ed.
    destruct (ddiv_spec mn (Zdigits2 n - 53) md (Zdigits2 d - 53)) as (mx & kx & Ex & _); try lia.
    rewrite Ex. simpl. split; [reflexivity|lia].
  - destruct (scale_spec a n d) as (t & Et & Hb & Hex);
      [lia|change (2 ^ 10) with 1024; lia|change (2 ^ 31) with 2147483648; lia|].
    exists t. split; [exact Et|].
    pose proof (Z.div_mod (a * n) d ltac:(lia)) as Hdm.
    pose proof (Z.mod_pos_bound (a * n) d ltac:(lia)) as Hmb.
    assert (Han : 1 <= a * n) by nia.
    destruct (Z.eq_dec ((a * n) mod d) 0) as [H0|H0].
    + rewrite H0 in Hdm. clear Hex Hmb H0.
      revert Hb Hdm. generalize (a * n / d). intros Q Hb Hdm.
      rewrite Hdm in *. clear Hdm.
      assert (1 <= Q).
      { destruct (Z_le_gt_dec 1 Q); [assumption|exfalso].
        assert (d * Q <= d * 0) by (apply Z.mul_le_mono_nonneg_l; lia). lia. }
      assert (d * (Q - 1) <= d * t) by (apply Z.mul_le_mono_nonneg_l; lia).
      assert (d * t <= d * Q) by (apply Z.mul_le_mono_nonneg_l; lia).
      lia.
    + rewrite (Hex H0). clear Hex Hb Et.
      revert Hdm Hmb H0. generalize (a * n / d), ((a * n) mod d). intros Q R Hdm Hmb H0.
      assert (0 <= Q).
      { destruct (Z_le_gt_dec 0 Q); [assumption|exfalso].
        assert (d * Q <= d * (-1)) by (apply Z.mul_le_mono_nonneg_l; lia). lia. }
      lia.
Qed.

Lemma elemSize_pos m : 0 < elemSize m.
Proof.
  unfold elemSize, channels, depth_size.
  assert (H : 0 <= Z.land (Z.shiftr (type m) 3) 511)
    by (apply Z.land_nonneg; right; apply Z.leb_le; reflexivity).
  assert (0 < match Z.land (type m) 7 with
              | 0 | 1 => 1 | 2 | 3 | 7 => 2 | 4 | 5 => 4 | _ => 8 end).
  { destruct (Z.land (type m) 7) as [|p|p]; [lia| |lia].
    destruct p as [[[?|?|]|[?|?|]|]|[[?|?|]|[?|?|]|]|]; lia. }
  nia.
Qed.

Lemma elemSize_type m m' : type m = type m' -> elemSize m = elemSize m'.
Proof. unfold elemSize. intros ->. reflexivity. Qed.

Section Encode.
Variable resample : Z -> Size -> (Z -> Z -> Pixel) -> Size -> Z -> Z -> Pixel.

(** C6 -- compression accounting: whenever [optimizeImage] succeeds (and
    the shrink factor exceeds 1, as the constant 5 does), the five panels
    together take strictly fewer bytes than the source frame. *)
Theorem compression_accounting image angle vAngle s opt s' :
  1 < BLUR_FACTOR ->
  optimizeImage resample image angle vAngle s = Ok opt s' ->
  OptimizedImage_size opt < imageSize image.
Proof.
  intros _ Hrun. apply encode_shape in Hrun. cbv zeta in Hrun.
  destruct Hrun as (lc & rc & cw & fw & fhh & fm & _ & _ & Hlc & Hrc & _ & _ & _ & _ &
                    _ & _ & _ & _ & (Rf & Cf) & (Rl & Cl) & (Rr & Cr) & (Rt & Ct) & (Rb & Cb) &
                    (Tf & Tl & Tr & Tt & Tb) & I1 & I2 & I3 & I4 & I5 & I6 & I7 & I8 & _).
  unfold OptimizedImage_size, imageSize, total.
  rewrite (elemSize_type _ _ Tf), (elemSize_type _ _ Tl), (elemSize_type _ _ Tr),
    (elemSize_type _ _ Tt), (elemSize_type _ _ Tb).
  assert (Ef : rows (focused opt) * cols (focused opt) = 2 * (fhh ÷ 2) * (2 * (fw ÷ 2))).
  { rewrite Rf, Cf. destruct (Z.ltb_spec 0 (fhh ÷ 2)); [reflexivity|].
    replace (fhh ÷ 2) with 0 by lia. reflexivity. }
  rewrite Ef, Rl, Cl, Rr, Cr, Rt, Ct, Rb, Cb.
  clear Ef Rf Cf Rl Cl Rr Cr Rt Ct Rb Cb.
  pose proof (elemSize_pos image) as He.
  set (W := cols image) in *. set (H := rows image) in *.
  set (fl := cw ÷ 2 - fw ÷ 2) in *. set (m := 2 * (fw ÷ 2)) in *.
  set (ft := fm - fhh ÷ 2) in *. set (fh := 2 * (fhh ÷ 2)) in *.
  assert (Hfr : fl + m < cw) by (unfold fl, m; lia).
  assert (Hfb : ft + fh < H) by (unfold ft, fh; lia).
  assert (Hfh : 0 <= fh) by (unfold fh; lia).
  assert (A1 : 0 <= H ÷ 5 /\ 5 * (H ÷ 5) <= H) by lia.
  assert (A2 : 0 <= fl ÷ 5 /\ 5 * (fl ÷ 5) <= fl) by lia.
  assert (A3 : 0 <= ft ÷ 5 /\ 5 * (ft ÷ 5) <= ft) by lia.
  assert (A4 : 0 <= m ÷ 5 /\ 5 * (m ÷ 5) <= m) by lia.
  set (a := H ÷ 5) in *. set (b := fl ÷ 5) in *.
  set (c := ft ÷ 5) in *. set (d := m ÷ 5) in *.
  clearbody a b c d fl m ft fh. clear I2 I7 I8.
  assert (B1 : 2 * (a * b) <= H * fl) by nia.
  assert (B2 : 2 * (c * d) <= ft * m) by nia.
  assert (B3 : fh * m + ft * m + H * fl < H * W) by nia.
  assert (B4 : fh * m + a * b + a * b + c * d + c * d < H * W) by nia.
  clear - B4 He. nia.
Qed.

Lemma Mat_is_empty_false m : Mat_is_empty m = false <-> 0 < rows m /\ 0 < cols m.
Proof. unfold Mat_is_empty. rewrite orb_false_iff, !Z.leb_gt. tauto. Qed.

Lemma focus_height_rows H fhh :
  5 <= H < 2 ^ 31 -> scaled 20 H 180 = Some fhh -> (2 <= fhh <-> 18 <= H).
Proof.
  intros HH Hs. change (2 ^ 31) with 2147483648 in HH.
  destruct (scaled_bounds 20 H 180) as (t & Et & Hb & _); try lia.
  rewrite Hs in Et. inversion Et; subst t. split; intros Hge; [lia|].
  destruct (Z_le_gt_dec 27 H); [lia|].
  destruct (Z.eq_dec H 18) as [->|].
  - vm_compute in Hs. inversion Hs. lia.
  - destruct (scale_spec 20 H 180) as (t & Et' & _ & Hex);
      [lia|change (2 ^ 10) with 1024; lia|change (2 ^ 31) with 2147483648; lia|].
    unfold scaled in Hs. rewrite Hs in Et'. inversion Et'; subst t.
    rewrite Hex; lia.
Qed.

(** C8, as amended -- the invariants of every record [optimizeImage]
    builds: the four blurred panels are non-empty; the focused panel is
    non-empty exactly when the frame has at least 18 rows; both recorded
    sizes have strictly positive components; and
    [0 <= leftBuffer < fullSize.width]. *)
Theorem record_invariants image angle vAngle s opt s' :
  rows image < 2 ^ 31 ->
  optimizeImage resample image angle vAngle s = Ok opt s' ->
  Mat_is_empty (blurredLeft opt) = false /\
  Mat_is_empty (blurredRight opt) = false /\
  Mat_is_empty (blurredTop opt) = false /\
  Mat_is_empty (blurredBottom opt) = false /\
  (Mat_is_empty (focused opt) = false <-> 18 <= rows image) /\
  0 < width (origHSize opt) /\ 0 < height (origHSize opt) /\
  0 < width (origVSize opt) /\ 0 < height (origVSize opt) /\
  0 <= leftBuffer opt < width (fullSize opt).
Proof.
  intros Hint Hrun. apply encode_shape in Hrun. cbv zeta in Hrun.
  destruct Hrun as (lc & rc & cw & fw & fhh & fm & _ & _ & Hlc & Hrc & _ & _ & Sh & _ &
                    -> & -> & -> & -> & (Rf & Cf) & (Rl & Cl) & (Rr & Cr) & (Rt & Ct) & (Rb & Cb) &
                    _ & I1 & I2 & I3 & I4 & I5 & I6 & I7 & I8 & _).
  pose proof (focus_height_rows (rows image) fhh ltac:(lia) Sh) as Hfocus.
  rewrite !Mat_is_empty_false. rewrite Rf, Cf, Rl, Cl, Rr, Cr, Rt, Ct, Rb, Cb.
  cbn [width height].
  set (wH := cw ÷ 2 - fw ÷ 2) in *. set (wV := 2 * (fw ÷ 2)) in *.
  set (hV := fm - fhh ÷ 2) in *.
  clear I2 I3 I8 Sh Hrc. clearbody wH wV hV.
  destruct (Z.ltb_spec 0 (fhh ÷ 2));
    repeat match goal with |- _ /\ _ => split end; lia.
Qed.

End Encode.

(** ** Writes of [optimizeImage] *)

Lemma readonly_preserving {A} (m : M A) : readonly m -> preserving m.
Proof. intros H s. rewrite H. split; [lia|apply agree_refl]. Qed.

Lemma readonly_ret {A} (a : A) : readonly (ret a).
Proof. intros s. reflexivity. Qed.

Lemma readonly_fail {A} f : readonly (@fail A f).
Proof. intros s. reflexivity. Qed.

Lemma readonly_bind {A B} (m : M A) (k : A -> M B) :
  readonly m -> (forall a, readonly (k a)) -> readonly (bind m k).
Proof.
  intros Hm Hk s. unfold bind. specialize (Hm s).
  destruct (m s) as [a s1|f s1]; simpl in Hm; subst s1; [apply Hk|reflexivity].
Qed.

Lemma readonly_contract line b : readonly (contract line b).
Proof. unfold contract. destruct b; [apply readonly_ret|apply readonly_fail]. Qed.

Lemma readonly_d2i x : readonly (d2i x).
Proof.
  unfold d2i. destruct (trunc x); [|apply readonly_fail].
  destruct (in_int z); [apply readonly_ret|apply readonly_fail].
Qed.

Lemma readonly_int z : readonly (int z).
Proof. unfold int. destruct (in_int z); [apply readonly_ret|apply readonly_fail]. Qed.

Lemma readonly_constrainAngle x : readonly (constrainAngle x).
Proof. intros s. rewrite constrainAngle_eq. reflexivity. Qed.

Lemma readonly_Mat_roi m rr cr : readonly (Mat_roi m rr cr).
Proof.
  unfold Mat_roi. destruct (check_range rr (rows m)) as [f|[r0 nr]]; [apply readonly_fail|].
  destruct (check_range cr (cols m)) as [f|[c0 nc]]; [apply readonly_fail|apply readonly_ret].
Qed.

Create HintDb readonly.
#[local] Hint Resolve readonly_ret readonly_fail readonly_contract readonly_d2i readonly_int
  readonly_constrainAngle readonly_Mat_roi : readonly.

Ltac readonly_steps :=
  repeat first
    [ apply readonly_bind; [solve [auto with readonly]|intros ?]
    | solve [auto with readonly] ].

Lemma readonly_cropWindow W angle : readonly (cropWindow W angle).
Proof. unfold cropWindow, REQUIRES, ASSERT. readonly_steps. Qed.

Lemma readonly_splitH cropped W : readonly (splitH cropped W).
Proof. unfold splitH, ASSERT. readonly_steps. Qed.

Lemma readonly_focusRows H vAngle : readonly (focusRows H vAngle).
Proof. unfold focusRows. readonly_steps. Qed.

Lemma readonly_splitV middle ft fb : readonly (splitV middle ft fb).
Proof. unfold splitV. readonly_steps. Qed.

Lemma preserving_bind {A B} (m : M A) (k : A -> M B) (P : A -> Prop) :
  preserving m ->
  (forall s a s', m s = Ok a s' -> P a) ->
  (forall a, P a -> preserving (k a)) ->
  preserving (bind m k).
Proof.
  intros Hm HP Hk s. unfold bind. destruct (Hm s) as [Hn Ha].
  destruct (m s) as [a s1|f s1] eqn:E; simpl in Hn, Ha.
  - destruct (Hk a (HP _ _ _ E) s1) as [Hn' Ha']. split; [lia|].
    eapply agree_trans; [eassumption|]. eapply agree_mono; [|eassumption]. assumption.
  - simpl. auto.
Qed.

Lemma preserving_crop image lc rc : preserving (crop image lc rc).
Proof.
  unfold crop. destruct (cropBranch lc rc).
  - apply readonly_preserving, readonly_Mat_roi.
  - apply preserving_bind with (P := fun _ => True); auto.
    + apply readonly_preserving, readonly_Mat_roi.
    + intros leftMat _. apply preserving_bind with (P := fun _ => True); auto.
      * apply readonly_preserving, readonly_Mat_roi.
      * intros rightMat _. unfold hconcat.
        destruct ((rows rightMat =? rows leftMat) && (type rightMat =? type leftMat)).
        -- apply fill_fresh_preserving. left; reflexivity.
        -- apply readonly_preserving, readonly_fail.
Qed.

Section Frame.
Variable resample : Z -> Size -> (Z -> Z -> Pixel) -> Size -> Z -> Z -> Pixel.

Lemma preserving_blur src dst :
  rows dst = rows src ->
  preserving (resize resample src dst (mkSize (cols src ÷ BLUR_FACTOR) (rows src ÷ BLUR_FACTOR))).
Proof.
  intros Hrows. apply resize_preserving. intros He. apply empty_false in He.
  cbn [width height] in *. unfold BLUR_FACTOR in *. right; left. lia.
Qed.

Lemma optimizeImage_preserving image angle vAngle :
  preserving (optimizeImage resample image angle vAngle).
Proof.
  unfold optimizeImage. cbv zeta.
  apply preserving_bind with (P := fun _ => True); auto.
  { apply readonly_preserving, readonly_cropWindow. }
  intros [lc rc] _.
  apply preserving_bind with (P := fun _ => True); auto.
  { apply preserving_crop. }
  intros cropped _.
  apply preserving_bind
    with (P := fun t => data (snd t) = None \/
                        (0 < rows (fst (fst t)) -> rows (snd t) = rows (fst (fst t)))).
  { apply readonly_preserving, readonly_splitH. }
  { intros s [[l m] r] s' E. apply splitH_Ok in E.
    destruct E as (_ & fw & _ & _ & Hfr & _ & -> & _ & ->). cbn [fst snd].
    set (fr := cols cropped ÷ 2 + fw ÷ 2) in *.
    destruct (roi_cases cropped 0 fr (rows cropped) (cols cropped - fr))
      as [(_ & _ & ->)|(_ & ->)]; [right|left; reflexivity].
    intros Hl. apply roi_rows_pos in Hl. destruct Hl as (_ & _ & ->). reflexivity. }
  intros [[l m] r] Hrows. cbn [fst snd] in Hrows.
  apply preserving_bind with (P := fun _ => True); auto.
  { apply preserving_blur. reflexivity. }
  intros bl _.
  apply preserving_bind with (P := fun _ => True); auto.
  { apply resize_preserving. intros He. apply empty_false in He.
    cbn [width height] in *. unfold BLUR_FACTOR in *.
    destruct Hrows as [Hd|Hrows]; [left; exact Hd|right; left; lia]. }
  intros br _.
  apply preserving_bind with (P := fun _ => True); auto.
  { apply readonly_preserving, readonly_focusRows. }
  intros [ft fb] _.
  apply preserving_bind with (P := fun _ => True); auto.
  { apply readonly_preserving, readonly_splitV. }
  intros [[t f] b] _.
  apply preserving_bind with (P := fun _ => True); auto.
  { apply resize_preserving. intros _. left; reflexivity. }
  intros bt _.
  apply preserving_bind with (P := fun _ => True); auto.
  { apply resize_preserving. intros _. left; reflexivity. }
  intros bb _. apply readonly_preserving, readonly_ret.
Qed.

(** C10 -- [optimizeImage] never modifies its input: whatever the
    outcome of the call, the pixels of the source frame (of a header on
    any buffer that existed before the call) are afterwards what they were
    before. *)
Theorem optimizeImage_input_unchanged image angle vAngle s :
  valid (next s) image ->
  forall r c,
    at_ (final_store (optimizeImage resample image angle vAngle s)) image r c
    = at_ s image r c.
Proof.
  intros Hv r c. destruct (optimizeImage_preserving image angle vAngle s) as [_ Ha].
  eapply at_agree; eassumption.
Qed.

End Frame.

(** ** The focused patch through encode and decode *)

Lemma produced_agree n s d s' nr nc ty f :
  (n <= next s)%nat -> produced s d s' nr nc ty f -> agree n s s' /\ (n <= next s')%nat.
Proof.
  intros Hn (_ & _ & _ & Hnext & Ha & _). split; [|lia].
  eapply agree_mono; eassumption.
Qed.

Section Fidelity.
Variable resample : Z -> Size -> (Z -> Z -> Pixel) -> Size -> Z -> Z -> Pixel.

(** The focused panel is a view of the source frame: no pixel of it is
    computed. *)
Lemma encode_focus image angle vAngle s opt s' :
  valid (next s) image ->
  optimizeImage resample image angle vAngle s = Ok opt s' ->
  valid (next s') (focused opt) /\
  forall i j, 0 <= i < rows (focused opt) -> 0 <= j < cols (focused opt) ->
    at_ s' (focused opt) i j
    = at_ s image (height (origVSize opt) + i)
        ((leftBuffer opt + width (origHSize opt) + j) mod cols image).
Proof.
  intros Hvalid Hrun. apply optimizeImage_Ok in Hrun.
  destruct Hrun as (lc & rc & cropped & s1 & l & m & r & bl & s2 & br & s3 & ft & fb &
                    t & f & b & bt & s4 & bb &
                    Ewin & Ecrop & Esplit & Ebl & Ebr & Erows & Ev & Ebt & Ebb & ->).
  apply cropWindow_Ok in Ewin. destruct Ewin as (_ & Hlc & Hrc & _ & _).
  pose proof (left_strip_rows _ _ _ _ _ _ _ _ _ Esplit Ebl) as Hpos.
  apply crop_Ok in Ecrop; [|assumption|assumption].
  destruct Ecrop as (Tc & Hn1 & _ & Hvc & Hcrop).
  destruct (Hcrop Hpos) as (Rc & Cc & _ & Hat). clear Hcrop.
  specialize (Hvc Hvalid).
  apply splitH_Ok in Esplit. destruct Esplit as (_ & fw & _ & Hfl & Hflr & Hfr & El & Em & Er).
  apply resize_Ok in Ebl; [|cbn [rows cols width height]; intros; right; left; lia].
  destruct Ebl as (_ & Hrow & _ & _ & P1).
  rewrite El in Hrow. apply roi_rows_pos in Hrow. destruct Hrow as (_ & Hlcols & El').
  rewrite El' in El. clear El'. subst l.
  rewrite roi_nonempty in Er by lia. subst r. cbn [rows cols] in *.
  apply resize_Ok in Ebr; [|cbn [rows cols width height]; intros; right; left; lia].
  destruct Ebr as (_ & _ & _ & _ & P2).
  apply focusRows_Ok in Erows. destruct Erows as (_ & fhh & fm & _ & _ & -> & ->).
  apply splitV_Ok in Ev. destruct Ev as (_ & Et & Ef & Eb & Hv).
  apply resize_Ok in Ebt; [|left; reflexivity]. destruct Ebt as (_ & Htrows & _ & _ & P3).
  rewrite Et in Htrows. apply roi_rows_pos in Htrows. destruct Htrows as (_ & Hmcols & Et').
  rewrite Et' in Et. clear Et'. subst t.
  rewrite Em in Hmcols. apply roi_cols_pos in Hmcols. destruct Hmcols as (_ & _ & Em').
  rewrite Em' in Em. clear Em'. subst m. cbn [rows cols type data row0 col0] in *.
  apply resize_Ok in Ebb; [|left; reflexivity]. destruct Ebb as (_ & _ & _ & _ & P4).
  specialize (Hv ltac:(lia)).
  destruct (produced_agree (next s1) _ _ _ _ _ _ _ (Nat.le_refl _) P1) as [A1 N1].
  destruct (produced_agree (next s1) _ _ _ _ _ _ _ N1 P2) as [A2 N2].
  destruct (produced_agree (next s1) _ _ _ _ _ _ _ N2 P3) as [A3 N3].
  destruct (produced_agree (next s1) _ _ _ _ _ _ _ N3 P4) as [A4 N4].
  assert (Hag : agree (next s1) s1 s')
    by (eapply agree_trans; [|eassumption]; eapply agree_trans; [|eassumption];
        eapply agree_trans; eassumption).
  cbn [focused origVSize origHSize leftBuffer size width height rows cols].
  assert (Hvm : valid (next s')
                  (mkMat (data cropped) (row0 cropped + 0)
                     (col0 cropped + (cols cropped ÷ 2 - fw ÷ 2)) (rows cropped)
                     (cols cropped ÷ 2 + fw ÷ 2 - (cols cropped ÷ 2 - fw ÷ 2)) (type cropped))).
  { apply (valid_mono (next s1)); [assumption|]. exact Hvc. }
  split.
  - subst f. apply valid_roi. exact Hvm.
  - intros i j Hi Hj.
    assert (Hfpos : 0 < rows f) by lia.
    rewrite Ef in Hfpos. apply roi_rows_pos in Hfpos. destruct Hfpos as (_ & _ & Ef').
    rewrite Ef' in Ef. clear Ef'. subst f. cbn [rows cols] in Hi, Hj.
    rewrite (at_agree (next s1) s1 s') by (try assumption; exact Hvc).
    transitivity (at_ s1 cropped (fm - fhh ÷ 2 - 0 + i) (cols cropped ÷ 2 - fw ÷ 2 - 0 + j)).
    + unfold at_. cbn [data row0 col0]. destruct (data cropped); [|reflexivity]. f_equal; lia.
    + rewrite Hat by lia. f_equal; try lia. f_equal; lia.
Qed.

(** The placement of the reconstructed crop in the full frame: column [x]
    of the crop is column [(leftBuffer + x) mod width] of the three panels
    laid side by side, in the wrap case and in the contained case. *)
Lemma placement_Ok opt cropped s fl fc fr s' :
  valid (next s) cropped -> 0 < cols cropped -> 0 < rows cropped ->
  placement opt cropped s = Ok (fl, fc, fr) s' ->
  let W := width (fullSize opt) in
  let lb := leftBuffer opt in
  (next s <= next s')%nat /\ agree (next s) s s' /\ rows fc = rows cropped /\
  (rows fl = rows fc -> rows fr = rows fc ->
   0 <= cols fl /\ 0 <= cols fc /\ 0 <= cols fr /\
   cols fl + cols fc + cols fr = W /\ cols cropped <= W /\
   forall r x, 0 <= x < cols cropped ->
     let y := (lb + x) mod W in
     (if y <? cols fl then at_ s' fl r y
      else if y <? cols fl + cols fc then at_ s' fc r (y - cols fl)
      else at_ s' fr r (y - cols fl - cols fc)) = at_ s cropped r x).
Proof.
  intros Hvalid Hpos Hrpos. unfold placement, ASSERT. cbv zeta.
  cbn [size width height]. intros H.
  step H as cropEnd s0 E. apply int_Ok in E. destruct E as (-> & -> & _).
  destruct (Z.geb_spec (cols cropped + leftBuffer opt) (width (fullSize opt))) as [Hwrap|Hin].
  - (* wrap *)
    step H as ree s0 E. apply int_Ok in E. destruct E as (-> & -> & _).
    step H as u s0 E. apply contract_Ok in E. destruct E as [A1 ->].
    apply andb_true_iff in A1. destruct A1 as [A1 A1']. apply Z.leb_le in A1, A1'.
    step H as fullRight s0 E. apply Mat_roi_cols_Ok in E. destruct E as (-> & Efr & _).
    step H as fullLeft s0 E. apply Mat_roi_cols_Ok in E. destruct E as (-> & Efl & _).
    step H as rest s0 E. apply int_Ok in E. destruct E as (-> & -> & _).
    step H as centerCols s0 E. apply int_Ok in E. destruct E as (-> & -> & _).
    step H as u2 s0 E. apply contract_Ok in E. destruct E as [A2 ->]. apply Z.geb_le in A2.
    step H as fullCenter s1 E. apply Mat_new_Ok in E. destruct E as (-> & -> & Hr0 & Hc0).
    step H as u3 s2 E. apply setTo_Ok in E. cbn [next] in E. destruct E as (Hn & Hag & _).
    apply ret_Ok in H. destruct H as [H ->]. inversion H; subst fl fc fr; clear H.
    cbn [cols rows]. split; [lia|].
    split; [intros b r c Hb; rewrite Hag by assumption; reflexivity|].
    split; [reflexivity|]. intros Hrl Hrr.
    rewrite <- Hrl in Hrpos. rewrite Efl in Hrpos. apply roi_rows_pos in Hrpos.
    destruct Hrpos as (Hrpos & Hlpos & Efl'). rewrite Efl' in Efl. clear Efl'.
    assert (Hrr' : 0 < rows fullRight) by lia.
    rewrite Efr in Hrr'. apply roi_rows_pos in Hrr'.
    destruct Hrr' as (_ & Hrcols & Efr'). rewrite Efr' in Efr. clear Efr'.
    subst fullLeft fullRight.
    cbn [cols rows] in *.
    repeat match goal with |- _ /\ _ => split end; try lia.
    intros r x Hx.
    set (W := width (fullSize opt)) in *. set (lb := leftBuffer opt) in *.
    assert (Hcrop : forall x', at_ s2 cropped r x' = at_ s cropped r x').
    { intros x'. apply (at_agree (next s)); [assumption|].
      intros b r' c' Hb. rewrite Hag by assumption. reflexivity. }
    destruct (Z_lt_ge_dec x (W - lb)) as [Hlt|Hge].
    + rewrite (Z.mod_small (lb + x) W) by lia.
      destruct (Z.ltb_spec (lb + x) (cols cropped - (W - lb))); [lia|].
      destruct (Z.ltb_spec (lb + x)
                  (cols cropped - (W - lb) + (W - (W - lb - 0) - (cols cropped - (W - lb)))));
        [lia|].
      rewrite at_roi, Hcrop. f_equal; lia.
    + replace ((lb + x) mod W) with (lb + x - W) by (apply Z.mod_unique with 1; lia).
      destruct (Z.ltb_spec (lb + x - W) (cols cropped - (W - lb))); [|lia].
      rewrite at_roi, Hcrop. f_equal; lia.
  - (* contained *)
    step H as fullLeft s1 E. apply Mat_new_Ok in E. destruct E as (-> & -> & Hr0 & Hc0).
    step H as rest s0 E. apply int_Ok in E. destruct E as (-> & -> & _).
    step H as rbc s0 E. apply int_Ok in E. destruct E as (-> & -> & _).
    step H as u s0 E. apply contract_Ok in E. destruct E as [A1 ->]. apply Z.geb_le in A1.
    step H as fullRight s2 E. apply Mat_new_Ok in E. cbn [next mem] in E.
    destruct E as (-> & -> & _ & Hc1).
    step H as u2 s3 E. apply setTo_Ok in E. cbn [next mem] in E. destruct E as (Hn3 & Hag3 & _).
    step H as u3 s4 E. apply setTo_Ok in E. destruct E as (Hn4 & Hag4 & _).
    apply ret_Ok in H. destruct H as [H ->]. inversion H; subst fl fc fr; clear H.
    cbn [cols rows]. rewrite Hn3 in Hn4.
    assert (Hag : agree (next s) s s4).
    { intros b r c Hb. rewrite Hag4 by lia. rewrite Hag3 by lia. reflexivity. }
    split; [lia|]. split; [assumption|]. split; [reflexivity|]. intros _ _.
    repeat match goal with |- _ /\ _ => split end; try lia; try assumption.
    intros r x Hx.
    set (W := width (fullSize opt)) in *. set (lb := leftBuffer opt) in *.
    rewrite (Z.mod_small (lb + x) W) by lia.
    destruct (Z.ltb_spec (lb + x) lb); [lia|].
    destruct (Z.ltb_spec (lb + x) (lb + cols cropped)); [|lia].
    rewrite (at_agree (next s) s s4) by assumption. f_equal; lia.
Qed.

(** In the decoded frame the focused panel sits, untouched, where
    [leftBuffer] and the recorded strip sizes put it. *)
Lemma decode_focus opt s frame s' :
  valid (next s) (focused opt) ->
  extractImage resample opt s = Ok frame s' ->
  size frame = fullSize opt /\
  forall i j, 0 <= i < rows (focused opt) -> 0 <= j < cols (focused opt) ->
    at_ s' frame (height (origVSize opt) + i)
      ((leftBuffer opt + width (origHSize opt) + j) mod width (fullSize opt))
    = at_ s (focused opt) i j.
Proof.
  intros Hvalid H. unfold extractImage in H.
  step H as left s1 E. apply resize_Ok in E; [|left; reflexivity].
  destruct E as (_ & _ & HwH & HhH & P1).
  step H as right s2 E. apply resize_Ok in E; [|left; reflexivity].
  destruct E as (_ & _ & _ & _ & P2).
  step H as top s3 E. apply resize_Ok in E; [|left; reflexivity].
  destruct E as (_ & _ & HwV & HhV & P3).
  step H as bottom s4 E. apply resize_Ok in E; [|left; reflexivity].
  destruct E as (_ & _ & _ & _ & P4).
  destruct (produced_agree (next s) _ _ _ _ _ _ _ (Nat.le_refl _) P1) as [A1 N1].
  destruct (produced_agree (next s) _ _ _ _ _ _ _ N1 P2) as [A2 N2].
  destruct (produced_agree (next s) _ _ _ _ _ _ _ N2 P3) as [A3 N3].
  destruct (produced_agree (next s) _ _ _ _ _ _ _ N3 P4) as [A4 N4].
  assert (Hfoc : forall i j, at_ s4 (focused opt) i j = at_ s (focused opt) i j).
  { intros i j. apply (at_agree (next s)); [assumption|].
    eapply agree_trans; [|eassumption]. eapply agree_trans; [|eassumption].
    eapply agree_trans; eassumption. }
  destruct P1 as (-> & _). destruct P2 as (-> & _). destruct P3 as (-> & _).
  destruct P4 as (-> & _).
  step H as middle s5 E. apply vconcat3_Ok in E. cbn [rows cols type] in E.
  destruct E as (Cf & _ & _ & _ & Pm).
  step H as cropped s6 E. apply hconcat3_Ok in E.
  destruct E as (Rm & _ & _ & _ & Pc).
  pose proof (produced_valid _ _ _ _ _ _ _ Pc) as Vc.
  destruct Pm as (-> & Hmr & Hmc & Nm & Agm & Atm).
  destruct Pc as (-> & Hcr & Hcc & Nc & Agc & Atc).
  cbn [rows cols type] in *.
  step H as [[fullLeft fullCenter] fullRight] s7 E.
  apply placement_Ok in E;
    [|assumption|cbn [cols]; clear - HwH HwV; lia|cbn [rows]; clear - HhH; lia].
  cbv zeta in E. cbn [cols rows] in E.
  destruct E as (N7 & Ag7 & Hrfc & Hplace).
  step H as fullImage s8 E. apply hconcat3_Ok in E.
  destruct E as (Hrc & _ & Hrr & _ & (-> & Hir & Hic & _ & _ & Ati)).
  assert (Hrfl : rows fullLeft = height (origHSize opt)) by lia.
  destruct Hplace as (Hfl & Hfc & Hfr & Hsum & HcW & Hplace); [lia|lia|].
  step H as u s9 E. apply contract_Ok in E. destruct E as [Hsz ->].
  apply ret_Ok in H. destruct H as [-> ->].
  unfold size_eqb in Hsz. apply andb_true_iff in Hsz. rewrite !Z.eqb_eq in Hsz.
  cbn [size width height rows cols] in Hsz. destruct Hsz as [HW HH].
  split.
  { unfold size. cbn [rows cols]. destruct (fullSize opt) as [w h]. cbn in *. congruence. }
  intros i j Hi Hj.
  set (W := width (fullSize opt)) in *. set (lb := leftBuffer opt) in *.
  set (wH := width (origHSize opt)) in *. set (hV := height (origVSize opt)) in *.
  set (x := wH + j).
  assert (Hx : 0 <= x < wH + width (origVSize opt) + wH) by (unfold x; lia).
  pose proof (Z.mod_pos_bound (lb + x) W ltac:(lia)) as Hy.
  replace (lb + wH + j) with (lb + x) by (unfold x; lia).
  assert (Hrow : 0 <= hV + i < rows fullLeft) by lia.
  rewrite Ati by lia.
  specialize (Hplace (hV + i) x Hx). cbv zeta in Hplace. rewrite Hplace.
  rewrite Atc by lia.
  unfold x.
  destruct (Z.ltb_spec (wH + j) wH); [lia|].
  destruct (Z.ltb_spec (wH + j) (wH + width (origVSize opt))); [|lia].
  rewrite Atm by lia.
  destruct (Z.ltb_spec (hV + i) hV); [lia|].
  destruct (Z.ltb_spec (hV + i) (hV + rows (focused opt))); [|lia].
  rewrite Hfoc. f_equal; lia.
Qed.

(** C2, as amended -- fidelity of the focus: for every run of
    [optimizeImage] followed by a successful [extractImage], each pixel of
    the focused panel appears in the decoded frame at row
    [origVSize.height + i] and column
    [(leftBuffer + origHSize.width + j) mod fullSize.width], and is the
    pixel of the source frame at that same position. *)
Theorem focus_fidelity image angle vAngle s opt s1 frame s2 :
  valid (next s) image ->
  optimizeImage resample image angle vAngle s = Ok opt s1 ->
  extractImage resample opt s1 = Ok frame s2 ->
  forall i j, 0 <= i < rows (focused opt) -> 0 <= j < cols (focused opt) ->
    let r := height (origVSize opt) + i in
    let c := (leftBuffer opt + width (origHSize opt) + j) mod width (fullSize opt) in
    at_ s2 frame r c = at_ s1 (focused opt) i j /\
    at_ s2 frame r c = at_ s image r c.
Proof.
  intros Hvalid Henc Hdec i j Hi Hj r c.
  destruct (encode_focus _ _ _ _ _ _ Hvalid Henc) as [Hvf Hef].
  destruct (decode_focus _ _ _ _ Hvf Hdec) as [_ Hdf].
  assert (HW : width (fullSize opt) = cols image).
  { apply encode_shape in Henc. cbv zeta in Henc.
    destruct Henc as (? & ? & ? & ? & ? & ? & _ & _ & _ & _ & _ & _ & _ & _ & _ & _ & -> & _).
    reflexivity. }
  subst r c. rewrite Hdf by assumption. split; [reflexivity|].
  rewrite Hef by assumption. rewrite HW. reflexivity.
Qed.

End Fidelity.

(** ** When does the round trip succeed? *)

Lemma bind_run {A B} (m : M A) (k : A -> M B) s a s1 :
  m s = Ok a s1 -> bind m k s = k a s1.
Proof. unfold bind. intros ->. reflexivity. Qed.

Lemma int_run z s : - 2147483648 <= z <= 2147483647 -> int z s = Ok z s.
Proof.
  intros H. unfold int, in_int, INT_MIN, INT_MAX.
  replace ((- 2 ^ 31 <=? z) && (z <=? 2 ^ 31 - 1)) with true; [reflexivity|].
  symmetry. apply andb_true_iff. rewrite !Z.leb_le. change (2 ^ 31) with 2147483648. lia.
Qed.

Lemma fill_run nr nc ty f s :
  0 <= nr -> 0 <= nc ->
  exists s', fill Mat_empty nr nc ty f s = Ok (mkMat (Some (next s)) 0 0 nr nc ty) s' /\
             next s' = S (next s).
Proof.
  intros Hr Hc. unfold fill, bind. rewrite create_fresh by (left; reflexivity).
  replace ((nr <? 0) || (nc <? 0)) with false
    by (symmetry; apply orb_false_iff; rewrite !Z.ltb_ge; lia).
  unfold write, ret. cbn [data]. eexists. split; reflexivity.
Qed.

Lemma Mat_new_run nr nc ty s :
  0 <= nr -> 0 <= nc ->
  exists s', Mat_new nr nc ty s = Ok (mkMat (Some (next s)) 0 0 nr nc ty) s' /\
             next s' = S (next s).
Proof.
  intros Hr Hc. unfold Mat_new. rewrite create_fresh by (left; reflexivity).
  replace ((nr <? 0) || (nc <? 0)) with false
    by (symmetry; apply orb_false_iff; rewrite !Z.ltb_ge; lia).
  eexists. split; reflexivity.
Qed.

Lemma setTo_run b nr nc ty px s :
  exists s', setTo (mkMat (Some b) 0 0 nr nc ty) px s = Ok tt s' /\ next s' = next s.
Proof. unfold setTo, write. cbn [data]. eexists. split; reflexivity. Qed.

Lemma Mat_roi_cols_run m a b s :
  0 < rows m -> 0 <= a -> a < b -> b <= cols m ->
  exists m', Mat_roi m all (range a b) s = Ok m' s /\
             rows m' = rows m /\ cols m' = b - a /\ type m' = type m.
Proof.
  intros H0 H1 H2 H3. unfold Mat_roi, check_range.
  destruct ((a =? 0) && (b =? cols m)) eqn:E.
  - apply andb_true_iff in E. rewrite !Z.eqb_eq in E. destruct E; subst.
    eexists. split; [reflexivity|]. rewrite roi_nonempty by lia. cbn [rows cols type]. lia.
  - replace ((0 <=? a) && (a <=? b) && (b <=? cols m)) with true
      by (symmetry; rewrite !andb_true_iff, !Z.leb_le; lia).
    eexists. split; [reflexivity|]. rewrite roi_nonempty by lia. cbn [rows cols type]. lia.
Qed.

Lemma hconcat3_run a b c s :
  rows b = rows a -> rows c = rows a -> type b = type a -> type c = type a ->
  0 <= rows a -> 0 <= cols a + cols b + cols c ->
  exists s', hconcat3 a b c Mat_empty s
             = Ok (mkMat (Some (next s)) 0 0 (rows a) (cols a + cols b + cols c) (type a)) s' /\
             next s' = S (next s).
Proof.
  intros R1 R2 T1 T2 Hr Hc. unfold hconcat3.
  rewrite R1, R2, T1, T2, !Z.eqb_refl. cbn [andb]. apply fill_run; assumption.
Qed.

Lemma vconcat3_run a b c s :
  cols b = cols a -> cols c = cols a -> type b = type a -> type c = type a ->
  0 <= rows a + rows b + rows c -> 0 <= cols a ->
  exists s', vconcat3 a b c Mat_empty s
             = Ok (mkMat (Some (next s)) 0 0 (rows a + rows b + rows c) (cols a) (type a)) s' /\
             next s' = S (next s).
Proof.
  intros C1 C2 T1 T2 Hr Hc. unfold vconcat3.
  rewrite C1, C2, T1, T2, !Z.eqb_refl. cbn [andb]. apply fill_run; assumption.
Qed.

(** The right end of the crop, [leftCol] plus its width, stays below
    4/3 of the frame's width: an [int] for frames up to 1610612735
    columns. *)
Lemma crop_end_small W angle lc rc :
  15 <= W <= 1610612735 -> 0 <= lc < W -> 0 <= rc < W ->
  scaled (leftAngle_of angle) W 360 = Some lc ->
  scaled (rightAngle_of angle) W 360 = Some rc ->
  (if lc <? rc then rc - lc else W - lc + rc) + lc <= 2147483647.
Proof.
  intros HW Hlc Hrc Sl Sr.
  pose proof (Z.mod_pos_bound angle 360 ltac:(lia)) as Ha.
  assert (Hang : (rightAngle_of angle = leftAngle_of angle + 120 /\
                  0 <= leftAngle_of angle < 240) \/
                 (0 <= rightAngle_of angle < 120 /\ 0 <= leftAngle_of angle < 360)).
  { unfold leftAngle_of, rightAngle_of. clear - Ha. lia. }
  assert (Hla : 0 <= leftAngle_of angle < 360)
    by (unfold leftAngle_of; apply Z.mod_pos_bound; lia).
  assert (Hra : 0 <= rightAngle_of angle < 360)
    by (unfold rightAngle_of; apply Z.mod_pos_bound; lia).
  destruct (scaled_bounds (leftAngle_of angle) W 360) as (tl & El & Bl & _); try lia.
  destruct (scaled_bounds (rightAngle_of angle) W 360) as (tr & Er & Br & _); try lia.
  rewrite Sl in El. rewrite Sr in Er. inversion El; inversion Er; subst tl tr.
  clear - Hang Hla Hra Bl Br HW Hlc Hrc.
  set (la := leftAngle_of angle) in *. set (ra := rightAngle_of angle) in *.
  clearbody la ra.
  destruct (Z.ltb_spec lc rc); [lia|].
  destruct Hang as [(-> & H2)|(H1 & H2)]; [exfalso; nia|nia].
Qed.

(** Past the largest [int], the addition of line 190 is undefined. *)
Lemma placement_overflow opt cropped s :
  2147483647 < cols cropped + leftBuffer opt ->
  placement opt cropped s = Err Undefined s.
Proof.
  intros H. unfold placement. cbv zeta. cbn [size width height].
  unfold bind at 1, int, in_int, INT_MAX.
  replace (cols cropped + leftBuffer opt <=? 2 ^ 31 - 1) with false
    by (symmetry; apply Z.leb_gt; change (2 ^ 31 - 1) with 2147483647; lia).
  rewrite andb_false_r. reflexivity.
Qed.

Section RoundTrip.
Variable resample : Z -> Size -> (Z -> Z -> Pixel) -> Size -> Z -> Z -> Pixel.

Lemma resize_run src dsize s :
  0 < cols src -> 0 < rows src -> 0 < width dsize -> 0 < height dsize ->
  exists s', resize resample src Mat_empty dsize s
             = Ok (mkMat (Some (next s)) 0 0 (height dsize) (width dsize) (type src)) s' /\
             next s' = S (next s).
Proof.
  intros H1 H2 H3 H4. unfold resize, empty. cbn [size width height].
  replace ((cols src <=? 0) || (rows src <=? 0) || ((width dsize <=? 0) || (height dsize <=? 0)))
    with false by (symmetry; rewrite !orb_false_iff, !Z.leb_gt; lia).
  apply fill_run; lia.
Qed.

Lemma placement_run opt cropped s :
  0 < rows cropped -> 0 <= cols cropped -> cols cropped <= width (fullSize opt) ->
  0 <= leftBuffer opt < width (fullSize opt) ->
  cols cropped + leftBuffer opt <> width (fullSize opt) ->
  cols cropped + leftBuffer opt <= 2147483647 -> width (fullSize opt) <= 2147483647 ->
  exists fl fc fr s',
    placement opt cropped s = Ok (fl, fc, fr) s' /\
    rows fl = rows cropped /\ rows fc = rows cropped /\ rows fr = rows cropped /\
    (type fl = type cropped \/ type fl = type (focused opt)) /\
    (type fc = type cropped \/ type fc = type (focused opt)) /\
    (type fr = type cropped \/ type fr = type (focused opt)) /\
    0 <= cols fl /\ 0 <= cols fc /\ 0 <= cols fr /\
    cols fl + cols fc + cols fr = width (fullSize opt).
Proof.
  intros Hr Hc HcW Hlb Hedge Hend HW. unfold placement, ASSERT. cbv zeta.
  cbn [size width height].
  set (W := width (fullSize opt)) in *. set (lb := leftBuffer opt) in *.
  rewrite (bind_run _ _ _ _ _ (int_run (cols cropped + lb) s ltac:(lia))).
  destruct (Z.geb_spec (cols cropped + lb) W) as [Hwrap|Hin].
  - rewrite (bind_run _ _ _ _ _ (int_run (W - lb) s ltac:(lia))).
    unfold contract at 1.
    replace ((0 <=? W - lb) && (W - lb <=? cols cropped)) with true
      by (symmetry; rewrite andb_true_iff, !Z.leb_le; lia).
    rewrite (bind_run _ _ _ tt s) by reflexivity.
    destruct (Mat_roi_cols_run cropped 0 (W - lb) s) as (fr & E1 & R1 & C1 & T1); try lia.
    rewrite (bind_run _ _ _ _ _ E1).
    destruct (Mat_roi_cols_run cropped (W - lb) (cols cropped) s) as (fl & E2 & R2 & C2 & T2);
      try lia.
    rewrite (bind_run _ _ _ _ _ E2).
    rewrite (bind_run _ _ _ _ _ (int_run (W - cols fr) s ltac:(lia))).
    rewrite (bind_run _ _ _ _ _ (int_run (W - cols fr - cols fl) s ltac:(lia))).
    unfold contract at 1.
    replace (W - cols fr - cols fl >=? 0) with true by (symmetry; apply Z.geb_le; lia).
    rewrite (bind_run _ _ _ tt s) by reflexivity.
    destruct (Mat_new_run (rows cropped) (W - cols fr - cols fl) (type (focused opt)) s)
      as (s1 & E3 & N3); try lia.
    rewrite (bind_run _ _ _ _ _ E3).
    destruct (setTo_run (next s) (rows cropped) (W - cols fr - cols fl) (type (focused opt))
                (black (type (focused opt))) s1) as (s2 & E4 & N4).
    rewrite (bind_run _ _ _ _ _ E4).
    eexists. eexists. eexists. eexists. split; [reflexivity|].
    cbn [rows cols type]. repeat split; auto; lia.
  - destruct (Mat_new_run (rows cropped) lb (type (focused opt)) s) as (s1 & E1 & N1); try lia.
    rewrite (bind_run _ _ _ _ _ E1).
    rewrite (bind_run _ _ _ _ _ (int_run (W - lb) s1 ltac:(lia))).
    rewrite (bind_run _ _ _ _ _ (int_run (W - lb - cols cropped) s1 ltac:(lia))).
    unfold contract at 1.
    replace (W - lb - cols cropped >=? 0) with true by (symmetry; apply Z.geb_le; lia).
    rewrite (bind_run _ _ _ tt s1) by reflexivity.
    destruct (Mat_new_run (rows cropped) (W - lb - cols cropped) (type (focused opt)) s1)
      as (s2 & E2 & N2); try lia.
    rewrite (bind_run _ _ _ _ _ E2).
    destruct (setTo_run (next s) (rows cropped) lb (type (focused opt))
                (black (type (focused opt))) s2) as (s3 & E3 & N3).
    rewrite (bind_run _ _ _ _ _ E3).
    destruct (setTo_run (next s1) (rows cropped) (W - lb - cols cropped) (type (focused opt))
                (black (type (focused opt))) s3) as (s4 & E4 & N4).
    rewrite (bind_run _ _ _ _ _ E4).
    eexists. eexists. eexists. eexists. split; [reflexivity|].
    cbn [rows cols type]. repeat split; auto; lia.
Qed.

(** A reconstructed crop that ends exactly at the right edge of the frame
    takes the wrap case with nothing left for the leading edge: the left
    panel is an empty, released header. *)
Lemma placement_edge opt cropped s fl fc fr s' :
  placement opt cropped s = Ok (fl, fc, fr) s' ->
  cols cropped + leftBuffer opt = width (fullSize opt) ->
  rows fl = 0 /\ rows fc = rows cropped.
Proof.
  unfold placement, ASSERT. cbv zeta. cbn [size width height]. intros H Hedge.
  step H as cropEnd s0 E. apply int_Ok in E. destruct E as (-> & -> & _).
  destruct (Z.geb_spec (cols cropped + leftBuffer opt) (width (fullSize opt))); [|lia].
  step H as ree s0 E. apply int_Ok in E. destruct E as (-> & -> & _).
  step H as u s0 E. apply contract_Ok in E. destruct E as [_ ->].
  step H as fullRight s0 E. apply Mat_roi_cols_Ok in E. destruct E as (-> & Efr & _).
  step H as fullLeft s0 E. apply Mat_roi_cols_Ok in E. destruct E as (-> & Efl & _).
  step H as rest s0 E. apply int_Ok in E. destruct E as (-> & -> & _).
  step H as centerCols s0 E. apply int_Ok in E. destruct E as (-> & -> & _).
  step H as u2 s0 E. apply contract_Ok in E. destruct E as [_ ->].
  step H as fullCenter s1 E. apply Mat_new_Ok in E. destruct E as (-> & -> & _ & _).
  step H as u3 s2 E.
  apply ret_Ok in H. destruct H as [H _]. inversion H; subst fl fc fr; clear H.
  rewrite Efl. rewrite roi_released by lia. split; reflexivity.
Qed.

Lemma extractImage_Ok opt s frame s' :
  extractImage resample opt s = Ok frame s' ->
  cols (focused opt) = width (origVSize opt) /\ 0 < width (origVSize opt) /\
  height (origVSize opt) + rows (focused opt) + height (origVSize opt)
  = height (origHSize opt) /\
  width (origHSize opt) + width (origVSize opt) + width (origHSize opt) + leftBuffer opt
  <> width (fullSize opt) /\
  size frame = fullSize opt.
Proof.
  intros H. unfold extractImage in H.
  step H as left s1 E. apply resize_Ok in E; [|left; reflexivity].
  destruct E as (_ & _ & _ & HhH & (-> & _)).
  step H as right s2 E. apply resize_Ok in E; [|left; reflexivity].
  destruct E as (_ & _ & _ & _ & (-> & _)).
  step H as top s3 E. apply resize_Ok in E; [|left; reflexivity].
  destruct E as (_ & _ & HwV & _ & (-> & _)).
  step H as bottom s4 E. apply resize_Ok in E; [|left; reflexivity].
  destruct E as (_ & _ & _ & _ & (-> & _)).
  step H as middle s5 E. apply vconcat3_Ok in E. destruct E as (Cf & _ & _ & _ & (-> & _)).
  step H as cropped s6 E. apply hconcat3_Ok in E. destruct E as (Rm & _ & _ & _ & (-> & _)).
  cbn [rows cols] in Rm, Cf.
  step H as [[fullLeft fullCenter] fullRight] s7 E.
  step H as fullImage s8 E'.
  step H as u s9 E''. apply contract_Ok in E''. destruct E'' as [Hsz _].
  apply ret_Ok in H. destruct H as [-> _].
  split; [exact Cf|]. split; [exact HwV|]. split; [exact Rm|]. split.
  { intros Hedge. apply placement_edge in E; [|cbn [cols]; lia]. cbn [rows] in E.
    apply hconcat3_Ok in E'. lia. }
  unfold size_eqb in Hsz. apply andb_true_iff in Hsz. rewrite !Z.eqb_eq in Hsz.
  destruct (size fullImage) as [w h], (fullSize opt) as [w' h']. cbn in Hsz.
  destruct Hsz; subst; reflexivity.
Qed.

(** A decoded frame means the addition of line 190 did not overflow. *)
Lemma extractImage_crop_end opt s frame s' :
  extractImage resample opt s = Ok frame s' ->
  width (origHSize opt) + width (origVSize opt) + width (origHSize opt) + leftBuffer opt
  <= 2147483647.
Proof.
  intros H. unfold extractImage in H.
  step H as left s1 E. apply resize_Ok in E; [|left; reflexivity].
  destruct E as (_ & _ & _ & _ & (-> & _)).
  step H as right s2 E. apply resize_Ok in E; [|left; reflexivity].
  destruct E as (_ & _ & _ & _ & (-> & _)).
  step H as top s3 E. apply resize_Ok in E; [|left; reflexivity].
  destruct E as (_ & _ & _ & _ & (-> & _)).
  step H as bottom s4 E. apply resize_Ok in E; [|left; reflexivity].
  destruct E as (_ & _ & _ & _ & (-> & _)).
  step H as middle s5 E. apply vconcat3_Ok in E. destruct E as (_ & _ & _ & _ & (-> & _)).
  step H as cropped s6 E. apply hconcat3_Ok in E. destruct E as (_ & _ & _ & _ & (-> & _)).
  step H as [[fullLeft fullCenter] fullRight] s7 E.
  unfold placement in E. cbv zeta in E. cbn [size width height cols] in E.
  step E as cropEnd s0 E0. apply int_Ok in E0. lia.
Qed.

Lemma extractImage_run opt s :
  0 < cols (blurredLeft opt) -> 0 < rows (blurredLeft opt) ->
  0 < cols (blurredRight opt) -> 0 < rows (blurredRight opt) ->
  0 < cols (blurredTop opt) -> 0 < rows (blurredTop opt) ->
  0 < cols (blurredBottom opt) -> 0 < rows (blurredBottom opt) ->
  0 < width (origHSize opt) -> 0 < height (origHSize opt) ->
  0 < width (origVSize opt) -> 0 < height (origVSize opt) ->
  cols (focused opt) = width (origVSize opt) -> 0 <= rows (focused opt) ->
  type (focused opt) = type (blurredTop opt) ->
  type (blurredBottom opt) = type (blurredTop opt) ->
  type (blurredTop opt) = type (blurredLeft opt) ->
  type (blurredRight opt) = type (blurredLeft opt) ->
  height (origVSize opt) + rows (focused opt) + height (origVSize opt)
  = height (origHSize opt) ->
  width (origHSize opt) + width (origVSize opt) + width (origHSize opt)
  <= width (fullSize opt) ->
  height (fullSize opt) = height (origHSize opt) ->
  0 <= leftBuffer opt < width (fullSize opt) ->
  width (origHSize opt) + width (origVSize opt) + width (origHSize opt) + leftBuffer opt
  <> width (fullSize opt) ->
  width (origHSize opt) + width (origVSize opt) + width (origHSize opt) + leftBuffer opt
  <= 2147483647 ->
  width (fullSize opt) <= 2147483647 ->
  exists frame s', extractImage resample opt s = Ok frame s'.
Proof.
  intros L1 L2 R1 R2 T1 T2 B1 B2 H1 H2 V1 V2 Cf Rf Tf Tb Tt Tr Hrows Hcols Hh Hlb Hedge Hend HW.
  unfold extractImage.
  destruct (resize_run (blurredLeft opt) (origHSize opt) s) as (s1 & E1 & N1); try assumption.
  rewrite (bind_run _ _ _ _ _ E1).
  destruct (resize_run (blurredRight opt) (origHSize opt) s1) as (s2 & E2 & N2); try assumption.
  rewrite (bind_run _ _ _ _ _ E2).
  destruct (resize_run (blurredTop opt) (origVSize opt) s2) as (s3 & E3 & N3); try assumption.
  rewrite (bind_run _ _ _ _ _ E3).
  destruct (resize_run (blurredBottom opt) (origVSize opt) s3) as (s4 & E4 & N4); try assumption.
  rewrite (bind_run _ _ _ _ _ E4).
  match goal with |- context [vconcat3 ?a ?b ?c Mat_empty] =>
    destruct (vconcat3_run a b c s4) as (s5 & E5 & N5); cbn [rows cols type]; try lia; try congruence
  end.
  rewrite (bind_run _ _ _ _ _ E5). cbn [rows cols type].
  match goal with |- context [hconcat3 ?a ?b ?c Mat_empty] =>
    destruct (hconcat3_run a b c s5) as (s6 & E6 & N6); cbn [rows cols type]; try lia; try congruence
  end.
  rewrite (bind_run _ _ _ _ _ E6). cbn [rows cols type].
  match goal with |- context [placement opt ?c] =>
    destruct (placement_run opt c s6) as (fl & fc & fr & s7 & E7 & Rl & Rc & Rr & Tl' & Tc' & Tr' &
                                          Cl & Cc & Cr & Csum); cbn [rows cols type]; try lia
  end.
  rewrite (bind_run _ _ _ _ _ E7). cbn [rows cols type] in *.
  destruct (hconcat3_run fl fc fr s7) as (s8 & E8 & N8); try lia; try congruence.
  rewrite (bind_run _ _ _ _ _ E8).
  unfold ENSURES, contract, size_eqb. cbn [size width height rows cols].
  replace ((cols fl + cols fc + cols fr =? width (fullSize opt)) &&
           (rows fl =? height (fullSize opt))) with true
    by (symmetry; rewrite andb_true_iff, !Z.eqb_eq; lia).
  rewrite (bind_run _ _ _ tt s8) by reflexivity.
  eexists. eexists. reflexivity.
Qed.

(** X1 -- the round trip of a record built by [optimizeImage] succeeds exactly
    when the focused panel is not empty, the strips above and below it
    have the same height, the reconstructed crop does not end exactly at
    the right edge of the frame, and its right end [leftBuffer + width]
    is an [int]; it then returns a frame of the source's size. *)
Theorem roundtrip_succeeds_iff image angle vAngle s opt s1 :
  cols image < 2 ^ 31 ->
  optimizeImage resample image angle vAngle s = Ok opt s1 ->
  ((exists frame s2, extractImage resample opt s1 = Ok frame s2) <->
   (0 < rows (focused opt) /\
    height (origVSize opt) + rows (focused opt) + height (origVSize opt) = rows image /\
    width (origHSize opt) + width (origVSize opt) + width (origHSize opt) + leftBuffer opt
    <> cols image /\
    width (origHSize opt) + width (origVSize opt) + width (origHSize opt) + leftBuffer opt
    <= INT_MAX)) /\
  (cols image <= 1610612735 ->
   width (origHSize opt) + width (origVSize opt) + width (origHSize opt) + leftBuffer opt
   <= INT_MAX) /\
  (forall frame s2, extractImage resample opt s1 = Ok frame s2 -> size frame = size image).
Proof.
  intros HW Hrun. change (2 ^ 31) with 2147483648 in HW.
  unfold INT_MAX. change (2 ^ 31 - 1) with 2147483647.
  apply encode_shape in Hrun. cbv zeta in Hrun.
  destruct Hrun as (lc & rc & cw & fw & fhh & fm & Sl & Sr & Hlc & Hrc & Hcw & _ & _ & _ &
                    EH & EV & EF & ELB & (Rf & Cf) & (Rl & Cl) & (Rr & Cr) & (Rt & Ct) & (Rb & Cb) &
                    (Tf & Tl & Tr & Tt & Tb) & I1 & I2 & I3 & I4 & I5 & I6 & I7 & I8 & I9).
  assert (Hfit : cw ÷ 2 - fw ÷ 2 + 2 * (fw ÷ 2) + (cw ÷ 2 - fw ÷ 2) <= cols image)
    by (clear - I1 I2 I3 I5; lia).
  assert (Hsmall : cols image <= 1610612735 ->
                   cw ÷ 2 - fw ÷ 2 + 2 * (fw ÷ 2) + (cw ÷ 2 - fw ÷ 2) + lc <= 2147483647).
  { intros Hlim.
    pose proof (crop_end_small (cols image) angle lc rc ltac:(clear - I1 I2 I3 I5 Hlim; lia)
                  Hlc Hrc Sl Sr) as Hend.
    rewrite <- Hcw in Hend. clear - Hend I1 I2 I3 I5. lia. }
  clear Sl Sr.
  set (wH := cw ÷ 2 - fw ÷ 2) in *. set (wV := 2 * (fw ÷ 2)) in *.
  set (hV := fm - fhh ÷ 2) in *. set (hF := fhh ÷ 2) in *.
  clear Hcw I2 I3 I8 I9 Hrc. clearbody wH wV hV hF.
  split; [split|split].
  - intros (frame & s2 & Hdec).
    pose proof (extractImage_crop_end _ _ _ _ Hdec) as Hend.
    apply extractImage_Ok in Hdec.
    destruct Hdec as (Hcols & _ & Hrows & Hedge & _).
    rewrite EH, EV, EF, ELB in *. cbn [width height] in *.
    split; [|split; [exact Hrows|split; [exact Hedge|exact Hend]]].
    rewrite Cf in Hcols. destruct (Z.ltb_spec 0 hF); lia.
  - intros (Hfpos & Hsym & Hedge & Hend).
    assert (Hfh : 0 < hF) by lia.
    apply Z.ltb_lt in Hfh as Hfb. rewrite Hfb in Cf.
    apply extractImage_run;
      rewrite ?EH, ?EV, ?EF, ?ELB, ?Rf, ?Cf, ?Rl, ?Cl, ?Rr, ?Cr, ?Rt, ?Ct, ?Rb, ?Cb in *;
      cbn [width height] in *; try lia; try congruence.
  - intros Hlim. rewrite EH, EV, ELB. cbn [width height]. exact (Hsmall Hlim).
  - intros frame s2 Hdec. apply extractImage_Ok in Hdec. destruct Hdec as (_ & _ & _ & _ & ->).
    rewrite EF. reflexivity.
Qed.

End RoundTrip.

(** ** The strips around the focus *)

(** X2 -- when the left strip is not empty (and [optimizeImage] goes on only
    then), the two horizontal strips have the same height and the right
    one is one column wider than the left one exactly when the crop has an
    odd number of columns. *)
Lemma splitH_strips cropped W s l m r s' :
  splitH cropped W s = Ok (l, m, r) s' -> 0 < rows l ->
  rows r = rows l /\ cols r = cols l + cols cropped mod 2.
Proof.
  intros H Hl. apply splitH_Ok in H.
  destruct H as (_ & fw & _ & Hfl & Hflr & Hfr & El & _ & Er).
  rewrite El in Hl. apply roi_rows_pos in Hl. destruct Hl as (Hrows & _ & El').
  rewrite El' in El. clear El'. rewrite roi_nonempty in Er by lia. subst l r.
  cbn [rows cols]. split; [reflexivity|lia].
Qed.

(** X3 -- the rows of the focus band reach the range constructor as computed: a
    negative top row, or a bottom row beyond the last one, ends the split
    in the constructor's own check. *)
Lemma splitV_unclamped middle ft fb s :
  0 <= rows middle ->
  (ft < 0 -> splitV middle ft fb s = Err (BadRange 0 ft (rows middle)) s) /\
  (0 <= ft <= rows middle -> rows middle < fb ->
   splitV middle ft fb s = Err (BadRange ft fb (rows middle)) s).
Proof.
  intros Hr. split.
  - intros Hft. unfold splitV, bind, Mat_roi, check_range.
    replace (ft =? rows middle) with false by (symmetry; apply Z.eqb_neq; lia).
    replace (0 <=? ft) with false by (symmetry; apply Z.leb_gt; lia).
    reflexivity.
  - intros Hft Hfb. unfold splitV, bind, Mat_roi.
    destruct (check_range (range 0 ft) (rows middle)) as [f|[r0 nr]] eqn:E1.
    { apply check_range_Err in E1. lia. }
    cbn [check_range fail ret]. unfold check_range.
    replace (fb =? rows middle) with false by (symmetry; apply Z.eqb_neq; lia).
    replace (fb <=? rows middle) with false by (symmetry; apply Z.leb_gt; lia).
    rewrite !andb_false_r. reflexivity.
Qed.

(** ** Concrete runs *)

Lemma value_of_Ok {A} (o : outcome A) a : value_of o = Some a -> exists s, o = Ok a s.
Proof. destruct o as [a' s|f s]; simpl; intros H; inversion H. eauto. Qed.

(** Runs the computation [m] from [s] by evaluation and names its value
    and final store. *)
Ltac run_as m s a s' E :=
  edestruct (value_of_Ok (m s)) as [s' E]; [vm_compute; reflexivity|].

Lemma compression_accounting_witness :
  exists opt s1,
    optimizeImage nearest (frame0 3600 1800) 180 90 (store0 []) = Ok opt s1 /\
    OptimizedImage_size opt < imageSize (frame0 3600 1800).
Proof.
  run_as (optimizeImage nearest (frame0 3600 1800) 180 90) (store0 []) opt s1 E1.
  eexists. exists s1. split; [exact E1|].
  exact (compression_accounting nearest (frame0 3600 1800) 180 90 (store0 []) _ s1
           ltac:(reflexivity) E1).
Defined.

Lemma record_invariants_witness :
  exists opt s1,
    optimizeImage nearest (frame0 3600 1800) 180 90 (store0 []) = Ok opt s1 /\
    Mat_is_empty (blurredLeft opt) = false /\
    (Mat_is_empty (focused opt) = false <-> 18 <= 1800) /\
    0 <= leftBuffer opt < 3600.
Proof.
  run_as (optimizeImage nearest (frame0 3600 1800) 180 90) (store0 []) opt s1 E1.
  eexists. exists s1. split; [exact E1|].
  pose proof (record_invariants nearest (frame0 3600 1800) 180 90 (store0 []) _ s1
                ltac:(reflexivity) E1) as H.
  cbn [fullSize width] in H. tauto.
Defined.

Lemma focus_fidelity_witness :
  exists opt s1 frame s2,
    optimizeImage nearest (frame0 3600 1800) 0 90 (store0 [7]) = Ok opt s1 /\
    extractImage nearest opt s1 = Ok frame s2 /\
    at_ s2 frame 800 3500 = at_ s1 (focused opt) 0 0 /\
    at_ s2 frame 800 3500 = at_ (store0 [7]) (frame0 3600 1800) 800 3500.
Proof.
  run_as (o <- optimizeImage nearest (frame0 3600 1800) 0 90 ;; extractImage nearest o)
    (store0 [7]) frame s2 E.
  apply bind_Ok in E. destruct E as (opt & s1 & E1 & E2).
  run_as (optimizeImage nearest (frame0 3600 1800) 0 90) (store0 [7]) opt' s1' E1'.
  rewrite E1' in E1. injection E1 as <- <-.
  eexists. exists s1'. eexists. exists s2. split; [exact E1'|]. split; [exact E2|].
  exact (focus_fidelity nearest (frame0 3600 1800) 0 90 (store0 [7]) _ s1' _ s2
           ltac:(unfold valid; simpl; lia) E1' E2 0 0 ltac:(simpl; lia) ltac:(simpl; lia)).
Defined.

Lemma optimizeImage_input_unchanged_witness :
  at_ (final_store (optimizeImage nearest (frame0 3600 1800) 180 90 (store0 [7])))
      (frame0 3600 1800) 10 20
  = at_ (store0 [7]) (frame0 3600 1800) 10 20.
Proof.
  apply (optimizeImage_input_unchanged nearest (frame0 3600 1800) 180 90 (store0 [7])).
  unfold valid; simpl; lia.
Defined.

Section Runs.
Variable resample : Z -> Size -> (Z -> Z -> Pixel) -> Size -> Z -> Z -> Pixel.

(** C1 -- the round trip breaks off the horizon: for a 3600x1800 frame,
    azimuth 180 and elevation 45, [optimizeImage] succeeds (top strip of
    350 rows, bottom strip of 1250 rows) but [extractImage] upsamples both
    strips to the one recorded size [origVSize], stacks a middle column of
    350 + 200 + 350 = 900 rows, and fails to concatenate it with the
    1800-row left strip: no frame is produced. *)
Theorem roundtrip_fails_off_centre :
  option_map (fun o => (origVSize o, rows (focused o), fullSize o))
    (value_of (optimizeImage resample (frame0 3600 1800) 180 45 (store0 [])))
  = Some (mkSize 200 350, 200, mkSize 3600 1800) /\
  result_of (roundtrip resample (frame0 3600 1800) 180 45 (store0 [])) = inl BadConcat.
Proof. split; vm_compute; reflexivity. Qed.

(** On the horizon (elevation 90, even height) the strips are symmetric
    and the round trip returns a frame of the source's size, in the
    contained placement (azimuth 180) and in the wrap placement
    (azimuth 0). *)
Example roundtrip_centred :
  option_map size (value_of (roundtrip resample (frame0 3600 1800) 180 90 (store0 [])))
  = Some (mkSize 3600 1800) /\
  option_map size (value_of (roundtrip resample (frame0 3600 1800) 0 90 (store0 [])))
  = Some (mkSize 3600 1800).
Proof. split; vm_compute; reflexivity. Qed.

(** Even on the horizon the round trip can break.  A 361x180 frame at
    azimuth 301 is cropped from column 241 across the seam to column 1,
    121 columns; the decoded crop is 50 + 20 + 50 = 120 columns wide and
    ends exactly at the right edge of the frame, so the wrap case leaves
    an empty panel for the leading edge and the last concatenation
    fails. *)
Example roundtrip_fails_at_edge :
  value_of (cropWindow 361 301 (store0 [])) = Some (241, 1) /\
  option_map (fun o => (origHSize o, origVSize o, size (focused o), leftBuffer o))
    (value_of (optimizeImage resample (frame0 361 180) 301 90 (store0 [])))
  = Some (mkSize 50 180, mkSize 20 80, mkSize 20 20, 241) /\
  result_of (roundtrip resample (frame0 361 180) 301 90 (store0 [])) = inl BadConcat.
Proof. repeat split; vm_compute; reflexivity. Qed.

(** At azimuth 300 the window ends at 0 degrees: [rightCol] is 0, the
    second half of the wrap-around crop is empty, and [hconcat] rejects
    it. *)
Example crop_fails_at_300 :
  value_of (cropWindow 3600 300 (store0 [])) = Some (2400, 0) /\
  result_of (optimizeImage resample (frame0 3600 1800) 300 90 (store0 [])) = inl BadConcat.
Proof. split; vm_compute; reflexivity. Qed.

(** C4 -- near either pole the rows of the vertical focus band leave
    [0, middle.rows], and [optimizeImage] hands them as they are to the
    row-range constructor: at elevation 0 the band is [-100, 100), at
    elevation 180 it is [1700, 1900), for a frame of 1800 rows; the run ends
    in the range check of [cv::Mat] itself, on exactly these bounds. *)
Theorem pole_rows_unclamped :
  exists vTop vBottom,
    (value_of (focusRows 1800 vTop (store0 [])) = Some (-100, 100) /\
     result_of (optimizeImage resample (frame0 3600 1800) 180 vTop (store0 []))
     = inl (BadRange 0 (-100) 1800)) /\
    (value_of (focusRows 1800 vBottom (store0 [])) = Some (1700, 1900) /\
     result_of (optimizeImage resample (frame0 3600 1800) 180 vBottom (store0 []))
     = inl (BadRange 1700 1900 1800)).
Proof. exists 0, 180. repeat split; vm_compute; reflexivity. Qed.

(** C7 -- one recorded size for two strips of different widths: a 3602
    columns wide frame at azimuth 180 is cropped to 1201 columns; the left
    strip is 500 columns wide and the right strip 501; [origHSize] is the
    left strip's 500x1800, and both blurred strips have the same size. *)
Theorem odd_crop_strips :
  option_map (fun t => (size (fst (fst t)), size (snd t)))
    (value_of (('(lc, rc) <- cropWindow 3602 180 ;;
                cropped <- crop (frame0 3602 1800) lc rc ;;
                splitH cropped 3602) (store0 [])))
  = Some (mkSize 500 1800, mkSize 501 1800) /\
  option_map (fun o => (origHSize o, size (blurredLeft o), size (blurredRight o)))
    (value_of (optimizeImage resample (frame0 3602 1800) 180 90 (store0 [])))
  = Some (mkSize 500 1800, mkSize 100 360, mkSize 100 360).
Proof. split; vm_compute; reflexivity. Qed.

End Runs.

(** C5 -- [constrainAngle(double)] at [-2^-60]: [fmod] returns the
    argument, the sign correction adds 360, the sum rounds to 360.0, and
    the postcondition [x < 360] of the function fails. *)
Theorem constrainAngle_double_tiny_negative :
  valid_binary prec emax tiny_negative = true /\
  fmod tiny_negative (of_int 360) = tiny_negative /\
  dadd tiny_negative (of_int 360) = of_int 360 /\
  result_of (constrainAngle_double tiny_negative (store0 [])) = inl (ContractViolation 57).
Proof. repeat split; vm_compute; reflexivity. Qed.

(** The integer overload does what the specification says. *)
Lemma constrainAngle_range_idempotent x s :
  exists y, constrainAngle x s = Ok y s /\ 0 <= y < 360 /\ constrainAngle y s = Ok y s.
Proof.
  exists (x mod 360). rewrite !constrainAngle_eq.
  pose proof (Z.mod_pos_bound x 360 ltac:(lia)).
  rewrite Z.mod_mod by lia. auto.
Qed.

(** C2, as stated, fails outside the crop window: in the frame decoded
    from a white 3600x1800 source at azimuth 180 the pixel at row 0,
    column 0 is black, and column 0 lies outside the crop window
    [1200, 2400), hence in none of the four peripheral strips. *)
Lemma padding_differs :
  value_of (cropWindow 3600 180 (store0 [255; 255; 255])) = Some (1200, 2400) /\
  value_of ((frame <- roundtrip nearest (frame0 3600 1800) 180 90 ;; pixel_at frame 0 0)
              (store0 [255; 255; 255])) = Some [0; 0; 0] /\
  at_ (store0 [255; 255; 255]) (frame0 3600 1800) 0 0 = [255; 255; 255].
Proof. repeat split; vm_compute; reflexivity. Qed.

(** C8, as stated, fails for low frames: a 360x16 frame is encoded
    without complaint; the focus band is rows [8, 8), so the focused panel
    is an empty, released header.  (Decoding that record then fails, the
    focused panel no longer having the columns of the strips around it.) *)
Lemma focused_panel_empty :
  value_of (focusRows 16 90 (store0 [])) = Some (8, 8) /\
  option_map (fun o => (size (focused o), Mat_is_empty (focused o)))
    (value_of (optimizeImage nearest (frame0 360 16) 180 90 (store0 [])))
  = Some (mkSize 0 0, true) /\
  result_of (roundtrip nearest (frame0 360 16) 180 90 (store0 [])) = inl BadConcat.
Proof. repeat split; vm_compute; reflexivity. Qed.

(** ** Angles and the crop window *)

(** X4 -- [constrainAngle(int)] never violates its postcondition: for
    every integer it returns the representative of the angle in
    [0, 360), it is idempotent, and it does not tell apart two angles a
    whole number of turns apart. *)
Theorem constrainAngle_int_normalises x s :
  exists y, constrainAngle x s = Ok y s /\ 0 <= y < 360 /\ (x - y) mod 360 = 0 /\
            constrainAngle y s = Ok y s /\
            forall k, constrainAngle (x + 360 * k) s = Ok y s.
Proof.
  exists (x mod 360). rewrite !constrainAngle_eq.
  pose proof (Z.mod_pos_bound x 360 ltac:(lia)) as Hb.
  split; [reflexivity|]. split; [exact Hb|]. split.
  - rewrite Zminus_mod_idemp_r, Z.sub_diag. reflexivity.
  - split.
    + rewrite Z.mod_mod by lia. reflexivity.
    + intros k. rewrite constrainAngle_eq. f_equal.
      rewrite (Z.mul_comm 360 k). apply Z_mod_plus_full.
Qed.

Lemma d2i_run x z s :
  trunc x = Some z -> - 2147483648 <= z <= 2147483647 -> d2i x s = Ok z s.
Proof.
  intros E H. unfold d2i. rewrite E. unfold in_int, INT_MIN, INT_MAX.
  replace ((- 2 ^ 31 <=? z) && (z <=? 2 ^ 31 - 1)) with true; [reflexivity|].
  symmetry. apply andb_true_iff. rewrite !Z.leb_le. change (2 ^ 31) with 2147483648. lia.
Qed.

Lemma angle_ranges angle :
  0 <= leftAngle_of angle < 360 /\ 0 <= rightAngle_of angle < 360.
Proof. unfold leftAngle_of, rightAngle_of. split; apply Z.mod_pos_bound; lia. Qed.

(** The crop window as a function of the two scaled angles. *)
Lemma cropWindow_run W angle s lc rc :
  scaled (leftAngle_of angle) W 360 = Some lc ->
  scaled (rightAngle_of angle) W 360 = Some rc ->
  - 2147483648 <= lc <= 2147483647 -> - 2147483648 <= rc <= 2147483647 ->
  cropWindow W angle s =
  (ASSERT 78 (0 <=? lc) ;; ASSERT 79 (lc <? W) ;;
   ASSERT 80 (0 <=? rc) ;; ASSERT 81 (rc <? W) ;; ret (lc, rc)) s.
Proof.
  intros Sl Sr Hl Hr. unfold cropWindow.
  rewrite (bind_run _ _ _ _ _ (constrainAngle_eq _ _)).
  unfold REQUIRES at 1, contract at 1. change (H_FOCUS_ANGLE <? CROP_ANGLE) with true.
  rewrite (bind_run _ _ _ tt s) by reflexivity.
  rewrite (bind_run _ _ _ _ _ (constrainAngle_eq _ _)).
  rewrite (bind_run _ _ _ _ _ (constrainAngle_eq _ _)).
  rewrite (bind_run _ _ _ lc s) by (apply d2i_run; assumption).
  rewrite (bind_run _ _ _ rc s) by (apply d2i_run; assumption).
  reflexivity.
Qed.

(** The checks of lines 66 and 78-81 on a frame with columns: the two
    columns are the scaled ends of the window. *)
Lemma cropWindow_exists W angle s :
  1 <= W < 2 ^ 31 ->
  exists leftCol rightCol,
    cropWindow W angle s = Ok (leftCol, rightCol) s /\
    0 <= leftCol < W /\ 0 <= rightCol < W /\
    scaled (leftAngle_of angle) W 360 = Some leftCol /\
    scaled (rightAngle_of angle) W 360 = Some rightCol.
Proof.
  intros HW. change (2 ^ 31) with 2147483648 in HW.
  destruct (angle_ranges angle) as [Hla Hra].
  destruct (scaled_bounds (leftAngle_of angle) W 360) as (lc & Sl & Bl & Pl); try lia.
  destruct (scaled_bounds (rightAngle_of angle) W 360) as (rc & Sr & Br & Pr); try lia.
  assert (Hlc : lc < W) by nia. assert (Hrc : rc < W) by nia.
  exists lc, rc. rewrite (cropWindow_run W angle s lc rc) by (assumption || lia).
  unfold ASSERT, contract, bind, ret.
  replace (0 <=? lc) with true by (symmetry; apply Z.leb_le; lia).
  replace (lc <? W) with true by (symmetry; apply Z.ltb_lt; lia).
  replace (0 <=? rc) with true by (symmetry; apply Z.leb_le; lia).
  replace (rc <? W) with true by (symmetry; apply Z.ltb_lt; lia).
  split; [reflexivity|]. split; [lia|]. split; [lia|]. split; assumption.
Qed.

(** X5 -- for a frame at least one column wide, the crop window always
    exists: whatever the azimuth, none of the checks of lines 66 and
    78-81 fails, both columns lie inside the frame, and nothing is
    written. *)
Theorem cropWindow_total W angle s :
  1 <= W < 2 ^ 31 ->
  exists leftCol rightCol,
    cropWindow W angle s = Ok (leftCol, rightCol) s /\
    0 <= leftCol < W /\ 0 <= rightCol < W.
Proof.
  intros HW.
  destruct (cropWindow_exists W angle s HW) as (lc & rc & E & Hlc & Hrc & _).
  exists lc, rc. auto.
Qed.

Lemma cropWindow_total_witness :
  exists leftCol rightCol,
    cropWindow 3600 (-30) (store0 []) = Ok (leftCol, rightCol) (store0 []) /\
    0 <= leftCol < 3600 /\ 0 <= rightCol < 3600.
Proof. apply (cropWindow_total 3600 (-30) (store0 [])). split; [lia|reflexivity]. Defined.

(** ** Frames [optimizeImage] rejects *)

Lemma scaled_no_width a : 0 <= a < 2 ^ 53 -> scaled a 0 360 = Some 0.
Proof.
  intros Ha. unfold scaled.
  replace (ddiv (of_int 0) (of_int 360)) with (S754_zero false) by (vm_compute; reflexivity).
  destruct (Z.eq_dec a 0) as [->|Hne]; [vm_compute; reflexivity|].
  destruct (of_int_spec a ltac:(lia)) as (m & -> & _). reflexivity.
Qed.

Section Rejected.
Variable resample : Z -> Size -> (Z -> Z -> Pixel) -> Size -> Z -> Z -> Pixel.

(** X6 -- a frame without columns is rejected by the check of line 79
    ([leftCol < width], with both sides 0), for every azimuth and
    elevation, before anything is read or written. *)
Theorem optimizeImage_no_columns image angle vAngle s :
  cols image = 0 ->
  optimizeImage resample image angle vAngle s = Err (ContractViolation 79) s.
Proof.
  intros Hc. unfold optimizeImage. cbv zeta. rewrite Hc.
  destruct (angle_ranges angle) as [Hla Hra].
  unfold bind at 1.
  rewrite (cropWindow_run 0 angle s 0 0);
    try (apply scaled_no_width; change (2 ^ 53) with 9007199254740992; lia); try lia.
  reflexivity.
Qed.

(** X7 -- frames too small to blur are rejected: [optimizeImage] returns
    a record only for frames at least 108 columns wide and 6 rows high
    (a 108x6 frame is accepted). *)
Theorem optimizeImage_minimal_frame image angle vAngle s opt s' :
  cols image < 2 ^ 31 ->
  optimizeImage resample image angle vAngle s = Ok opt s' ->
  108 <= cols image /\ 6 <= rows image.
Proof.
  intros Hint Hrun. change (2 ^ 31) with 2147483648 in Hint.
  apply encode_shape in Hrun. cbv zeta in Hrun.
  destruct Hrun as (lc & rc & cw & fw & fhh & fm & _ & _ & Hlc & _ & _ & Sw & _ & _ &
                    _ & _ & _ & _ & _ & _ & _ & _ & _ & _ & _ & _ & _ & _ & I5 & I6 & I7 & I8 & _).
  destruct (scaled_bounds 20 (cols image) 360) as (t & Et & Bt & _); try lia.
  rewrite Sw in Et. inversion Et; subst t. split; lia.
Qed.

End Rejected.

Lemma optimizeImage_minimal_frame_witness :
  exists opt s1,
    optimizeImage nearest (frame0 108 6) 180 170 (store0 []) = Ok opt s1 /\
    108 <= cols (frame0 108 6) /\ 6 <= rows (frame0 108 6).
Proof.
  run_as (optimizeImage nearest (frame0 108 6) 180 170) (store0 []) opt s1 E1.
  eexists. exists s1. split; [exact E1|].
  exact (optimizeImage_minimal_frame nearest (frame0 108 6) 180 170 (store0 []) _ s1
           ltac:(reflexivity) E1).
Defined.

Lemma optimizeImage_no_columns_witness :
  optimizeImage nearest Mat_empty 180 90 (store0 []) = Err (ContractViolation 79) (store0 []).
Proof. apply (optimizeImage_no_columns nearest Mat_empty 180 90 (store0 [])). reflexivity. Defined.

(** ** What the encoder depends on, and what it records *)

Lemma bind_cong {A B} (m m' : M A) (k : A -> M B) s :
  m s = m' s -> bind m k s = bind m' k s.
Proof. unfold bind. intros ->. reflexivity. Qed.

Lemma cropWindow_periodic W angle k s :
  cropWindow W (angle + 360 * k) s = cropWindow W angle s.
Proof.
  unfold cropWindow.
  rewrite (bind_run _ _ _ _ _ (constrainAngle_eq (angle + 360 * k) s)).
  rewrite (bind_run _ _ _ _ _ (constrainAngle_eq angle s)).
  rewrite (Z.mul_comm 360 k), Z_mod_plus_full. reflexivity.
Qed.

Section Encoder.
Variable resample : Z -> Size -> (Z -> Z -> Pixel) -> Size -> Z -> Z -> Pixel.

(** X8 -- the azimuth counts modulo 360 only: adding whole turns to it
    changes nothing in the outcome of [optimizeImage], record, failure
    and store alike. *)
Theorem optimizeImage_azimuth_periodic image angle vAngle k s :
  optimizeImage resample image (angle + 360 * k) vAngle s
  = optimizeImage resample image angle vAngle s.
Proof. unfold optimizeImage. cbv zeta. apply bind_cong, cropWindow_periodic. Qed.

(** X9 -- the downsampled panels: in every record [optimizeImage]
    builds, the left and the right panel both have the recorded
    [origHSize] divided by [BLUR_FACTOR] (each side truncated), the top
    and the bottom panel both have [origVSize] divided by it, so none has
    more than a 25th of the pixels of its recorded size; all five panels
    keep the element type of the source, [fullSize] is the source's size
    and the two side strips have its height. *)
Theorem blurred_panel_sizes image angle vAngle s opt s' :
  optimizeImage resample image angle vAngle s = Ok opt s' ->
  size (blurredLeft opt)
  = mkSize (width (origHSize opt) ÷ BLUR_FACTOR) (height (origHSize opt) ÷ BLUR_FACTOR) /\
  size (blurredRight opt) = size (blurredLeft opt) /\
  size (blurredTop opt)
  = mkSize (width (origVSize opt) ÷ BLUR_FACTOR) (height (origVSize opt) ÷ BLUR_FACTOR) /\
  size (blurredBottom opt) = size (blurredTop opt) /\
  25 * total (blurredLeft opt) <= width (origHSize opt) * height (origHSize opt) /\
  25 * total (blurredTop opt) <= width (origVSize opt) * height (origVSize opt) /\
  (type (focused opt) = type image /\ type (blurredLeft opt) = type image /\
   type (blurredRight opt) = type image /\ type (blurredTop opt) = type image /\
   type (blurredBottom opt) = type image) /\
  fullSize opt = size image /\ height (origHSize opt) = rows image.
Proof.
  intros Hrun. apply encode_shape in Hrun. cbv zeta in Hrun.
  destruct Hrun as (lc & rc & cw & fw & fhh & fm & _ & _ & _ & _ & _ & _ & _ & _ &
                    EH & EV & EF & _ & _ & (Rl & Cl) & (Rr & Cr) & (Rt & Ct) & (Rb & Cb) &
                    HT & I1 & _ & _ & I4 & I5 & I6 & _).
  unfold size, total, BLUR_FACTOR. rewrite EH, EV, EF, Rl, Cl, Rr, Cr, Rt, Ct, Rb, Cb.
  cbn [width height].
  set (wH := cw ÷ 2 - fw ÷ 2) in *. set (wV := 2 * (fw ÷ 2)) in *.
  set (hV := fm - fhh ÷ 2) in *. set (H := rows image) in *.
  clearbody wH wV hV H.
  destruct HT as (T1 & T2 & T3 & T4 & T5).
  repeat match goal with |- _ /\ _ => split end; try reflexivity; try assumption.
  - assert (A : 0 <= H ÷ 5 /\ 5 * (H ÷ 5) <= H) by lia.
    assert (B : 0 <= wH ÷ 5 /\ 5 * (wH ÷ 5) <= wH) by lia.
    set (a := H ÷ 5) in *. set (b := wH ÷ 5) in *. clearbody a b. nia.
  - assert (A : 0 <= hV ÷ 5 /\ 5 * (hV ÷ 5) <= hV) by lia.
    assert (B : 0 <= wV ÷ 5 /\ 5 * (wV ÷ 5) <= wV) by lia.
    set (a := hV ÷ 5) in *. set (b := wV ÷ 5) in *. clearbody a b. nia.
Qed.

(** X10 -- the focused panel: its height and, when it is not empty, its
    width are even numbers of pixels, at most the 20 degrees of
    [V_FOCUS_ANGLE] and [H_FOCUS_ANGLE] and at most two pixels short of
    them. *)
Theorem focused_panel_dimensions image angle vAngle s opt s' :
  cols image < 2 ^ 31 -> rows image < 2 ^ 31 ->
  optimizeImage resample image angle vAngle s = Ok opt s' ->
  (rows (focused opt) mod 2 = 0 /\
   V_FOCUS_ANGLE * rows image - 2 * 180 <= 180 * rows (focused opt)
     <= V_FOCUS_ANGLE * rows image) /\
  (0 < rows (focused opt) ->
   cols (focused opt) mod 2 = 0 /\
   H_FOCUS_ANGLE * cols image - 2 * 360 <= 360 * cols (focused opt)
     <= H_FOCUS_ANGLE * cols image).
Proof.
  intros HW HH Hrun. change (2 ^ 31) with 2147483648 in HW, HH.
  unfold V_FOCUS_ANGLE, H_FOCUS_ANGLE.
  apply encode_shape in Hrun. cbv zeta in Hrun.
  destruct Hrun as (lc & rc & cw & fw & fhh & fm & _ & _ & Hlc & _ & _ & Sw & Sh & _ &
                    _ & _ & _ & _ & (Rf & Cf) & _ & _ & _ & _ & _ & _ & _ & _ & I4 & I5 & _ & I7 & _).
  destruct (scaled_bounds 20 (cols image) 360) as (t & Et & Bt & _); try lia.
  rewrite Sw in Et. inversion Et; subst t. clear Et.
  destruct (scaled_bounds 20 (rows image) 180) as (t & Et & Bh & _); try lia.
  rewrite Sh in Et. inversion Et; subst t. clear Et.
  rewrite Rf, Cf. split.
  - split; [|lia]. rewrite Z.mul_comm. apply Z_mod_mult.
  - intros Hpos. destruct (Z.ltb_spec 0 (fhh ÷ 2)); [|lia].
    split; [|lia]. rewrite Z.mul_comm. apply Z_mod_mult.
Qed.

(** X11 -- where the record is anchored: [leftBuffer] is the column of
    the azimuth 60 degrees left of the viewing direction, and the middle
    row of the focus band, [origVSize.height] plus half the focused
    panel's height, is the row of the elevation; each is at most one
    pixel below the exact quotient. *)
Theorem record_anchors image angle vAngle s opt s' :
  cols image < 2 ^ 31 -> rows image < 2 ^ 31 -> 0 <= vAngle <= 180 ->
  optimizeImage resample image angle vAngle s = Ok opt s' ->
  (leftAngle_of angle * cols image - 360 <= 360 * leftBuffer opt
     <= leftAngle_of angle * cols image) /\
  exists focusMiddleRow,
    2 * height (origVSize opt) + rows (focused opt) = 2 * focusMiddleRow /\
    vAngle * rows image - 180 <= 180 * focusMiddleRow <= vAngle * rows image.
Proof.
  intros HW HH Hv Hrun. change (2 ^ 31) with 2147483648 in HW, HH.
  apply encode_shape in Hrun. cbv zeta in Hrun.
  destruct Hrun as (lc & rc & cw & fw & fhh & fm & Sl & _ & Hlc & _ & _ & _ & _ & Sm &
                    _ & EV & _ & ELB & (Rf & _) & _ & _ & _ & _ & _ & _ & _ & _ & I4 & _).
  destruct (angle_ranges angle) as [Hla _].
  destruct (scaled_bounds (leftAngle_of angle) (cols image) 360) as (t & Et & Bl & _); try lia.
  rewrite Sl in Et. inversion Et; subst t. clear Et.
  destruct (scaled_bounds vAngle (rows image) 180) as (t & Et & Bm & _); try lia.
  rewrite Sm in Et. inversion Et; subst t. clear Et.
  rewrite ELB, EV, Rf. cbn [height]. split; [lia|]. exists fm. split; lia.
Qed.

(** X12 -- which buffers the panels live in.  The four blurred panels
    are in buffers [optimizeImage] allocates.  The focused panel is not
    copied: when the crop is a single range it is a header on the
    source's own buffer, at the source's origin plus
    ([origVSize.height], [leftBuffer + origHSize.width]); when the crop
    wraps around it is a header on the buffer of the concatenated crop. *)
Theorem panel_buffers image angle vAngle s opt s' :
  optimizeImage resample image angle vAngle s = Ok opt s' ->
  (forall p, In p [blurredLeft opt; blurredRight opt; blurredTop opt; blurredBottom opt] ->
     exists b, data p = Some b /\ (next s <= b < next s')%nat) /\
  exists leftCol rightCol,
    cropWindow (cols image) angle s = Ok (leftCol, rightCol) s /\
    (0 < rows (focused opt) ->
     match cropBranch leftCol rightCol with
     | Contiguous =>
         data (focused opt) = data image /\
         row0 (focused opt) = row0 image + height (origVSize opt) /\
         col0 (focused opt) = col0 image + leftBuffer opt + width (origHSize opt)
     | Wraparound => data (focused opt) = Some (next s)
     end).
Proof.
  intros Hrun. apply optimizeImage_Ok in Hrun.
  destruct Hrun as (lc & rc & cropped & s1 & l & m & r & bl & s2 & br & s3 & ft & fb &
                    t & f & b & bt & s4 & bb &
                    Ewin & Ecrop & Esplit & Ebl & Ebr & Erows & Ev & Ebt & Ebb & ->).
  pose proof (cropWindow_Ok _ _ _ _ _ _ Ewin) as (_ & Hlc & Hrc & _ & _).
  pose proof (left_strip_rows _ _ _ _ _ _ _ _ _ Esplit Ebl) as Hpos.
  pose proof (crop_Ok _ _ _ _ _ _ Hlc Hrc Ecrop) as (_ & Hn1 & _ & _ & _).
  apply splitH_Ok in Esplit. destruct Esplit as (_ & fw & _ & Hfl & Hflr & Hfr & El & Em & Er).
  apply resize_Ok in Ebl; [|cbn [rows cols width height]; intros; right; left; lia].
  destruct Ebl as (_ & Hrow & _ & _ & P1).
  rewrite El in Hrow. apply roi_rows_pos in Hrow. destruct Hrow as (_ & Hlcols & El').
  rewrite El' in El. clear El'. subst l.
  rewrite roi_nonempty in Er by lia. subst r. cbn [rows cols] in *.
  apply resize_Ok in Ebr; [|cbn [rows cols width height]; intros; right; left; lia].
  destruct Ebr as (_ & _ & _ & _ & P2).
  apply splitV_Ok in Ev. destruct Ev as (_ & Et & Ef & Eb & Hv).
  apply resize_Ok in Ebt; [|left; reflexivity]. destruct Ebt as (_ & Htrows & _ & _ & P3).
  rewrite Et in Htrows. apply roi_rows_pos in Htrows. destruct Htrows as (_ & Hmcols & Et').
  rewrite Et' in Et. clear Et'. subst t.
  rewrite Em in Hmcols. apply roi_cols_pos in Hmcols. destruct Hmcols as (_ & _ & Em').
  rewrite Em' in Em. clear Em'. subst m. cbn [rows cols type data row0 col0] in *.
  apply resize_Ok in Ebb; [|left; reflexivity]. destruct Ebb as (_ & _ & _ & _ & P4).
  destruct P1 as (-> & _ & _ & N1 & _). destruct P2 as (-> & _ & _ & N2 & _).
  destruct P3 as (-> & _ & _ & N3 & _). destruct P4 as (-> & _ & _ & N4 & _).
  cbn [focused blurredLeft blurredRight blurredTop blurredBottom origVSize origHSize
       leftBuffer size width height rows cols].
  split.
  - intros p [<-|[<-|[<-|[<-|[]]]]]; cbn [data]; eexists; (split; [reflexivity|lia]).
  - exists lc, rc. split; [exact Ewin|]. intros Hf.
    rewrite Ef in Hf. apply roi_rows_pos in Hf. destruct Hf as (_ & _ & Ef').
    rewrite Ef' in Ef. clear Ef'. subst f. cbn [data row0 col0].
    unfold crop in Ecrop. destruct (cropBranch lc rc).
    + apply Mat_roi_cols_Ok in Ecrop. destruct Ecrop as (_ & Ec & _).
      rewrite Ec in Hpos. apply roi_rows_pos in Hpos. destruct Hpos as (_ & _ & Ec').
      rewrite Ec' in Ec. clear Ec'. subst cropped. cbn [data row0 col0 cols].
      split; [reflexivity|]. split; lia.
    + step Ecrop as leftMat s0 E. apply Mat_roi_cols_Ok in E. destruct E as (-> & _ & _).
      step Ecrop as rightMat s0 E. apply Mat_roi_cols_Ok in E. destruct E as (-> & _ & _).
      apply hconcat_Ok in Ecrop. destruct Ecrop as (_ & _ & (-> & _)). reflexivity.
Qed.

End Encoder.

(** ** The crop across the seam *)

(** X13 -- the crop reads the panorama around the seam without a break:
    whichever branch builds it, the crop has the rows and the element
    type of the source, [rightCol - leftCol] columns counted modulo the
    width (all of them when the two are equal), and its pixel [(r, c)] is
    the source's pixel at row [r] and column [(leftCol + c) mod width]. *)
Theorem crop_seam_continuity image leftCol rightCol s cropped s1 :
  0 <= leftCol < cols image -> 0 <= rightCol < cols image ->
  crop image leftCol rightCol s = Ok cropped s1 -> 0 < rows cropped ->
  rows cropped = rows image /\ type cropped = type image /\
  cols cropped = (if leftCol <? rightCol then rightCol - leftCol
                  else cols image - leftCol + rightCol) /\
  forall r c, 0 <= r < rows image -> 0 <= c < cols cropped ->
    at_ s1 cropped r c = at_ s image r ((leftCol + c) mod cols image).
Proof.
  intros Hl Hr Hcrop Hpos.
  destruct (crop_Ok _ _ _ _ _ _ Hl Hr Hcrop) as (Ht & _ & _ & _ & H).
  destruct (H Hpos) as (H1 & H2 & _ & H3). auto.
Qed.

Lemma crop_seam_continuity_witness :
  exists cropped s1,
    crop (frame0 3600 1800) 3000 600 (store0 [7]) = Ok cropped s1 /\
    cols cropped = 1200 /\
    at_ s1 cropped 5 700 = at_ (store0 [7]) (frame0 3600 1800) 5 100.
Proof.
  run_as (crop (frame0 3600 1800) 3000 600) (store0 [7]) cropped s1 E1.
  eexists. exists s1. split; [exact E1|].
  destruct (crop_seam_continuity (frame0 3600 1800) 3000 600 (store0 [7]) _ s1
              ltac:(cbn; lia) ltac:(cbn; lia) E1 ltac:(reflexivity)) as (_ & _ & Hc & Hat).
  split; [exact Hc|]. exact (Hat 5 700 ltac:(cbn; lia) ltac:(cbn; lia)).
Defined.

Lemma record_anchors_witness :
  exists opt s1,
    optimizeImage nearest (frame0 3600 1800) 0 45 (store0 []) = Ok opt s1 /\
    300 * 3600 - 360 <= 360 * leftBuffer opt <= 300 * 3600.
Proof.
  run_as (optimizeImage nearest (frame0 3600 1800) 0 45) (store0 []) opt s1 E1.
  eexists. exists s1. split; [exact E1|].
  exact (proj1 (record_anchors nearest (frame0 3600 1800) 0 45 (store0 []) _ s1
                  ltac:(reflexivity) ltac:(reflexivity) ltac:(lia) E1)).
Defined.

Lemma panel_buffers_witness :
  exists opt s1,
    optimizeImage nearest (frame0 3600 1800) 180 90 (store0 []) = Ok opt s1 /\
    exists b, data (blurredTop opt) = Some b /\ (1 <= b < next s1)%nat.
Proof.
  run_as (optimizeImage nearest (frame0 3600 1800) 180 90) (store0 []) opt s1 E1.
  eexists. exists s1. split; [exact E1|].
  exact (proj1 (panel_buffers nearest (frame0 3600 1800) 180 90 (store0 []) _ s1 E1)
           _ ltac:(right; right; left; reflexivity)).
Defined.

Lemma blurred_panel_sizes_witness :
  exists opt s1,
    optimizeImage nearest (frame0 3600 1800) 180 45 (store0 []) = Ok opt s1 /\
    size (blurredRight opt) = size (blurredLeft opt) /\
    size (blurredBottom opt) = size (blurredTop opt) /\
    fullSize opt = mkSize 3600 1800.
Proof.
  run_as (optimizeImage nearest (frame0 3600 1800) 180 45) (store0 []) opt s1 E1.
  eexists. exists s1. split; [exact E1|].
  pose proof (blurred_panel_sizes nearest (frame0 3600 1800) 180 45 (store0 []) _ s1 E1) as H.
  cbn [size frame0 rows cols] in H. tauto.
Defined.

Lemma focused_panel_dimensions_witness :
  exists opt s1,
    optimizeImage nearest (frame0 3600 1800) 180 45 (store0 []) = Ok opt s1 /\
    rows (focused opt) mod 2 = 0 /\
    20 * 1800 - 2 * 180 <= 180 * rows (focused opt) <= 20 * 1800.
Proof.
  run_as (optimizeImage nearest (frame0 3600 1800) 180 45) (store0 []) opt s1 E1.
  eexists. exists s1. split; [exact E1|].
  exact (proj1 (focused_panel_dimensions nearest (frame0 3600 1800) 180 45 (store0 []) _ s1
                  ltac:(reflexivity) ltac:(reflexivity) E1)).
Defined.

(** ** Writes of [extractImage] *)

Lemma preserving_keeps {A} n (m : M A) : preserving m -> keeps n m.
Proof.
  intros H s Hn. destruct (H s) as [H1 H2]. split; [lia|].
  eapply agree_mono; eassumption.
Qed.

Lemma keeps_bind {A B} n (m : M A) (k : A -> M B) (P : A -> Prop) :
  keeps n m ->
  (forall s a s', (n <= next s)%nat -> m s = Ok a s' -> P a) ->
  (forall a, P a -> keeps n (k a)) ->
  keeps n (bind m k).
Proof.
  intros Hm HP Hk s Hn. unfold bind. destruct (Hm s Hn) as [H1 H2].
  destruct (m s) as [a s0|f s0] eqn:E; cbn [final_store] in *.
  - destruct (Hk a (HP s a s0 Hn E) s0 H1) as [H3 H4].
    split; [exact H3|]. eapply agree_trans; eassumption.
  - split; assumption.
Qed.

Lemma keeps_readonly {A} n (m : M A) : readonly m -> keeps n m.
Proof. intros H. apply preserving_keeps, readonly_preserving, H. Qed.

Lemma Mat_new_preserving nr nc ty : preserving (Mat_new nr nc ty).
Proof.
  intros s. unfold Mat_new. rewrite create_fresh by (left; reflexivity).
  destruct ((nr <? 0) || (nc <? 0)); cbn [final_store next mem].
  - split; [lia|apply agree_refl].
  - split; [lia|]. intros b r c _. reflexivity.
Qed.

(** Painting a matrix writes to its own buffer only. *)
Lemma keeps_setTo n d px :
  (forall b, data d = Some b -> (n <= b)%nat) -> keeps n (setTo d px).
Proof.
  intros Hd s Hn. unfold setTo, write. destruct (data d) as [b|] eqn:E; cbn [final_store next mem].
  - split; [exact Hn|]. intros b' r c Hb. cbn [mem].
    specialize (Hd b eq_refl). destruct (Nat.eqb_spec b' b); [lia|reflexivity].
  - split; [exact Hn|apply agree_refl].
Qed.

Lemma hconcat3_preserving a b c : preserving (hconcat3 a b c Mat_empty).
Proof.
  unfold hconcat3.
  destruct ((rows b =? rows a) && (type b =? type a) && (rows c =? rows a) && (type c =? type a)).
  - apply fill_fresh_preserving. left; reflexivity.
  - apply readonly_preserving, readonly_fail.
Qed.

Lemma vconcat3_preserving a b c : preserving (vconcat3 a b c Mat_empty).
Proof.
  unfold vconcat3.
  destruct ((cols b =? cols a) && (type b =? type a) && (cols c =? cols a) && (type c =? type a)).
  - apply fill_fresh_preserving. left; reflexivity.
  - apply readonly_preserving, readonly_fail.
Qed.

Lemma Mat_new_fresh n nr nc ty s d s' :
  (n <= next s)%nat -> Mat_new nr nc ty s = Ok d s' ->
  forall b, data d = Some b -> (n <= b)%nat.
Proof.
  intros Hn H. apply Mat_new_Ok in H. destruct H as (-> & _).
  cbn [data]. intros b Hb. inversion Hb. lia.
Qed.

Lemma keeps_placement n opt cropped : keeps n (placement opt cropped).
Proof.
  unfold placement, ASSERT. cbv zeta.
  apply keeps_bind with (P := fun _ => True); auto.
  { apply keeps_readonly, readonly_int. }
  intros cropEnd _.
  destruct (cropEnd >=? width (fullSize opt)).
  - apply keeps_bind with (P := fun _ => True); auto.
    { apply keeps_readonly, readonly_int. }
    intros ree _.
    apply keeps_bind with (P := fun _ => True); auto.
    { apply keeps_readonly, readonly_contract. }
    intros _ _.
    apply keeps_bind with (P := fun _ => True); auto.
    { apply keeps_readonly, readonly_Mat_roi. }
    intros fullRight _.
    apply keeps_bind with (P := fun _ => True); auto.
    { apply keeps_readonly, readonly_Mat_roi. }
    intros fullLeft _.
    apply keeps_bind with (P := fun _ => True); auto.
    { apply keeps_readonly, readonly_int. }
    intros ? _.
    apply keeps_bind with (P := fun _ => True); auto.
    { apply keeps_readonly, readonly_int. }
    intros ? _.
    apply keeps_bind with (P := fun _ => True); auto.
    { apply keeps_readonly, readonly_contract. }
    intros _ _.
    apply keeps_bind with (P := fun d => forall b, data d = Some b -> (n <= b)%nat).
    { apply preserving_keeps, Mat_new_preserving. }
    { intros s d s' Hn E. eapply Mat_new_fresh; eassumption. }
    intros fullCenter Hc.
    apply keeps_bind with (P := fun _ => True); auto.
    { apply keeps_setTo, Hc. }
    intros _ _. apply keeps_readonly, readonly_ret.
  - apply keeps_bind with (P := fun d => forall b, data d = Some b -> (n <= b)%nat).
    { apply preserving_keeps, Mat_new_preserving. }
    { intros s d s' Hn E. eapply Mat_new_fresh; eassumption. }
    intros fullLeft Hl.
    apply keeps_bind with (P := fun _ => True); auto.
    { apply keeps_readonly, readonly_int. }
    intros ? _.
    apply keeps_bind with (P := fun _ => True); auto.
    { apply keeps_readonly, readonly_int. }
    intros ? _.
    apply keeps_bind with (P := fun _ => True); auto.
    { apply keeps_readonly, readonly_contract. }
    intros _ _.
    apply keeps_bind with (P := fun d => forall b, data d = Some b -> (n <= b)%nat).
    { apply preserving_keeps, Mat_new_preserving. }
    { intros s d s' Hn E. eapply Mat_new_fresh; eassumption. }
    intros fullRight Hr.
    apply keeps_bind with (P := fun _ => True); auto.
    { apply keeps_setTo, Hl. }
    intros _ _.
    apply keeps_bind with (P := fun _ => True); auto.
    { apply keeps_setTo, Hr. }
    intros _ _. apply keeps_readonly, readonly_ret.
Qed.

Section Decoder.
Variable resample : Z -> Size -> (Z -> Z -> Pixel) -> Size -> Z -> Z -> Pixel.

Lemma keeps_extractImage n opt : keeps n (extractImage resample opt).
Proof.
  unfold extractImage, ENSURES.
  do 4 (apply keeps_bind with (P := fun _ => True); auto;
        [apply preserving_keeps, resize_preserving; intros _; left; reflexivity|];
        intros ? _).
  apply keeps_bind with (P := fun _ => True); auto.
  { apply preserving_keeps, vconcat3_preserving. }
  intros middle _.
  apply keeps_bind with (P := fun _ => True); auto.
  { apply preserving_keeps, hconcat3_preserving. }
  intros croppedImage _.
  apply keeps_bind with (P := fun _ => True); auto.
  { apply keeps_placement. }
  intros [[fullLeft fullCenter] fullRight] _.
  apply keeps_bind with (P := fun _ => True); auto.
  { apply preserving_keeps, hconcat3_preserving. }
  intros fullImage _.
  apply keeps_bind with (P := fun _ => True); auto.
  { apply keeps_readonly, readonly_contract. }
  intros _ _. apply keeps_readonly, readonly_ret.
Qed.

(** X14 -- [extractImage] never modifies what it is given: whatever the
    record and whatever the outcome, every buffer that existed before the
    call (the record's panels among them) holds afterwards the pixels it
    held before; the black panels it paints are its own. *)
Theorem extractImage_buffers_unchanged opt s m r c :
  valid (next s) m ->
  at_ (final_store (extractImage resample opt s)) m r c = at_ s m r c.
Proof.
  intros Hv. destruct (keeps_extractImage (next s) opt s (Nat.le_refl _)) as [_ Ha].
  eapply at_agree; eassumption.
Qed.

End Decoder.

Lemma extractImage_buffers_unchanged_witness :
  at_ (final_store
         (extractImage nearest
            (mkOptimizedImage (frame0 20 20) (frame0 10 12) (frame0 10 12)
               (frame0 4 4) (frame0 4 4) (mkSize 50 60) (mkSize 20 20) (mkSize 360 60) 120)
            (store0 [7])))
      (frame0 20 20) 3 4
  = at_ (store0 [7]) (frame0 20 20) 3 4.
Proof.
  apply (extractImage_buffers_unchanged nearest
           (mkOptimizedImage (frame0 20 20) (frame0 10 12) (frame0 10 12)
              (frame0 4 4) (frame0 4 4) (mkSize 50 60) (mkSize 20 20) (mkSize 360 60) 120)
           (store0 [7]) (frame0 20 20) 3 4).
  unfold valid; simpl; lia.
Defined.

(** ** How [extractImage] can fail *)

Lemma bind_Err {A B} (m : M A) (k : A -> M B) s f s' :
  bind m k s = Err f s' ->
  m s = Err f s' \/ exists a s1, m s = Ok a s1 /\ k a s1 = Err f s'.
Proof.
  unfold bind. destruct (m s) as [a s1|e s1]; intros H; [right; eauto|].
  left. inversion H. reflexivity.
Qed.

Lemma contract_Err line b s f s' : contract line b s = Err f s' -> b = false.
Proof. unfold contract. destruct b; [discriminate|reflexivity]. Qed.

Lemma fill_Err nr nc ty g s f s' :
  fill Mat_empty nr nc ty g s = Err f s' -> nr < 0 \/ nc < 0.
Proof.
  intros H. destruct (Z_lt_le_dec nr 0); [auto|]. destruct (Z_lt_le_dec nc 0); [auto|].
  destruct (fill_run nr nc ty g s) as (s1 & E & _); try assumption.
  rewrite E in H. discriminate.
Qed.

Lemma hconcat3_Err a b c s f s' :
  hconcat3 a b c Mat_empty s = Err f s' ->
  f = BadConcat \/ rows a < 0 \/ cols a + cols b + cols c < 0.
Proof.
  unfold hconcat3.
  destruct ((rows b =? rows a) && (type b =? type a) && (rows c =? rows a) && (type c =? type a)).
  - intros H. right. eapply fill_Err; eassumption.
  - intros H. inversion H. left; reflexivity.
Qed.

Lemma vconcat3_Err a b c s f s' :
  vconcat3 a b c Mat_empty s = Err f s' ->
  f = BadConcat \/ rows a + rows b + rows c < 0 \/ cols a < 0.
Proof.
  unfold vconcat3.
  destruct ((cols b =? cols a) && (type b =? type a) && (cols c =? cols a) && (type c =? type a)).
  - intros H. right. eapply fill_Err; eassumption.
  - intros H. inversion H. left; reflexivity.
Qed.

Lemma roi_bounds m r0 c0 nr nc :
  0 <= nr -> 0 <= nc ->
  0 <= rows (roi m r0 c0 nr nc) <= nr /\ 0 <= cols (roi m r0 c0 nr nc) <= nc.
Proof.
  intros Hr Hc. destruct (roi_cases m r0 c0 nr nc) as [(_ & _ & ->)|(_ & ->)];
    cbn [rows cols]; lia.
Qed.

Lemma Mat_roi_cols_total m a b s :
  0 <= rows m -> 0 <= a -> a <= b -> b <= cols m ->
  exists m', Mat_roi m all (range a b) s = Ok m' s /\
             0 <= rows m' <= rows m /\ 0 <= cols m' <= b - a.
Proof.
  intros H0 H1 H2 H3. unfold Mat_roi, check_range.
  destruct ((a =? 0) && (b =? cols m)) eqn:E.
  - apply andb_true_iff in E. rewrite !Z.eqb_eq in E. destruct E; subst.
    eexists. split; [reflexivity|].
    pose proof (roi_bounds m 0 0 (rows m) (cols m) H0 ltac:(lia)). lia.
  - replace ((0 <=? a) && (a <=? b) && (b <=? cols m)) with true
      by (symmetry; rewrite !andb_true_iff, !Z.leb_le; lia).
    eexists. split; [reflexivity|].
    pose proof (roi_bounds m 0 a (rows m) (b - a) H0 ltac:(lia)). lia.
Qed.

(** The placement itself cannot fail on a crop that fits the frame. *)
Lemma placement_total opt cropped s :
  0 <= rows cropped -> 0 <= cols cropped <= width (fullSize opt) ->
  0 <= leftBuffer opt < width (fullSize opt) ->
  cols cropped + leftBuffer opt <= 2147483647 -> width (fullSize opt) <= 2147483647 ->
  exists fl fc fr s',
    placement opt cropped s = Ok (fl, fc, fr) s' /\
    0 <= rows fl /\ 0 <= cols fl /\ 0 <= cols fc /\ 0 <= cols fr.
Proof.
  intros Hr Hc Hlb Hend HW. unfold placement, ASSERT. cbv zeta. cbn [size width height].
  set (W := width (fullSize opt)) in *. set (lb := leftBuffer opt) in *.
  rewrite (bind_run _ _ _ _ _ (int_run (cols cropped + lb) s ltac:(lia))).
  destruct (Z.geb_spec (cols cropped + lb) W) as [Hwrap|Hin].
  - rewrite (bind_run _ _ _ _ _ (int_run (W - lb) s ltac:(lia))).
    unfold contract at 1.
    replace ((0 <=? W - lb) && (W - lb <=? cols cropped)) with true
      by (symmetry; rewrite andb_true_iff, !Z.leb_le; lia).
    rewrite (bind_run _ _ _ tt s) by reflexivity.
    destruct (Mat_roi_cols_total cropped 0 (W - lb) s) as (fr & E1 & R1 & C1); try lia.
    rewrite (bind_run _ _ _ _ _ E1).
    destruct (Mat_roi_cols_total cropped (W - lb) (cols cropped) s) as (fl & E2 & R2 & C2);
      try lia.
    rewrite (bind_run _ _ _ _ _ E2).
    rewrite (bind_run _ _ _ _ _ (int_run (W - cols fr) s ltac:(lia))).
    rewrite (bind_run _ _ _ _ _ (int_run (W - cols fr - cols fl) s ltac:(lia))).
    unfold contract at 1.
    replace (W - cols fr - cols fl >=? 0) with true by (symmetry; apply Z.geb_le; lia).
    rewrite (bind_run _ _ _ tt s) by reflexivity.
    destruct (Mat_new_run (rows cropped) (W - cols fr - cols fl) (type (focused opt)) s)
      as (s1 & E3 & N3); try lia.
    rewrite (bind_run _ _ _ _ _ E3).
    destruct (setTo_run (next s) (rows cropped) (W - cols fr - cols fl) (type (focused opt))
                (black (type (focused opt))) s1) as (s2 & E4 & N4).
    rewrite (bind_run _ _ _ _ _ E4).
    eexists. eexists. eexists. eexists. split; [reflexivity|].
    cbn [rows cols]. lia.
  - destruct (Mat_new_run (rows cropped) lb (type (focused opt)) s) as (s1 & E1 & N1); try lia.
    rewrite (bind_run _ _ _ _ _ E1).
    rewrite (bind_run _ _ _ _ _ (int_run (W - lb) s1 ltac:(lia))).
    rewrite (bind_run _ _ _ _ _ (int_run (W - lb - cols cropped) s1 ltac:(lia))).
    unfold contract at 1.
    replace (W - lb - cols cropped >=? 0) with true by (symmetry; apply Z.geb_le; lia).
    rewrite (bind_run _ _ _ tt s1) by reflexivity.
    destruct (Mat_new_run (rows cropped) (W - lb - cols cropped) (type (focused opt)) s1)
      as (s2 & E2 & N2); try lia.
    rewrite (bind_run _ _ _ _ _ E2).
    destruct (setTo_run (next s) (rows cropped) lb (type (focused opt))
                (black (type (focused opt))) s2) as (s3 & E3 & N3).
    rewrite (bind_run _ _ _ _ _ E3).
    destruct (setTo_run (next s1) (rows cropped) (W - lb - cols cropped) (type (focused opt))
                (black (type (focused opt))) s3) as (s4 & E4 & N4).
    rewrite (bind_run _ _ _ _ _ E4).
    eexists. eexists. eexists. eexists. split; [reflexivity|].
    cbn [rows cols]. lia.
Qed.

Lemma result_of_Err {A} (o : outcome A) f : result_of o = inl f -> exists s, o = Err f s.
Proof. destruct o as [a s|f' s]; simpl; intros H; inversion H. eauto. Qed.

Lemma setTo_at b nr nc ty px s u s' :
  setTo (mkMat (Some b) 0 0 nr nc ty) px s = Ok u s' ->
  forall r c, 0 <= r < nr -> 0 <= c < nc -> mem s' b r c = px.
Proof.
  unfold setTo, write. cbn [data]. intros H; inversion H; subst; clear H.
  intros r c Hr Hc. cbn [mem]. rewrite Nat.eqb_refl.
  rewrite inside_fresh by lia. reflexivity.
Qed.

Lemma placement_types opt cropped s fl fc fr s' :
  placement opt cropped s = Ok (fl, fc, fr) s' ->
  type fl = type cropped \/ type fl = type (focused opt).
Proof.
  unfold placement, ASSERT. cbv zeta. intros H.
  step H as cropEnd s00 E00.
  destruct (cropEnd >=? width (fullSize opt)).
  - step H as ree s01 E01.
    step H as u s0 E. step H as fullRight s1 E1. step H as fullLeft s2 E2.
    apply Mat_roi_cols_Ok in E2. destruct E2 as (_ & -> & _).
    step H as rest s02 E02. step H as cc s03 E03.
    step H as u2 s3 E3. step H as fullCenter s4 E4. step H as u3 s5 E5.
    apply ret_Ok in H. destruct H as [H _]. inversion H; subst. left. apply type_roi.
  - step H as fullLeft s1 E1. apply Mat_new_Ok in E1. destruct E1 as (-> & _).
    step H as rest s02 E02. step H as cc s03 E03.
    step H as u s2 E2. step H as fullRight s3 E3. step H as u2 s4 E4. step H as u3 s5 E5.
    apply ret_Ok in H. destruct H as [H _]. inversion H; subst. right. reflexivity.
Qed.

(** Around the crop the three panels are black. *)
Lemma placement_black opt cropped s fl fc fr s' :
  0 < cols cropped -> 0 < rows cropped ->
  placement opt cropped s = Ok (fl, fc, fr) s' ->
  rows fl = rows fc -> rows fr = rows fc ->
  let W := width (fullSize opt) in
  let lb := leftBuffer opt in
  forall r x, 0 <= r < rows cropped -> cols cropped <= x < W ->
    let y := (lb + x) mod W in
    (if y <? cols fl then at_ s' fl r y
     else if y <? cols fl + cols fc then at_ s' fc r (y - cols fl)
     else at_ s' fr r (y - cols fl - cols fc)) = black (type (focused opt)).
Proof.
  intros Hpos Hrpos. unfold placement, ASSERT. cbv zeta.
  cbn [size width height]. intros H.
  step H as cropEnd s0 E. apply int_Ok in E. destruct E as (-> & -> & _).
  destruct (Z.geb_spec (cols cropped + leftBuffer opt) (width (fullSize opt))) as [Hwrap|Hin].
  - (* wrap *)
    step H as ree s0 E. apply int_Ok in E. destruct E as (-> & -> & _).
    step H as u s0 E. apply contract_Ok in E. destruct E as [A1 ->].
    apply andb_true_iff in A1. destruct A1 as [A1 A1']. apply Z.leb_le in A1, A1'.
    step H as fullRight s0 E. apply Mat_roi_cols_Ok in E. destruct E as (-> & Efr & _).
    step H as fullLeft s0 E. apply Mat_roi_cols_Ok in E. destruct E as (-> & Efl & _).
    step H as rest s0 E. apply int_Ok in E. destruct E as (-> & -> & _).
    step H as centerCols s0 E. apply int_Ok in E. destruct E as (-> & -> & _).
    step H as u2 s0 E. apply contract_Ok in E. destruct E as [A2 ->]. apply Z.geb_le in A2.
    step H as fullCenter s1 E. apply Mat_new_Ok in E. destruct E as (-> & -> & Hr0 & Hc0).
    step H as u3 s2 E. pose proof (setTo_at _ _ _ _ _ _ _ _ E) as Hblack.
    apply ret_Ok in H. destruct H as [H ->]. inversion H; subst fl fc fr; clear H.
    cbn [cols rows]. intros Hrl Hrr.
    rewrite <- Hrl in Hrpos. rewrite Efl in Hrpos. apply roi_rows_pos in Hrpos.
    destruct Hrpos as (Hrpos & Hlpos & Efl'). rewrite Efl' in Efl. clear Efl'.
    assert (Hrr' : 0 < rows fullRight) by lia.
    rewrite Efr in Hrr'. apply roi_rows_pos in Hrr'.
    destruct Hrr' as (_ & Hrcols & Efr'). rewrite Efr' in Efr. clear Efr'.
    subst fullLeft fullRight. cbn [cols rows] in *.
    intros r x Hr Hx.
    set (W := width (fullSize opt)) in *. set (lb := leftBuffer opt) in *.
    replace ((lb + x) mod W) with (lb + x - W) by (apply Z.mod_unique with 1; lia).
    destruct (Z.ltb_spec (lb + x - W) (cols cropped - (W - lb))); [lia|].
    destruct (Z.ltb_spec (lb + x - W)
                (cols cropped - (W - lb) + (W - (W - lb - 0) - (cols cropped - (W - lb)))));
      [|lia].
    unfold at_. cbn [data row0 col0]. apply Hblack; lia.
  - (* contained *)
    step H as fullLeft s1 E. apply Mat_new_Ok in E. destruct E as (-> & -> & Hr0 & Hc0).
    step H as rest s0 E. apply int_Ok in E. destruct E as (-> & -> & _).
    step H as rbc s0 E. apply int_Ok in E. destruct E as (-> & -> & _).
    step H as u s0 E. apply contract_Ok in E. destruct E as [A1 ->]. apply Z.geb_le in A1.
    step H as fullRight s2 E. apply Mat_new_Ok in E. cbn [next mem] in E.
    destruct E as (-> & -> & _ & Hc1).
    step H as u2 s3 E3. pose proof (setTo_at _ _ _ _ _ _ _ _ E3) as Hblack3.
    step H as u3 s4 E4. pose proof (setTo_at _ _ _ _ _ _ _ _ E4) as Hblack4.
    apply setTo_Ok in E4. destruct E4 as (_ & _ & Hother).
    apply ret_Ok in H. destruct H as [H ->]. inversion H; subst fl fc fr; clear H.
    cbn [cols rows]. intros _ _ r x Hr Hx.
    set (W := width (fullSize opt)) in *. set (lb := leftBuffer opt) in *.
    destruct (Z_lt_ge_dec (lb + x) W) as [Hlt|Hge].
    + rewrite (Z.mod_small (lb + x) W) by lia.
      destruct (Z.ltb_spec (lb + x) lb); [lia|].
      destruct (Z.ltb_spec (lb + x) (lb + cols cropped)); [lia|].
      unfold at_. cbn [data row0 col0]. apply Hblack4; lia.
    + replace ((lb + x) mod W) with (lb + x - W) by (apply Z.mod_unique with 1; lia).
      destruct (Z.ltb_spec (lb + x - W) lb); [|lia].
      unfold at_. cbn [data row0 col0]. rewrite Hother by lia. apply Hblack3; lia.
Qed.

Section Failures.
Variable resample : Z -> Size -> (Z -> Z -> Pixel) -> Size -> Z -> Z -> Pixel.

Lemma resize_Err src dsize s f s' :
  resize resample src Mat_empty dsize s = Err f s' ->
  cols src <= 0 \/ rows src <= 0 \/ width dsize <= 0 \/ height dsize <= 0.
Proof.
  intros H.
  destruct (Z_lt_le_dec 0 (cols src)); [|auto]. destruct (Z_lt_le_dec 0 (rows src)); [|auto].
  destruct (Z_lt_le_dec 0 (width dsize)); [|auto].
  destruct (Z_lt_le_dec 0 (height dsize)); [|auto].
  destruct (resize_run resample src dsize s) as (s1 & E & _); try assumption.
  rewrite E in H. discriminate.
Qed.

(** X15 -- on a record built by [optimizeImage], [extractImage] fails in
    two ways only: a concatenation rejects panels that do not fit, or the
    addition of line 190 leaves the range of [int], which needs a frame
    wider than 1610612735 columns.  None of its own checks (lines 199,
    204, 218, 232) can fail, no range is out of bounds, no resize is given
    an empty panel or size. *)
Theorem decode_fails_only_in_concat image angle vAngle s opt s1 f s2 :
  cols image < 2 ^ 31 ->
  optimizeImage resample image angle vAngle s = Ok opt s1 ->
  extractImage resample opt s1 = Err f s2 ->
  (f = BadConcat \/
   (f = Undefined /\
    INT_MAX < width (origHSize opt) + width (origVSize opt) + width (origHSize opt)
              + leftBuffer opt)) /\
  (cols image <= 1610612735 -> f = BadConcat).
Proof.
  intros HW Hrun Hdec. change (2 ^ 31) with 2147483648 in HW.
  unfold INT_MAX. change (2 ^ 31 - 1) with 2147483647.
  apply encode_shape in Hrun. cbv zeta in Hrun.
  destruct Hrun as (lc & rc & cw & fw & fhh & fm & Sl & Sr & Hlc & Hrc & Hcw & _ & _ & _ &
                    EH & EV & EF & ELB & (Rf & Cf) & (Rl & Cl) & (Rr & Cr) & (Rt & Ct) & (Rb & Cb) &
                    _ & I1 & I2 & I3 & I4 & I5 & I6 & I7 & I8 & I9).
  assert (Hfit : cw ÷ 2 - fw ÷ 2 + 2 * (fw ÷ 2) + (cw ÷ 2 - fw ÷ 2) <= cols image)
    by (clear - I1 I2 I3 I5; lia).
  assert (Hsmall : cols image <= 1610612735 ->
                   cw ÷ 2 - fw ÷ 2 + 2 * (fw ÷ 2) + (cw ÷ 2 - fw ÷ 2) + lc <= 2147483647).
  { intros Hlim.
    pose proof (crop_end_small (cols image) angle lc rc ltac:(clear - I1 I2 I3 I5 Hlim; lia)
                  Hlc Hrc Sl Sr) as Hend.
    rewrite <- Hcw in Hend. clear - Hend I1 I2 I3 I5. lia. }
  clear Sl Sr.
  cut (f = BadConcat \/
       (f = Undefined /\
        2147483647 < width (origHSize opt) + width (origVSize opt) + width (origHSize opt)
                     + leftBuffer opt)).
  { intros Hf. split; [exact Hf|]. intros Hlim. destruct Hf as [Hf|[_ Hf]]; [exact Hf|].
    rewrite EH, EV, ELB in Hf. cbn [width height] in Hf. specialize (Hsmall Hlim). lia. }
  clear Hsmall.
  assert (Hcf : 0 <= cols (focused opt))
    by (rewrite Cf; destruct (0 <? fhh ÷ 2); lia).
  assert (Hrf : 0 <= rows (focused opt)) by lia.
  assert (P1 : 0 < rows image ÷ 5) by (clear - I4; lia).
  assert (P2 : 0 < (cw ÷ 2 - fw ÷ 2) ÷ 5) by (clear - I1; lia).
  assert (P3 : 0 < (fm - fhh ÷ 2) ÷ 5) by (clear - I6; lia).
  assert (P4 : 0 < (2 * (fw ÷ 2)) ÷ 5) by (clear - I5; lia).
  set (wH := cw ÷ 2 - fw ÷ 2) in *. set (wV := 2 * (fw ÷ 2)) in *.
  set (hV := fm - fhh ÷ 2) in *.
  clear Hcw I2 I3 I7 I8 I9 Hrc Rf Cf. clearbody wH wV hV.
  unfold extractImage in Hdec. rewrite EH, EV, ELB. rewrite EH, EV in Hdec.
  cbn [width height].
  apply bind_Err in Hdec. destruct Hdec as [H|(left & s3 & E & Hdec)].
  { apply resize_Err in H. cbn [width height] in H. lia. }
  apply resize_Ok in E; [|left; reflexivity]. destruct E as (_ & _ & _ & _ & (-> & _)).
  apply bind_Err in Hdec. destruct Hdec as [H|(right & s4 & E & Hdec)].
  { apply resize_Err in H. cbn [width height] in H. lia. }
  apply resize_Ok in E; [|left; reflexivity]. destruct E as (_ & _ & _ & _ & (-> & _)).
  apply bind_Err in Hdec. destruct Hdec as [H|(top & s5 & E & Hdec)].
  { apply resize_Err in H. cbn [width height] in H. lia. }
  apply resize_Ok in E; [|left; reflexivity]. destruct E as (_ & _ & _ & _ & (-> & _)).
  apply bind_Err in Hdec. destruct Hdec as [H|(bottom & s6 & E & Hdec)].
  { apply resize_Err in H. cbn [width height] in H. lia. }
  apply resize_Ok in E; [|left; reflexivity]. destruct E as (_ & _ & _ & _ & (-> & _)).
  cbn [width height] in Hdec.
  apply bind_Err in Hdec. destruct Hdec as [H|(middle & s7 & E & Hdec)].
  { apply vconcat3_Err in H. cbn [rows cols] in H. destruct H as [H|H]; [left; exact H|lia]. }
  apply vconcat3_Ok in E. destruct E as (_ & _ & _ & _ & (-> & _)).
  apply bind_Err in Hdec. destruct Hdec as [H|(cropped & s8 & E & Hdec)].
  { apply hconcat3_Err in H. cbn [rows cols] in H. destruct H as [H|H]; [left; exact H|lia]. }
  apply hconcat3_Ok in E. destruct E as (_ & _ & _ & _ & Pc).
  pose proof (produced_valid _ _ _ _ _ _ _ Pc) as Vc.
  destruct Pc as (-> & _). cbn [rows cols type] in *.
  destruct (Z_le_gt_dec (wH + wV + wH + lc) 2147483647) as [Hend|Hover].
  2:{ right. unfold bind at 1 in Hdec.
      rewrite placement_overflow in Hdec by (rewrite ELB; cbn [cols]; lia).
      inversion Hdec. split; [reflexivity|lia]. }
  left.
  match type of Hdec with bind (placement opt ?c) _ _ = _ =>
    destruct (placement_total opt c s8) as (fl & fc & fr & s9 & Ep & B1 & B2 & B3 & B4);
      [cbn [rows]; lia|cbn [cols]; rewrite EF; cbn [width]; lia|rewrite EF, ELB; cbn [width]; lia
      |rewrite ELB; cbn [cols]; lia|rewrite EF; cbn [width]; lia|]
  end.
  rewrite (bind_run _ _ _ _ _ Ep) in Hdec.
  apply (placement_Ok resample) in Ep; [|exact Vc|cbn [cols]; lia|cbn [rows]; lia].
  cbv zeta in Ep. cbn [rows cols] in Ep. destruct Ep as (_ & _ & Hrfc & Hplace).
  apply bind_Err in Hdec. destruct Hdec as [H|(fullImage & s10 & E & Hdec)].
  { apply hconcat3_Err in H. destruct H as [H|H]; [exact H|lia]. }
  apply hconcat3_Ok in E. destruct E as (Hr1 & _ & Hr2 & _ & (-> & _)).
  destruct Hplace as (_ & _ & _ & Hsum & _); [lia|lia|].
  apply bind_Err in Hdec. destruct Hdec as [H|(u & s11 & E & Hdec)]; [|discriminate].
  apply contract_Err in H. unfold size_eqb in H. rewrite EF in *.
  cbn [size width height rows cols] in *.
  apply andb_false_iff in H. rewrite !Z.eqb_neq in H. lia.
Qed.

(** X16 -- what a decoded frame is: when [extractImage] returns on a
    record built by [optimizeImage], the frame has the size and the
    element type of the source frame and is a whole matrix in a buffer
    allocated by the call, so it shares no pixel with the record or the
    source. *)
Theorem decoded_frame_format image angle vAngle s opt s1 frame s2 :
  optimizeImage resample image angle vAngle s = Ok opt s1 ->
  extractImage resample opt s1 = Ok frame s2 ->
  size frame = size image /\ type frame = type image /\
  row0 frame = 0 /\ col0 frame = 0 /\
  exists b, data frame = Some b /\ (next s1 <= b < next s2)%nat.
Proof.
  intros Hrun H. apply encode_shape in Hrun. cbv zeta in Hrun.
  destruct Hrun as (lc & rc & cw & fw & fhh & fm & _ & _ & _ & _ & _ & _ & _ & _ &
                    _ & _ & EF & _ & _ & _ & _ & _ & _ &
                    (Tf & Tl & _) & _).
  unfold extractImage in H.
  step H as left s3 E. apply resize_Ok in E; [|left; reflexivity].
  destruct E as (_ & _ & HwH & HhH & P1).
  step H as right s4 E. apply resize_Ok in E; [|left; reflexivity].
  destruct E as (_ & _ & _ & _ & P2).
  step H as top s5 E. apply resize_Ok in E; [|left; reflexivity].
  destruct E as (_ & _ & HwV & HhV & P3).
  step H as bottom s6 E. apply resize_Ok in E; [|left; reflexivity].
  destruct E as (_ & _ & _ & _ & P4).
  destruct P1 as (-> & _ & _ & N1 & _). destruct P2 as (-> & _ & _ & N2 & _).
  destruct P3 as (-> & _ & _ & N3 & _). destruct P4 as (-> & _ & _ & N4 & _).
  step H as middle s7 E. apply vconcat3_Ok in E. destruct E as (_ & _ & _ & _ & Pm).
  destruct Pm as (-> & _ & _ & N5 & _).
  step H as cropped s8 E. apply hconcat3_Ok in E. destruct E as (_ & _ & _ & _ & Pc).
  pose proof (produced_valid _ _ _ _ _ _ _ Pc) as Vc.
  destruct Pc as (-> & _ & _ & N6 & _). cbn [rows cols type] in *.
  step H as [[fullLeft fullCenter] fullRight] s9 E.
  pose proof (placement_types _ _ _ _ _ _ _ E) as Ht. cbn [type] in Ht.
  apply (placement_Ok resample) in E; [|exact Vc|cbn [cols]; lia|cbn [rows]; lia].
  destruct E as (N7 & _).
  step H as fullImage s10 E. apply hconcat3_Ok in E.
  destruct E as (_ & _ & _ & _ & (-> & _ & _ & N8 & _)).
  step H as u s11 E. apply contract_Ok in E. destruct E as [Hsz ->].
  apply ret_Ok in H. destruct H as [-> ->].
  unfold size_eqb in Hsz. apply andb_true_iff in Hsz. rewrite !Z.eqb_eq in Hsz.
  rewrite EF in Hsz. cbn [size width height rows cols] in Hsz. destruct Hsz as [HW HH].
  cbn [size type row0 col0 data rows cols].
  split; [unfold size; f_equal; assumption|].
  split; [destruct Ht as [->| ->]; congruence|].
  split; [reflexivity|]. split; [reflexivity|].
  eexists. split; [reflexivity|lia].
Qed.

(** X17 -- outside the crop the decoded frame is black: in every frame
    [extractImage] returns, at every row, the columns from the end of the
    reconstructed crop round to [leftBuffer] (counted modulo the width of
    the frame) hold [Scalar(0,0,0)]. *)
Theorem decoded_frame_black_outside_crop opt s frame s' :
  extractImage resample opt s = Ok frame s' ->
  let W := width (fullSize opt) in
  let cropCols := width (origHSize opt) + width (origVSize opt) + width (origHSize opt) in
  forall r x, 0 <= r < height (fullSize opt) -> cropCols <= x < W ->
    at_ s' frame r ((leftBuffer opt + x) mod W) = black (type (focused opt)).
Proof.
  intros H. unfold extractImage in H.
  step H as left s1 E. apply resize_Ok in E; [|left; reflexivity].
  destruct E as (_ & _ & HwH & HhH & (-> & _)).
  step H as right s2 E. apply resize_Ok in E; [|left; reflexivity].
  destruct E as (_ & _ & _ & _ & (-> & _)).
  step H as top s3 E. apply resize_Ok in E; [|left; reflexivity].
  destruct E as (_ & _ & HwV & HhV & (-> & _)).
  step H as bottom s4 E. apply resize_Ok in E; [|left; reflexivity].
  destruct E as (_ & _ & _ & _ & (-> & _)).
  step H as middle s5 E. apply vconcat3_Ok in E. destruct E as (_ & _ & _ & _ & (-> & _)).
  step H as cropped s6 E. apply hconcat3_Ok in E. destruct E as (_ & _ & _ & _ & Pc).
  pose proof (produced_valid _ _ _ _ _ _ _ Pc) as Vc.
  destruct Pc as (-> & _). cbn [rows cols type] in *.
  step H as [[fullLeft fullCenter] fullRight] s7 E.
  pose proof (fun h1 h2 => placement_black _ _ _ _ _ _ _ h1 h2 E) as Hblack.
  apply (placement_Ok resample) in E; [|exact Vc|cbn [cols]; lia|cbn [rows]; lia].
  cbv zeta in E, Hblack. cbn [rows cols] in E, Hblack.
  destruct E as (_ & _ & Hrfc & Hplace).
  step H as fullImage s8 E. apply hconcat3_Ok in E.
  destruct E as (Hr1 & _ & Hr2 & _ & (-> & Hir & Hic & _ & _ & Ati)).
  destruct Hplace as (Hfl & Hfc & Hfr & Hsum & HcW & _); [lia|lia|].
  specialize (Hblack ltac:(lia) ltac:(lia) ltac:(lia) ltac:(lia)).
  step H as u s9 E. apply contract_Ok in E. destruct E as [Hsz ->].
  apply ret_Ok in H. destruct H as [-> ->].
  unfold size_eqb in Hsz. apply andb_true_iff in Hsz. rewrite !Z.eqb_eq in Hsz.
  cbn [size width height rows cols] in Hsz. destruct Hsz as [HW HH].
  intros r x Hr Hx.
  pose proof (Z.mod_pos_bound (leftBuffer opt + x) (width (fullSize opt)) ltac:(lia)) as Hy.
  rewrite Ati by lia. apply Hblack; lia.
Qed.

End Failures.

Lemma decode_fails_only_in_concat_witness :
  exists opt s1 f s2,
    optimizeImage nearest (frame0 3600 1800) 180 45 (store0 []) = Ok opt s1 /\
    extractImage nearest opt s1 = Err f s2 /\ f = BadConcat.
Proof.
  edestruct (result_of_Err
               ((o <- optimizeImage nearest (frame0 3600 1800) 180 45 ;; extractImage nearest o)
                  (store0 []))) as [s2 E]; [vm_compute; reflexivity|].
  apply bind_Err in E. destruct E as [E|(opt & s1 & E1 & E2)].
  - run_as (optimizeImage nearest (frame0 3600 1800) 180 45) (store0 []) opt s1 E1.
    rewrite E1 in E. discriminate E.
  - exists opt, s1, BadConcat, s2. split; [exact E1|]. split; [exact E2|].
    exact (proj2 (decode_fails_only_in_concat nearest (frame0 3600 1800) 180 45 (store0 [])
                    opt s1 _ s2 ltac:(reflexivity) E1 E2) ltac:(simpl; lia)).
Defined.

Lemma decoded_frame_format_witness :
  exists opt s1 frame s2,
    optimizeImage nearest (frame0 3600 1800) 0 90 (store0 []) = Ok opt s1 /\
    extractImage nearest opt s1 = Ok frame s2 /\
    size frame = mkSize 3600 1800 /\ type frame = CV_8UC3.
Proof.
  run_as (o <- optimizeImage nearest (frame0 3600 1800) 0 90 ;; extractImage nearest o)
    (store0 []) frame s2 E.
  apply bind_Ok in E. destruct E as (opt & s1 & E1 & E2).
  exists opt, s1. eexists. exists s2. split; [exact E1|]. split; [exact E2|].
  destruct (decoded_frame_format nearest (frame0 3600 1800) 0 90 (store0 []) _ s1 _ s2 E1 E2)
    as (H1 & H2 & _).
  split; [exact H1|exact H2].
Defined.

Lemma decoded_frame_black_outside_crop_witness :
  exists opt s1 frame s2,
    optimizeImage nearest (frame0 3600 1800) 180 90 (store0 [255; 255; 255]) = Ok opt s1 /\
    extractImage nearest opt s1 = Ok frame s2 /\
    at_ s2 frame 0 ((leftBuffer opt + 2400) mod width (fullSize opt))
    = black (type (focused opt)).
Proof.
  run_as (o <- optimizeImage nearest (frame0 3600 1800) 180 90 ;; extractImage nearest o)
    (store0 [255; 255; 255]) frame s2 E.
  apply bind_Ok in E. destruct E as (opt & s1 & E1 & E2).
  run_as (optimizeImage nearest (frame0 3600 1800) 180 90) (store0 [255; 255; 255]) opt' s1' E1'.
  rewrite E1' in E1. injection E1 as <- <-.
  eexists. exists s1'. eexists. exists s2. split; [exact E1'|]. split; [exact E2|].
  exact (decoded_frame_black_outside_crop nearest _ s1' _ s2 E2 0 2400
           ltac:(simpl; lia) ltac:(simpl; lia)).
Defined.

Lemma roundtrip_succeeds_iff_witness :
  exists opt s1,
    optimizeImage nearest (frame0 3600 1800) 180 90 (store0 []) = Ok opt s1 /\
    exists frame s2, extractImage nearest opt s1 = Ok frame s2.
Proof.
  run_as (optimizeImage nearest (frame0 3600 1800) 180 90) (store0 []) opt s1 E1.
  eexists. exists s1. split; [exact E1|].
  apply (proj2 (proj1 (roundtrip_succeeds_iff nearest (frame0 3600 1800) 180 90 (store0 [])
                         _ s1 ltac:(reflexivity) E1))).
  pose proof (encode_shape nearest _ _ _ _ _ _ E1) as Hs. cbv zeta in Hs.
  destruct Hs as (lc & rc & cw & fw & fhh & fm & Hs). revert Hs.
  cbn. unfold INT_MAX. intros Hs. decompose [and] Hs. clear Hs.
  repeat split; lia.
Defined.

(** A frame of 2000000000 columns seen at azimuth 30: the crop starts at
    column 1833333333 and is 666666666 columns wide, and line 190 adds
    the two. *)
Lemma decode_overflows_on_wide_frame :
  result_of (roundtrip nearest (frame0 2000000000 36) 30 90 (store0 [])) = inl Undefined.
Proof. vm_compute. reflexivity. Qed.

(** ** How [optimizeImage] can fail *)

Lemma d2i_Err x s f s' : d2i x s = Err f s' -> f = Undefined.
Proof.
  unfold d2i. destruct (trunc x) as [z|]; [destruct (in_int z)|]; intros H; inversion H;
    reflexivity.
Qed.

Lemma Mat_roi_Err m rr cr s f s' :
  Mat_roi m rr cr s = Err f s' -> exists a b l, f = BadRange a b l.
Proof.
  unfold Mat_roi.
  assert (Hc : forall r l e, check_range r l = inl e -> exists a b l', e = BadRange a b l').
  { intros [|a b] l e; simpl; [discriminate|].
    destruct ((a =? 0) && (b =? l)); [discriminate|].
    destruct ((0 <=? a) && (a <=? b) && (b <=? l)); [discriminate|].
    intros H; inversion H. eauto. }
  destruct (check_range rr (rows m)) as [e|[r0 nr]] eqn:E1.
  - intros H. inversion H; subst. eapply Hc; eassumption.
  - destruct (check_range cr (cols m)) as [e|[c0 nc]] eqn:E2.
    + intros H. inversion H; subst. eapply Hc; eassumption.
    + discriminate.
Qed.

Lemma fill_total dst nr nc ty g s :
  0 <= nr -> 0 <= nc -> exists d s', fill dst nr nc ty g s = Ok d s'.
Proof.
  intros Hr Hc. unfold fill, bind, create.
  replace ((nr <? 0) || (nc <? 0)) with false
    by (symmetry; apply orb_false_iff; rewrite !Z.ltb_ge; lia).
  destruct (data dst) as [b|] eqn:Ed.
  - destruct ((rows dst =? nr) && (cols dst =? nc) && (type dst =? ty)).
    + unfold write, ret. rewrite Ed. eauto.
    + unfold write, ret. cbn [data]. eauto.
  - unfold write, ret. cbn [data]. eauto.
Qed.

Lemma hconcat_Err a b s f s' :
  0 <= rows a -> 0 <= cols a + cols b ->
  hconcat a b Mat_empty s = Err f s' -> f = BadConcat.
Proof.
  intros Hr Hc. unfold hconcat.
  destruct ((rows b =? rows a) && (type b =? type a)).
  - intros H. destruct (fill_total Mat_empty (rows a) (cols a + cols b) (type a)
                          (fun s r c => if c <? cols a then at_ s a r c
                                        else at_ s b r (c - cols a)) s Hr Hc)
      as (d & s1 & E).
    rewrite E in H. discriminate.
  - intros H. inversion H. reflexivity.
Qed.

Lemma Mat_roi_cols_eq m a b s :
  0 <= a -> a <= b -> b <= cols m ->
  Mat_roi m all (range a b) s = Ok (roi m 0 a (rows m) (b - a)) s.
Proof.
  intros H1 H2 H3. unfold Mat_roi, check_range.
  destruct ((a =? 0) && (b =? cols m)) eqn:E.
  - apply andb_true_iff in E. rewrite !Z.eqb_eq in E. destruct E; subst.
    rewrite Z.sub_0_r. reflexivity.
  - replace ((0 <=? a) && (a <=? b) && (b <=? cols m)) with true
      by (symmetry; rewrite !andb_true_iff, !Z.leb_le; lia).
    reflexivity.
Qed.

(** The crop of a frame with rows: it can only fail in [hconcat], and
    when it does not it has the frame's rows. *)
Lemma crop_Err image lc rc s f s' :
  1 <= rows image -> 0 <= lc < cols image -> 0 <= rc < cols image ->
  crop image lc rc s = Err f s' -> f = BadConcat.
Proof.
  intros Hrows Hl Hr. unfold crop. destruct (cropBranch lc rc) eqn:Eb.
  - unfold cropBranch in Eb. destruct (Z.ltb_spec lc rc); [|discriminate].
    rewrite Mat_roi_cols_eq by lia. discriminate.
  - rewrite (bind_run _ _ _ _ _ (Mat_roi_cols_eq image lc (cols image) s
                                   ltac:(lia) ltac:(lia) ltac:(lia))).
    rewrite (bind_run _ _ _ _ _ (Mat_roi_cols_eq image 0 rc s
                                   ltac:(lia) ltac:(lia) ltac:(lia))).
    apply hconcat_Err.
    + rewrite roi_nonempty by lia. cbn [rows]. lia.
    + rewrite roi_nonempty by lia. cbn [cols].
      pose proof (roi_bounds image 0 0 (rows image) (rc - 0) ltac:(lia) ltac:(lia)). lia.
Qed.

Lemma crop_rows image lc rc s cropped s1 :
  1 <= rows image -> 0 <= lc < cols image -> 0 <= rc < cols image ->
  crop image lc rc s = Ok cropped s1 -> 0 < rows cropped.
Proof.
  intros Hrows Hl Hr. unfold crop. destruct (cropBranch lc rc) eqn:Eb.
  - unfold cropBranch in Eb. destruct (Z.ltb_spec lc rc); [|discriminate].
    rewrite Mat_roi_cols_eq by lia. intros Hx; inversion Hx.
    rewrite roi_nonempty by lia. cbn [rows]. lia.
  - rewrite (bind_run _ _ _ _ _ (Mat_roi_cols_eq image lc (cols image) s
                                   ltac:(lia) ltac:(lia) ltac:(lia))).
    rewrite (bind_run _ _ _ _ _ (Mat_roi_cols_eq image 0 rc s
                                   ltac:(lia) ltac:(lia) ltac:(lia))).
    intros Hx. apply hconcat_Ok in Hx. destruct Hx as (_ & _ & (-> & _)).
    rewrite roi_nonempty by lia. cbn [rows]. lia.
Qed.

(** The horizontal split of a crop wider than the focus cannot fail. *)
Lemma splitH_total cropped W s fw :
  0 <= rows cropped -> scaled 20 W 360 = Some fw -> 0 <= fw < 2147483648 ->
  fw < cols cropped ->
  exists l m r, splitH cropped W s = Ok (l, m, r) s.
Proof.
  intros Hr Sw Hfw Hlt. unfold splitH, ASSERT. cbv zeta.
  rewrite (bind_run _ _ _ fw s) by (apply d2i_run; [exact Sw|lia]).
  set (fl := cols cropped ÷ 2 - fw ÷ 2). set (fr := cols cropped ÷ 2 + fw ÷ 2).
  assert (Hfl : 0 <= fl) by (unfold fl; lia).
  assert (Hflr : fl <= fr) by (unfold fl, fr; lia).
  assert (Hfr : fr < cols cropped) by (unfold fr; lia).
  unfold contract at 1. replace (0 <=? fl) with true by (symmetry; apply Z.leb_le; lia).
  rewrite (bind_run _ _ _ tt s) by reflexivity.
  unfold contract at 1. replace (fl <=? fr) with true by (symmetry; apply Z.leb_le; lia).
  rewrite (bind_run _ _ _ tt s) by reflexivity.
  unfold contract at 1. replace (fr <? cols cropped) with true by (symmetry; apply Z.ltb_lt; lia).
  rewrite (bind_run _ _ _ tt s) by reflexivity.
  rewrite (bind_run _ _ _ _ _ (Mat_roi_cols_eq cropped fl fr s
                                 ltac:(lia) ltac:(lia) ltac:(lia))).
  rewrite (bind_run _ _ _ _ _ (Mat_roi_cols_eq cropped 0 fl s
                                 ltac:(lia) ltac:(lia) ltac:(lia))).
  rewrite (bind_run _ _ _ _ _ (Mat_roi_cols_eq cropped fr (cols cropped) s
                                 ltac:(lia) ltac:(lia) ltac:(lia))).
  eexists. eexists. eexists. reflexivity.
Qed.

Lemma focusRows_total H vAngle s :
  1 <= H < 2 ^ 30 -> 0 <= vAngle <= 180 ->
  exists ft fb, focusRows H vAngle s = Ok (ft, fb) s.
Proof.
  intros HH Hv. change (2 ^ 30) with 1073741824 in HH. unfold focusRows. cbv zeta.
  destruct (scaled_bounds 20 H 180) as (fhh & Sh & Bh & Ph); try lia.
  destruct (scaled_bounds vAngle H 180) as (fm & Sm & Bm & Pm); try lia.
  assert (Hfm : 0 <= fm <= H) by nia. clear Bm.
  rewrite (bind_run _ _ _ fhh s) by (apply d2i_run; [exact Sh|lia]).
  rewrite (bind_run _ _ _ fm s) by (apply d2i_run; [exact Sm|lia]).
  rewrite (bind_run _ _ _ (fm - fhh ÷ 2) s) by (apply int_run; lia).
  rewrite (bind_run _ _ _ (fm + fhh ÷ 2) s) by (apply int_run; lia).
  eexists. eexists. reflexivity.
Qed.

Lemma splitV_Err middle ft fb s f s' :
  splitV middle ft fb s = Err f s' -> exists a b l, f = BadRange a b l.
Proof.
  unfold splitV. intros H.
  apply bind_Err in H. destruct H as [H|(t & s1 & _ & H)]; [eapply Mat_roi_Err; eassumption|].
  apply bind_Err in H. destruct H as [H|(fo & s2 & _ & H)]; [eapply Mat_roi_Err; eassumption|].
  apply bind_Err in H. destruct H as [H|(b & s3 & _ & H)]; [eapply Mat_roi_Err; eassumption|].
  discriminate.
Qed.

Lemma window_angles angle :
  let a := angle mod 360 in
  (a < 60 /\ leftAngle_of angle = a + 300 /\ rightAngle_of angle = a + 60) \/
  (60 <= a < 300 /\ leftAngle_of angle = a - 60 /\ rightAngle_of angle = a + 60) \/
  (300 <= a /\ leftAngle_of angle = a - 60 /\ rightAngle_of angle = a - 300).
Proof.
  unfold leftAngle_of, rightAngle_of. cbv zeta.
  pose proof (Z.mod_pos_bound angle 360 ltac:(lia)). lia.
Qed.

(** The crop is wider than the focus band, whatever the width and the
    azimuth. *)
Lemma focus_narrower_than_crop W angle lc rc fw :
  1 <= W < 2147483648 ->
  scaled (leftAngle_of angle) W 360 = Some lc ->
  scaled (rightAngle_of angle) W 360 = Some rc ->
  scaled 20 W 360 = Some fw ->
  0 <= fw < (if lc <? rc then rc - lc else W - lc + rc).
Proof.
  intros HW Sl Sr Sw.
  pose proof (Z.mod_pos_bound angle 360 ltac:(lia)) as Ha.
  pose proof (window_angles angle) as Hang. cbv zeta in Hang.
  destruct (angle_ranges angle) as [Hla Hra].
  destruct (scaled_bounds (leftAngle_of angle) W 360) as (tl & El & Bl & Pl); try lia.
  destruct (scaled_bounds (rightAngle_of angle) W 360) as (tr & Er & Br & Pr); try lia.
  destruct (scaled_bounds 20 W 360) as (tw & Ew & Bw & Pw); try lia.
  rewrite Sl in El. rewrite Sr in Er. rewrite Sw in Ew.
  inversion El; inversion Er; inversion Ew; subst tl tr tw. clear El Er Ew.
  split; [exact Pw|].
  assert (Hlc : lc < W) by nia. assert (Hrc : rc < W) by nia.
  set (la := leftAngle_of angle) in *. set (ra := rightAngle_of angle) in *.
  set (a := angle mod 360) in *. clearbody la ra a.
  assert (Hcw : 1 <= (if lc <? rc then rc - lc else W - lc + rc) /\
                120 * W - 360 <= 360 * (if lc <? rc then rc - lc else W - lc + rc)).
  { destruct (Z.ltb_spec lc rc); split; try lia;
      destruct Hang as [(H1 & -> & ->)|[(H1 & -> & ->)|(H1 & -> & ->)]]; nia. }
  destruct Hcw as [Hc1 Hc2]. set (cw := if lc <? rc then rc - lc else W - lc + rc) in *.
  clearbody cw. destruct (Z_le_gt_dec W 3); nia.
Qed.

Section EncoderFailures.
Variable resample : Z -> Size -> (Z -> Z -> Pixel) -> Size -> Z -> Z -> Pixel.

Lemma resize_Err_kind src dst dsize s f s' :
  resize resample src dst dsize s = Err f s' -> f = BadResize.
Proof.
  unfold resize. destruct (empty (size src) || empty dsize) eqn:E.
  - intros H. inversion H. reflexivity.
  - apply orb_false_iff in E. destruct E as [_ E]. apply empty_false in E. intros H.
    destruct (fill_total dst (height dsize) (width dsize) (type src)
                (fun s => if size_eqb dsize (size src) then at_ s src
                          else resample (type src) (size src) (at_ s src) dsize) s
                ltac:(lia) ltac:(lia)) as (d & s1 & E1).
    rewrite E1 in H. discriminate.
Qed.

(** X18 -- how [optimizeImage] fails.  On a frame with at least one row
    and one column and an elevation within [0, 180], none of its own
    checks (lines 48, 66, 78-81, 105-107) fails and no conversion to
    [int] overflows: it stops only where OpenCV does, in [hconcat] (the
    window ends at column 0), in a range constructor (the focus band leaves
    the rows of the crop) or in [resize] (a strip is too small to
    shrink). *)
Theorem optimizeImage_failures image angle vAngle s f s' :
  1 <= cols image < 2 ^ 31 -> 1 <= rows image < 2 ^ 30 -> 0 <= vAngle <= 180 ->
  optimizeImage resample image angle vAngle s = Err f s' ->
  f = BadConcat \/ f = BadResize \/ exists a b l, f = BadRange a b l.
Proof.
  intros HW HH Hv H. change (2 ^ 31) with 2147483648 in HW.
  unfold optimizeImage in H. cbv zeta in H.
  destruct (cropWindow_exists (cols image) angle s ltac:(change (2 ^ 31) with 2147483648; lia))
    as (lc & rc & Ewin & Hlc & Hrc & _).
  rewrite (bind_run _ _ _ _ _ Ewin) in H.
  apply cropWindow_Ok in Ewin. destruct Ewin as (_ & _ & _ & Sl & Sr).
  apply bind_Err in H. destruct H as [H|(cropped & s1 & Ecrop & H)].
  { left. eapply crop_Err; [| | |exact H]; lia. }
  pose proof (crop_rows image lc rc s cropped s1 ltac:(lia) Hlc Hrc Ecrop) as Hpos.
  destruct (crop_Ok _ _ _ _ _ _ Hlc Hrc Ecrop) as (_ & _ & _ & _ & Hc).
  destruct (Hc Hpos) as (_ & Cc & _). clear Hc.
  destruct (scaled_bounds 20 (cols image) 360) as (fw & Sw & Bw & Pw); try lia.
  pose proof (focus_narrower_than_crop _ _ _ _ _ HW Sl Sr Sw) as Hfw. rewrite <- Cc in Hfw.
  destruct (splitH_total cropped (cols image) s1 fw) as (l & m & r & Esplit);
    [lia|exact Sw|lia|lia|].
  rewrite (bind_run _ _ _ _ _ Esplit) in H.
  apply bind_Err in H. destruct H as [H|(bl & s2 & _ & H)].
  { right; left. eapply resize_Err_kind; exact H. }
  apply bind_Err in H. destruct H as [H|(br & s3 & _ & H)].
  { right; left. eapply resize_Err_kind; exact H. }
  destruct (focusRows_total (rows image) vAngle s3 HH Hv) as (ft & fb & Erows).
  rewrite (bind_run _ _ _ _ _ Erows) in H.
  apply bind_Err in H. destruct H as [H|([[t fo] b] & s4 & _ & H)].
  { right; right. eapply splitV_Err; exact H. }
  apply bind_Err in H. destruct H as [H|(bt & s5 & _ & H)].
  { right; left. eapply resize_Err_kind; exact H. }
  apply bind_Err in H. destruct H as [H|(bb & s6 & _ & H)].
  { right; left. eapply resize_Err_kind; exact H. }
  discriminate.
Qed.

End EncoderFailures.

Lemma optimizeImage_failures_witness :
  exists f s',
    optimizeImage nearest (frame0 3600 1800) 300 90 (store0 []) = Err f s' /\
    (f = BadConcat \/ f = BadResize \/ exists a b l, f = BadRange a b l).
Proof.
  edestruct (result_of_Err (optimizeImage nearest (frame0 3600 1800) 300 90 (store0 [])))
    as [s' E]; [vm_compute; reflexivity|].
  eexists. exists s'. split; [exact E|].
  exact (optimizeImage_failures nearest (frame0 3600 1800) 300 90 (store0 []) _ s'
           ltac:(cbn; split; [lia|reflexivity]) ltac:(cbn; split; [lia|reflexivity])
           ltac:(lia) E).
Defined.

(** ** [constrainAngle(double)] on angles already in range *)

Lemma fmod_below_360 m e :
  2 ^ 52 <= Zpos m < 2 ^ 53 -> -1074 <= e ->
  dltb (S754_finite false m e) (of_int 360) = true ->
  fmod (S754_finite false m e) (of_int 360) = S754_finite false m e.
Proof.
  intros Hm He Hlt.
  change (of_int 360) with (S754_finite false 6333186975989760 (-44)) in *.
  change (2 ^ 52) with 4503599627370496 in Hm. change (2 ^ 53) with 9007199254740992 in Hm.
  assert (Hcase : e < -44 \/ (e = -44 /\ Zpos m < 6333186975989760)).
  { unfold dltb, SFltb, SFcompare in Hlt.
    destruct (Z.compare_spec e (-44)) as [->| |]; [right|left; assumption|discriminate].
    split; [reflexivity|].
    destruct (Pos.compare_cont Eq m 6333186975989760) eqn:Ec; try discriminate.
    apply Pos.compare_lt_iff in Ec. apply Pos2Z.pos_lt_pos. exact Ec. }
  unfold fmod. rewrite Z.min_l by lia. rewrite Z.sub_diag, Z.pow_0_r, Z.mul_1_r.
  rewrite Z.mod_small.
  2:{ split; [lia|]. destruct Hcase as [Hlo|[-> Hlo]].
      - assert (2 <= 2 ^ (-44 - e)).
        { change 2 with (2 ^ 1) at 1. apply Z.pow_le_mono_r; lia. }
        nia.
      - change (-44 - -44) with 0. rewrite Z.pow_0_r. lia. }
  cbn [cond_Zopp]. unfold binary_normalize, binary_round.
  change (Zpos (digits2_pos m)) with (Zdigits2 (Zpos m)).
  assert (Hd : Zdigits2 (Zpos m) = 53)
    by (apply Zdigits2_unique; [change (2 ^ (53 - 1)) with 4503599627370496;
                                change (2 ^ 53) with 9007199254740992; lia|lia]).
  rewrite Hd, (fexp_normal (53 + e)) by lia.
  unfold shl_align. replace (53 + e - 53 - e) with 0 by lia.
  apply binary_round_aux_exact; [exact Hd|lia|lia].
Qed.

(** X19 -- [constrainAngle(double)] leaves alone what is already
    normalised: every positive normal double below 360 passes the
    postcondition of line 57 and is returned as it is, bit for bit (so the
    function is idempotent on such results). *)
Theorem constrainAngle_double_fixes_range m e s :
  2 ^ 52 <= Zpos m < 2 ^ 53 -> -1074 <= e ->
  dltb (S754_finite false m e) (of_int 360) = true ->
  constrainAngle_double (S754_finite false m e) s = Ok (S754_finite false m e) s.
Proof.
  intros Hm He Hlt. unfold constrainAngle_double. cbv zeta.
  rewrite (fmod_below_360 m e Hm He Hlt).
  change (of_int 0) with (S754_zero false).
  change (dltb (S754_finite false m e) (S754_zero false)) with false. cbv iota.
  change (dleb (S754_zero false) (S754_finite false m e)) with true.
  rewrite Hlt. reflexivity.
Qed.

Lemma constrainAngle_double_fixes_range_witness :
  constrainAngle_double (S754_finite false 6333186975989760 (-46)) (store0 [])
  = Ok (S754_finite false 6333186975989760 (-46)) (store0 []) /\
  S754_finite false 6333186975989760 (-46) = of_int 90.
Proof.
  split; [|reflexivity].
  apply (constrainAngle_double_fixes_range 6333186975989760 (-46) (store0 [])).
  - split; [discriminate|reflexivity].
  - discriminate.
  - reflexivity.
Defined.

(** ** The strips around the focus, on examples *)

Lemma splitH_strips_witness :
  exists l m r,
    splitH (frame0 1201 1800) 3602 (store0 []) = Ok (l, m, r) (store0 []) /\
    rows r = rows l /\ cols r = cols l + 1.
Proof.
  edestruct (value_of_Ok (splitH (frame0 1201 1800) 3602 (store0 []))) as [s' E];
    [vm_compute; reflexivity|].
  pose proof (splitH_Ok _ _ _ _ _ _ _ E) as (-> & _).
  eexists. eexists. eexists. split; [exact E|].
  exact (splitH_strips (frame0 1201 1800) 3602 (store0 []) _ _ _ _ E ltac:(reflexivity)).
Defined.

Lemma splitV_unclamped_witness :
  splitV (frame0 200 1800) (-100) 100 (store0 [])
  = Err (BadRange 0 (-100) 1800) (store0 []).
Proof.
  apply (proj1 (splitV_unclamped (frame0 200 1800) (-100) 100 (store0 [])
                  ltac:(cbn; lia))).
  reflexivity.
Defined.

Section Centre.
Variable resample : Z -> Size -> (Z -> Z -> Pixel) -> Size -> Z -> Z -> Pixel.

(** X20 -- the focus band is centred on the viewing direction: in every
    record [optimizeImage] builds, the middle column of the band,
    [leftBuffer + origHSize.width + origVSize.width / 2], is the column
    of the azimuth, or at most a column and a half to its left; for an
    azimuth below 60 degrees, where the crop starts before the seam, it is
    counted one full turn further. *)
Theorem focus_centred_on_azimuth image angle vAngle s opt s' :
  cols image < 2 ^ 31 ->
  optimizeImage resample image angle vAngle s = Ok opt s' ->
  let centre := leftBuffer opt + width (origHSize opt) + width (origVSize opt) ÷ 2 in
  let turn := if angle mod 360 <? 60 then 1 else 0 in
  (angle mod 360 + 360 * turn) * cols image - 540 <= 360 * centre
    <= (angle mod 360 + 360 * turn) * cols image.
Proof.
  intros HW Hrun. change (2 ^ 31) with 2147483648 in HW.
  apply encode_shape in Hrun. cbv zeta in Hrun.
  destruct Hrun as (lc & rc & cw & fw & fhh & fm & Sl & Sr & Hlc & Hrc & Hcw & _ & _ & _ &
                    EH & EV & _ & ELB & _ & _ & _ & _ & _ & _ & I1 & I2 & I3 & _ & I5 & _).
  rewrite EH, EV, ELB. cbn [width height]. cbv zeta.
  replace (lc + (cw ÷ 2 - fw ÷ 2) + 2 * (fw ÷ 2) ÷ 2) with (lc + cw ÷ 2) by lia.
  assert (Hcw10 : 10 <= cw) by lia. clear I1 I2 I5 EH EV ELB.
  pose proof (window_angles angle) as Hang. cbv zeta in Hang.
  pose proof (Z.mod_pos_bound angle 360 ltac:(lia)) as Ha.
  destruct (angle_ranges angle) as [Hla Hra].
  destruct (scaled_bounds (leftAngle_of angle) (cols image) 360) as (tl & El & Bl & _);
    try lia.
  destruct (scaled_bounds (rightAngle_of angle) (cols image) 360) as (tr & Er & Br & _);
    try lia.
  rewrite Sl in El. rewrite Sr in Er. inversion El; inversion Er; subst tl tr. clear El Er Sl Sr.
  set (la := leftAngle_of angle) in *. set (ra := rightAngle_of angle) in *.
  set (a := angle mod 360) in *. set (W := cols image) in *. clearbody la ra a W.
  assert (Hhalf : 2 * (cw ÷ 2) <= cw <= 2 * (cw ÷ 2) + 1) by lia.
  set (h := cw ÷ 2) in *. clearbody h.
  destruct (Z.ltb_spec lc rc) as [Hlt|Hge]; subst cw;
    destruct Hang as [(H1 & -> & ->)|[(H1 & -> & ->)|(H1 & -> & ->)]].
  - exfalso. nia.
  - replace (a <? 60) with false by (symmetry; apply Z.ltb_ge; lia). nia.
  - exfalso. nia.
  - replace (a <? 60) with true by (symmetry; apply Z.ltb_lt; lia). nia.
  - exfalso. nia.
  - replace (a <? 60) with false by (symmetry; apply Z.ltb_ge; lia). nia.
Qed.

(** X21 -- a record with an empty blurred panel, or with a recorded size
    that is empty, cannot be decoded: [extractImage] stops in [resize]. *)
Theorem extractImage_empty_panel opt s :
  Mat_is_empty (blurredLeft opt) || Mat_is_empty (blurredRight opt) ||
  Mat_is_empty (blurredTop opt) || Mat_is_empty (blurredBottom opt) ||
  empty (origHSize opt) || empty (origVSize opt) = true ->
  result_of (extractImage resample opt s) = inl BadResize.
Proof.
  intros Hempty. unfold extractImage.
  unfold bind at 1.
  destruct (resize resample (blurredLeft opt) Mat_empty (origHSize opt) s) as [left s1|f s1] eqn:E1.
  2:{ apply resize_Err_kind in E1. subst f. reflexivity. }
  apply resize_Ok in E1; [|left; reflexivity]. destruct E1 as (L1 & L2 & H1 & H2 & _).
  unfold bind at 1.
  destruct (resize resample (blurredRight opt) Mat_empty (origHSize opt) s1) as [right s2|f s2] eqn:E2.
  2:{ apply resize_Err_kind in E2. subst f. reflexivity. }
  apply resize_Ok in E2; [|left; reflexivity]. destruct E2 as (R1 & R2 & _).
  unfold bind at 1.
  destruct (resize resample (blurredTop opt) Mat_empty (origVSize opt) s2) as [top s3|f s3] eqn:E3.
  2:{ apply resize_Err_kind in E3. subst f. reflexivity. }
  apply resize_Ok in E3; [|left; reflexivity]. destruct E3 as (T1 & T2 & V1 & V2 & _).
  unfold bind at 1.
  destruct (resize resample (blurredBottom opt) Mat_empty (origVSize opt) s3) as [bottom s4|f s4] eqn:E4.
  2:{ apply resize_Err_kind in E4. subst f. reflexivity. }
  apply resize_Ok in E4; [|left; reflexivity]. destruct E4 as (B1 & B2 & _).
  exfalso. unfold Mat_is_empty, empty in Hempty.
  rewrite !orb_true_iff, !Z.leb_le in Hempty. lia.
Qed.

End Centre.

Lemma focus_centred_on_azimuth_witness :
  exists opt s1,
    optimizeImage nearest (frame0 3600 1800) 30 90 (store0 []) = Ok opt s1 /\
    (30 + 360 * 1) * 3600 - 540
    <= 360 * (leftBuffer opt + width (origHSize opt) + width (origVSize opt) ÷ 2)
    <= (30 + 360 * 1) * 3600.
Proof.
  run_as (optimizeImage nearest (frame0 3600 1800) 30 90) (store0 []) opt s1 E1.
  eexists. exists s1. split; [exact E1|].
  exact (focus_centred_on_azimuth nearest (frame0 3600 1800) 30 90 (store0 []) _ s1
           ltac:(reflexivity) E1).
Defined.

Lemma extractImage_empty_panel_witness :
  result_of (extractImage nearest
               (mkOptimizedImage Mat_empty Mat_empty Mat_empty Mat_empty Mat_empty
                  (mkSize 0 0) (mkSize 0 0) (mkSize 0 0) 0) (store0 []))
  = inl BadResize.
Proof.
  apply (extractImage_empty_panel nearest
           (mkOptimizedImage Mat_empty Mat_empty Mat_empty Mat_empty Mat_empty
              (mkSize 0 0) (mkSize 0 0) (mkSize 0 0) 0) (store0 [])).
  reflexivity.
Defined.

(** ** The records [extractImage] accepts *)

Lemma placement_anchor opt cropped s fl fc fr s' :
  0 < cols cropped -> 0 < rows cropped ->
  placement opt cropped s = Ok (fl, fc, fr) s' ->
  rows fl = rows fc -> rows fr = rows fc ->
  0 <= leftBuffer opt < width (fullSize opt).
Proof.
  intros Hpos Hrpos. unfold placement, ASSERT. cbv zeta.
  cbn [size width height]. intros H.
  step H as cropEnd s0 E. apply int_Ok in E. destruct E as (-> & -> & _).
  destruct (Z.geb_spec (cols cropped + leftBuffer opt) (width (fullSize opt))) as [Hwrap|Hin].
  - step H as ree s0 E. apply int_Ok in E. destruct E as (-> & -> & _).
    step H as u s0 E. apply contract_Ok in E. destruct E as [A1 ->].
    step H as fullRight s0 E. apply Mat_roi_cols_Ok in E. destruct E as (-> & Efr & _).
    step H as fullLeft s0 E. apply Mat_roi_cols_Ok in E. destruct E as (-> & Efl & _).
    step H as rest s0 E. apply int_Ok in E. destruct E as (-> & -> & _).
    step H as centerCols s0 E. apply int_Ok in E. destruct E as (-> & -> & _).
    step H as u2 s0 E. apply contract_Ok in E. destruct E as [A2 ->]. apply Z.geb_le in A2.
    step H as fullCenter s1 E. apply Mat_new_Ok in E. destruct E as (-> & -> & Hr0 & Hc0).
    step H as u3 s2 E.
    apply ret_Ok in H. destruct H as [H ->]. inversion H; subst fl fc fr; clear H.
    cbn [cols rows]. intros Hrl Hrr.
    rewrite <- Hrl in Hrpos. rewrite Efl in Hrpos. apply roi_rows_pos in Hrpos.
    destruct Hrpos as (Hrpos & Hlpos & Efl'). rewrite Efl' in Efl. clear Efl'.
    assert (Hrr' : 0 < rows fullRight) by lia.
    rewrite Efr in Hrr'. apply roi_rows_pos in Hrr'.
    destruct Hrr' as (_ & Hrcols & Efr'). rewrite Efr' in Efr. clear Efr'.
    subst fullLeft fullRight. cbn [cols rows] in *. lia.
  - step H as fullLeft s1 E. apply Mat_new_Ok in E. destruct E as (_ & _ & _ & Hc0).
    intros _ _. lia.
Qed.

Section Records.
Variable resample : Z -> Size -> (Z -> Z -> Pixel) -> Size -> Z -> Z -> Pixel.

(** X22 -- which records can be decoded: for any record whose focused
    panel has no negative height and whose frame width is an [int],
    [extractImage] returns a frame exactly when the four blurred panels
    and the two recorded sizes are not empty, the five panels have one
    element type, the focused panel is as wide as [origVSize] and fills
    the height left between two strips of [origVSize], [origHSize] has the
    height of [fullSize], the three columns of panels fit in its width,
    [leftBuffer] is a column of the frame, the crop does not end exactly
    at the frame's right edge, and its right end is an [int]. *)
Theorem extractImage_succeeds_iff opt s :
  0 <= rows (focused opt) -> width (fullSize opt) <= INT_MAX ->
  ((exists frame s', extractImage resample opt s = Ok frame s') <-> decodable opt).
Proof.
  intros Hrf HWint. unfold decodable. unfold INT_MAX in *.
  change (2 ^ 31 - 1) with 2147483647 in *. rewrite !Mat_is_empty_false.
  assert (He : forall sz, empty sz = false <-> 0 < width sz /\ 0 < height sz).
  { intros sz. unfold empty. rewrite orb_false_iff, !Z.leb_gt. tauto. }
  rewrite !He. split.
  - intros (frame & s' & H).
    pose proof (extractImage_crop_end resample _ _ _ _ H) as Hend.
    pose proof (extractImage_Ok resample _ _ _ _ H) as (Cf & _ & Hrows & Hedge & _).
    unfold extractImage in H.
    step H as left s1 E. apply resize_Ok in E; [|left; reflexivity].
    destruct E as (L1 & L2 & HwH & HhH & (-> & _)).
    step H as right s2 E. apply resize_Ok in E; [|left; reflexivity].
    destruct E as (R1 & R2 & _ & _ & (-> & _)).
    step H as top s3 E. apply resize_Ok in E; [|left; reflexivity].
    destruct E as (T1 & T2 & HwV & HhV & (-> & _)).
    step H as bottom s4 E. apply resize_Ok in E; [|left; reflexivity].
    destruct E as (B1 & B2 & _ & _ & (-> & _)).
    step H as middle s5 E. apply vconcat3_Ok in E. cbn [type] in E.
    destruct E as (_ & Tf & _ & Tb & (-> & _)).
    step H as cropped s6 E. apply hconcat3_Ok in E. cbn [type] in E.
    destruct E as (_ & Tt & _ & Tr & Pc).
    pose proof (produced_valid _ _ _ _ _ _ _ Pc) as Vc.
    destruct Pc as (-> & _). cbn [rows cols type] in *.
    step H as [[fullLeft fullCenter] fullRight] s7 E.
    pose proof (fun h1 h2 => placement_anchor _ _ _ _ _ _ _ h1 h2 E) as Hlb.
    apply (placement_Ok resample) in E; [|exact Vc|cbn [cols]; lia|cbn [rows]; lia].
    cbv zeta in E. cbn [rows cols] in E, Hlb. destruct E as (_ & _ & Hrfc & Hplace).
    step H as fullImage s8 E. apply hconcat3_Ok in E.
    destruct E as (Hr1 & _ & Hr2 & _ & (-> & _)).
    destruct Hplace as (_ & _ & _ & Hsum & HcW & _); [lia|lia|].
    specialize (Hlb ltac:(lia) ltac:(lia) ltac:(lia) ltac:(lia)).
    step H as u s9 E. apply contract_Ok in E. destruct E as [Hsz _].
    unfold size_eqb in Hsz. apply andb_true_iff in Hsz. rewrite !Z.eqb_eq in Hsz.
    cbn [size width height rows cols] in Hsz. destruct Hsz as [_ HH].
    repeat match goal with |- _ /\ _ => split end; try assumption; try lia; congruence.
  - intros H. decompose [and] H. clear H.
    apply extractImage_run; try assumption; try lia; congruence.
Qed.

(** X23 -- what a record weighs: for every record [optimizeImage]
    builds, [OptimizedImage::size] is the element size of the source times
    the pixels of the focused panel plus twice those of [origHSize] and
    twice those of [origVSize], each side divided by [BLUR_FACTOR]. *)
Theorem record_byte_size image angle vAngle s opt s' :
  optimizeImage resample image angle vAngle s = Ok opt s' ->
  OptimizedImage_size opt
  = elemSize image *
    (total (focused opt)
     + 2 * ((width (origHSize opt) ÷ BLUR_FACTOR) * (height (origHSize opt) ÷ BLUR_FACTOR))
     + 2 * ((width (origVSize opt) ÷ BLUR_FACTOR) * (height (origVSize opt) ÷ BLUR_FACTOR))).
Proof.
  intros Hrun. apply encode_shape in Hrun. cbv zeta in Hrun.
  destruct Hrun as (lc & rc & cw & fw & fhh & fm & _ & _ & _ & _ & _ & _ & _ & _ &
                    EH & EV & _ & _ & _ & (Rl & Cl) & (Rr & Cr) & (Rt & Ct) & (Rb & Cb) &
                    (Tf & Tl & Tr & Tt & Tb) & _).
  unfold OptimizedImage_size, imageSize, total, BLUR_FACTOR.
  rewrite (elemSize_type _ _ Tf), (elemSize_type _ _ Tl), (elemSize_type _ _ Tr),
    (elemSize_type _ _ Tt), (elemSize_type _ _ Tb).
  rewrite EH, EV, Rl, Cl, Rr, Cr, Rt, Ct, Rb, Cb. cbn [width height]. ring.
Qed.

End Records.

Lemma extractImage_succeeds_iff_witness :
  exists frame s',
    extractImage nearest
      (mkOptimizedImage (frame0 20 20) (frame0 10 12) (frame0 10 12)
         (frame0 4 4) (frame0 4 4) (mkSize 50 60) (mkSize 20 20) (mkSize 360 60) 120)
      (store0 [7]) = Ok frame s'.
Proof.
  apply (proj2 (extractImage_succeeds_iff nearest
                  (mkOptimizedImage (frame0 20 20) (frame0 10 12) (frame0 10 12)
                     (frame0 4 4) (frame0 4 4) (mkSize 50 60) (mkSize 20 20) (mkSize 360 60) 120)
                  (store0 [7]) ltac:(cbn; lia) ltac:(cbn; unfold INT_MAX; lia))).
  unfold decodable, INT_MAX. cbn. repeat split; try reflexivity; lia.
Defined.

Lemma record_byte_size_witness :
  exists opt s1,
    optimizeImage nearest (frame0 3600 1800) 180 90 (store0 []) = Ok opt s1 /\
    OptimizedImage_size opt = 3 * (200 * 200 + 2 * (100 * 360) + 2 * (40 * 160)).
Proof.
  run_as (optimizeImage nearest (frame0 3600 1800) 180 90) (store0 []) opt s1 E1.
  eexists. exists s1. split; [exact E1|].
  exact (record_byte_size nearest (frame0 3600 1800) 180 90 (store0 []) _ s1 E1).
Defined.

(** A record that fits its frame but whose crop would end past the
    largest [int]: the addition of line 190 is undefined. *)
Lemma extractImage_overflows_at_int_max :
  result_of
    (extractImage nearest
       (mkOptimizedImage (frame0 1 1) (frame0 1 1) (frame0 1 1) (frame0 1 1) (frame0 1 1)
          (mkSize 1 3) (mkSize 1 1) (mkSize 2147483647 3) 2147483646)
       (store0 [7]))
  = inl Undefined.
Proof. vm_compute. reflexivity. Qed.

(** ** The crop window and the seam *)

(** On a frame of three columns the two ends of an interior window,
    120 degrees apart, fall into different columns. *)
Lemma three_columns :
  forallb (fun la => match scaled la 3 360, scaled (la + 120) 3 360 with
                     | Some l, Some r => l <? r
                     | _, _ => false
                     end)
          (map Z.of_nat (seq 0 240)) = true.
Proof. vm_compute. reflexivity. Qed.

(** An interior window: its left column is before its right column. *)
Lemma interior_columns W la lc rc :
  3 <= W < 2147483648 -> 0 <= la < 240 ->
  scaled la W 360 = Some lc -> scaled (la + 120) W 360 = Some rc ->
  lc < rc /\ 120 * W - 360 <= 360 * (rc - lc) <= 120 * W + 360.
Proof.
  intros HW Hla Sl Sr.
  destruct (scaled_bounds la W 360) as (tl & El & Bl & _); try lia.
  destruct (scaled_bounds (la + 120) W 360) as (tr & Er & Br & _); try lia.
  rewrite Sl in El. rewrite Sr in Er. inversion El; inversion Er; subst tl tr. clear El Er.
  rewrite Z.mul_add_distr_r in Br.
  split; [|lia].
  destruct (Z.eq_dec W 3) as [->|Hne]; [|lia].
  pose proof three_columns as H3. rewrite forallb_forall in H3.
  specialize (H3 la). rewrite Sl, Sr in H3. apply Z.ltb_lt, H3.
  replace la with (Z.of_nat (Z.to_nat la)) by lia.
  apply in_map, in_seq. lia.
Qed.

(** A window across the seam: its right column is before its left column. *)
Lemma seam_columns W ra lc rc :
  2 <= W < 2147483648 -> 0 <= ra < 120 ->
  scaled (ra + 240) W 360 = Some lc -> scaled ra W 360 = Some rc ->
  rc < lc /\ 120 * W - 360 <= 360 * (W - lc + rc) <= 120 * W + 360.
Proof.
  intros HW Hra Sl Sr.
  destruct (scaled_bounds (ra + 240) W 360) as (tl & El & Bl & _); try lia.
  destruct (scaled_bounds ra W 360) as (tr & Er & Br & _); try lia.
  rewrite Sl in El. rewrite Sr in Er. inversion El; inversion Er; subst tl tr. clear El Er.
  rewrite Z.mul_add_distr_r in Bl. lia.
Qed.

(** The two columns of the window, for a frame of at least three columns:
    [cropWindow] returns them, and they are [CROP_ANGLE] apart, up to one
    column, in the order that selects the branch of the crop. *)
Lemma window_columns W angle s :
  3 <= W < 2147483648 ->
  exists lc rc,
    cropWindow W angle s = Ok (lc, rc) s /\ 0 <= lc < W /\ 0 <= rc < W /\
    Z.abs (360 * (if lc <? rc then rc - lc else W - lc + rc) - CROP_ANGLE * W) <= 360.
Proof.
  intros HW. unfold CROP_ANGLE.
  destruct (angle_ranges angle) as [Hla Hra].
  destruct (scaled_bounds (leftAngle_of angle) W 360) as (lc & Sl & Bl & Pl); try lia.
  destruct (scaled_bounds (rightAngle_of angle) W 360) as (rc & Sr & Br & Pr); try lia.
  assert (Hlc : lc < W) by nia. assert (Hrc : rc < W) by nia.
  exists lc, rc. rewrite (cropWindow_run W angle s lc rc) by (assumption || lia).
  unfold ASSERT, contract, bind, ret.
  replace (0 <=? lc) with true by (symmetry; apply Z.leb_le; lia).
  replace (lc <? W) with true by (symmetry; apply Z.ltb_lt; lia).
  replace (0 <=? rc) with true by (symmetry; apply Z.leb_le; lia).
  replace (rc <? W) with true by (symmetry; apply Z.ltb_lt; lia).
  split; [reflexivity|]. split; [lia|]. split; [lia|].
  pose proof (Z.mod_pos_bound angle 360 ltac:(lia)) as Ha.
  pose proof (window_angles angle) as Hang. cbv zeta in Hang.
  destruct Hang as [(H1 & El & Er)|[(H1 & El & Er)|(H1 & El & Er)]];
    rewrite El in Sl; rewrite Er in Sr.
  - replace (angle mod 360 + 300) with (angle mod 360 + 60 + 240) in Sl by lia.
    destruct (seam_columns W (angle mod 360 + 60) lc rc ltac:(lia) ltac:(lia) Sl Sr)
      as [Hlt Hw].
    destruct (Z.ltb_spec lc rc); lia.
  - replace (angle mod 360 + 60) with (angle mod 360 - 60 + 120) in Sr by lia.
    destruct (interior_columns W (angle mod 360 - 60) lc rc ltac:(lia) ltac:(lia) Sl Sr)
      as [Hlt Hw].
    destruct (Z.ltb_spec lc rc); lia.
  - replace (angle mod 360 - 60) with (angle mod 360 - 300 + 240) in Sl by lia.
    destruct (seam_columns W (angle mod 360 - 300) lc rc ltac:(lia) ltac:(lia) Sl Sr)
      as [Hlt Hw].
    destruct (Z.ltb_spec lc rc); lia.
Qed.

(** The crop exists unless the window ends at column 0 after the seam. *)
Lemma crop_run image lc rc s :
  0 < rows image -> 0 <= lc < cols image -> 0 <= rc < cols image ->
  lc < rc \/ 0 < rc ->
  exists cropped s1, crop image lc rc s = Ok cropped s1.
Proof.
  intros Hrows Hl Hr Hcase.
  destruct (crop image lc rc s) as [cropped s1|f s1] eqn:E; [eauto|exfalso].
  pose proof (crop_Err image lc rc s f s1 ltac:(lia) Hl Hr E) as ->.
  revert E. unfold crop, cropBranch. destruct (Z.ltb_spec lc rc) as [Hlt|Hge].
  - rewrite Mat_roi_cols_eq by lia. discriminate.
  - rewrite (bind_run _ _ _ _ _ (Mat_roi_cols_eq image lc (cols image) s
                                   ltac:(lia) ltac:(lia) ltac:(lia))).
    rewrite (bind_run _ _ _ _ _ (Mat_roi_cols_eq image 0 rc s
                                   ltac:(lia) ltac:(lia) ltac:(lia))).
    unfold hconcat. rewrite !roi_nonempty by lia. cbn [rows cols type].
    rewrite !Z.eqb_refl. cbn [andb]. intros E.
    destruct (fill_total Mat_empty (rows image) (cols image - lc + (rc - 0)) (type image)
                (fun s r c =>
                   if c <? cols image - lc
                   then at_ s (mkMat (data image) (row0 image + 0) (col0 image + lc)
                                 (rows image) (cols image - lc) (type image)) r c
                   else at_ s (mkMat (data image) (row0 image + 0) (col0 image + 0)
                                 (rows image) (rc - 0) (type image)) r (c - (cols image - lc)))
                s ltac:(lia) ltac:(lia)) as (d & s2 & E2).
    rewrite E2 in E. discriminate.
Qed.

(** C9 -- the crop keeps the angular width [CROP_ANGLE], up to the
    truncation of its two end columns: for every frame with at least
    three columns and one row and for every azimuth, the crop window
    exists, the crop is produced unless the window ends at column 0 after
    the seam, and every crop produced is within one column of
    [CROP_ANGLE * width / 360], in the contiguous and in the wrap-around
    branch alike. *)
Theorem crop_angular_width image angle s :
  3 <= cols image < 2 ^ 31 -> 0 < rows image ->
  exists leftCol rightCol,
    cropWindow (cols image) angle s = Ok (leftCol, rightCol) s /\
    (leftCol < rightCol \/ 0 < rightCol ->
     exists cropped s1, crop image leftCol rightCol s = Ok cropped s1) /\
    (forall cropped s1, crop image leftCol rightCol s = Ok cropped s1 ->
       Z.abs (360 * cols cropped - CROP_ANGLE * cols image) <= 360).
Proof.
  intros HW Hrows. change (2 ^ 31) with 2147483648 in HW.
  destruct (window_columns (cols image) angle s HW) as (lc & rc & Ewin & Hlc & Hrc & Hw).
  exists lc, rc. split; [exact Ewin|]. split.
  - intros Hcase. apply crop_run; assumption.
  - intros cropped s1 Ecrop.
    pose proof (crop_rows image lc rc s cropped s1 ltac:(lia) Hlc Hrc Ecrop) as Hpos.
    pose proof (crop_Ok _ _ _ _ _ _ Hlc Hrc Ecrop) as (_ & _ & _ & _ & Hcrop).
    destruct (Hcrop Hpos) as (_ & -> & _). exact Hw.
Qed.

(** C3 -- the seam: for a frame of at least two columns, at azimuth 0
    the window runs from the column of 300 degrees to the column of 60
    degrees, [leftCol > rightCol], and the crop is the concatenation of
    columns [leftCol,width) and [0,rightCol), in that order: it is
    produced when the frame has rows and [rightCol] is not 0, and then
    holds these columns in a buffer of its own; at azimuth 180 the window
    runs from the column of 120 degrees to the column of 240 degrees,
    [leftCol < rightCol], and the crop is the single range
    [leftCol,rightCol) of the frame itself. *)
Theorem seam_branch image s :
  2 <= cols image < 2 ^ 31 ->
  (exists leftCol rightCol,
     cropWindow (cols image) 0 s = Ok (leftCol, rightCol) s /\
     scaled 300 (cols image) 360 = Some leftCol /\
     scaled 60 (cols image) 360 = Some rightCol /\
     300 * cols image - 360 <= 360 * leftCol <= 300 * cols image /\
     60 * cols image - 360 <= 360 * rightCol <= 60 * cols image /\
     leftCol > rightCol /\
     cropBranch leftCol rightCol = Wraparound /\
     crop image leftCol rightCol s =
       hconcat (roi image 0 leftCol (rows image) (cols image - leftCol))
               (roi image 0 0 (rows image) rightCol) Mat_empty s /\
     (0 < rows image -> 0 < rightCol ->
      exists cropped s1, crop image leftCol rightCol s = Ok cropped s1) /\
     (forall cropped s1,
        0 < rows image -> crop image leftCol rightCol s = Ok cropped s1 ->
        data cropped = Some (next s) /\
        cols cropped = (cols image - leftCol) + rightCol /\
        forall r c, 0 <= r < rows image -> 0 <= c < cols cropped ->
          at_ s1 cropped r c
          = at_ s image r (if c <? cols image - leftCol then leftCol + c
                           else c - (cols image - leftCol)))) /\
  (exists leftCol rightCol,
     cropWindow (cols image) 180 s = Ok (leftCol, rightCol) s /\
     scaled 120 (cols image) 360 = Some leftCol /\
     scaled 240 (cols image) 360 = Some rightCol /\
     120 * cols image - 360 <= 360 * leftCol <= 120 * cols image /\
     240 * cols image - 360 <= 360 * rightCol <= 240 * cols image /\
     leftCol < rightCol /\
     cropBranch leftCol rightCol = Contiguous /\
     crop image leftCol rightCol s
     = Ok (roi image 0 leftCol (rows image) (rightCol - leftCol)) s).
Proof.
  intros HW. change (2 ^ 31) with 2147483648 in HW.
  assert (Hwin : forall angle la ra lc rc,
             leftAngle_of angle = la -> rightAngle_of angle = ra ->
             scaled la (cols image) 360 = Some lc -> scaled ra (cols image) 360 = Some rc ->
             0 <= lc < cols image -> 0 <= rc < cols image ->
             cropWindow (cols image) angle s = Ok (lc, rc) s).
  { intros angle la ra lc rc <- <- Sl Sr Hlc Hrc.
    rewrite (cropWindow_run (cols image) angle s lc rc) by (assumption || lia).
    unfold ASSERT, contract, bind, ret.
    replace (0 <=? lc) with true by (symmetry; apply Z.leb_le; lia).
    replace (lc <? cols image) with true by (symmetry; apply Z.ltb_lt; lia).
    replace (0 <=? rc) with true by (symmetry; apply Z.leb_le; lia).
    replace (rc <? cols image) with true by (symmetry; apply Z.ltb_lt; lia).
    reflexivity. }
  split.
  - destruct (scaled_bounds 300 (cols image) 360) as (lc & Sl & Bl & Pl); try lia.
    destruct (scaled_bounds 60 (cols image) 360) as (rc & Sr & Br & Pr); try lia.
    destruct (seam_columns (cols image) 60 lc rc ltac:(lia) ltac:(lia) Sl Sr) as [Hlt _].
    assert (Hlc : 0 <= lc < cols image) by lia.
    assert (Hrc : 0 <= rc < cols image) by lia.
    assert (Hbr : cropBranch lc rc = Wraparound).
    { unfold cropBranch. destruct (Z.ltb_spec lc rc); [lia|reflexivity]. }
    exists lc, rc.
    split; [apply (Hwin 0 300 60); auto|].
    split; [exact Sl|]. split; [exact Sr|]. split; [exact Bl|]. split; [exact Br|].
    split; [lia|]. split; [exact Hbr|].
    assert (Heq : crop image lc rc s =
                  hconcat (roi image 0 lc (rows image) (cols image - lc))
                    (roi image 0 0 (rows image) rc) Mat_empty s).
    { unfold crop. rewrite Hbr.
      rewrite (bind_run _ _ _ _ _ (Mat_roi_cols_eq image lc (cols image) s
                                     ltac:(lia) ltac:(lia) ltac:(lia))).
      rewrite (bind_run _ _ _ _ _ (Mat_roi_cols_eq image 0 rc s
                                     ltac:(lia) ltac:(lia) ltac:(lia))).
      rewrite Z.sub_0_r. reflexivity. }
    split; [exact Heq|].
    + split; [intros Hrows Hpos; apply crop_run; auto|].
      intros cropped s1 Hrows Ecrop.
      assert (Hdata : data cropped = Some (next s)).
      { rewrite Heq in Ecrop. apply hconcat_Ok in Ecrop.
        destruct Ecrop as (_ & _ & (-> & _)). reflexivity. }
      split; [exact Hdata|].
      pose proof (crop_rows image lc rc s cropped s1 ltac:(lia) Hlc Hrc Ecrop) as Hpos.
      pose proof (crop_Ok _ _ _ _ _ _ Hlc Hrc Ecrop) as (_ & _ & _ & _ & Hcrop).
      destruct (Hcrop Hpos) as (_ & Hc & _ & Hat).
      destruct (Z.ltb_spec lc rc) as [Hx|Hx]; [lia|].
      split; [exact Hc|].
      intros r c Hr Hcc. rewrite (Hat r c Hr Hcc). f_equal.
      destruct (Z.ltb_spec c (cols image - lc)).
      * apply Z.mod_small. lia.
      * symmetry. apply Z.mod_unique with 1; lia.
  - destruct (scaled_bounds 120 (cols image) 360) as (lc & Sl & Bl & Pl); try lia.
    destruct (scaled_bounds 240 (cols image) 360) as (rc & Sr & Br & Pr); try lia.
    assert (Hlt : lc < rc).
    { destruct (Z.eq_dec (cols image) 2) as [E2|Hne].
      - rewrite E2 in Sl, Sr.
        change (scaled 120 2 360) with (Some 0) in Sl.
        change (scaled 240 2 360) with (Some 1) in Sr.
        inversion Sl; inversion Sr; lia.
      - apply (interior_columns (cols image) 120 lc rc); try lia; assumption. }
    assert (Hlc : 0 <= lc < cols image) by lia.
    assert (Hrc : 0 <= rc < cols image) by lia.
    assert (Hbr : cropBranch lc rc = Contiguous).
    { unfold cropBranch. destruct (Z.ltb_spec lc rc); [reflexivity|lia]. }
    exists lc, rc.
    split; [apply (Hwin 180 120 240); auto|].
    split; [exact Sl|]. split; [exact Sr|]. split; [exact Bl|]. split; [exact Br|].
    split; [exact Hlt|]. split; [exact Hbr|].
    unfold crop. rewrite Hbr. apply Mat_roi_cols_eq; lia.
Qed.

Lemma crop_angular_width_witness :
  exists leftCol rightCol,
    cropWindow 3600 0 (store0 []) = Ok (leftCol, rightCol) (store0 []) /\
    (leftCol < rightCol \/ 0 < rightCol ->
     exists cropped s1, crop (frame0 3600 1800) leftCol rightCol (store0 []) = Ok cropped s1) /\
    (forall cropped s1,
       crop (frame0 3600 1800) leftCol rightCol (store0 []) = Ok cropped s1 ->
       Z.abs (360 * cols cropped - CROP_ANGLE * 3600) <= 360).
Proof.
  apply (crop_angular_width (frame0 3600 1800) 0 (store0 [])).
  - split; [simpl; lia|reflexivity].
  - simpl. lia.
Defined.

(** On a frame of two columns seen at azimuth 240 both ends of the window
    fall into column 1 and the crop is the whole frame, 360 degrees wide;
    a frame without rows is cropped to a matrix without columns. *)
Lemma crop_width_fails_on_small_frames :
  (cropWindow 2 240 (store0 []) = Ok (1, 1) (store0 []) /\
   option_map cols (value_of (crop (frame0 2 2) 1 1 (store0 []))) = Some 2 /\
   ~ Z.abs (360 * 2 - CROP_ANGLE * 2) <= 360) /\
  (cropWindow 3600 180 (store0 []) = Ok (1200, 2400) (store0 []) /\
   option_map cols (value_of (crop (frame0 3600 0) 1200 2400 (store0 []))) = Some 0 /\
   ~ Z.abs (360 * 0 - CROP_ANGLE * 3600) <= 360).
Proof.
  split; (split; [vm_compute; reflexivity|]); (split; [vm_compute; reflexivity|]);
    unfold CROP_ANGLE; lia.
Qed.

Lemma seam_branch_witness :
  (exists leftCol rightCol,
     cropWindow 3600 0 (store0 []) = Ok (leftCol, rightCol) (store0 []) /\
     leftCol > rightCol /\ cropBranch leftCol rightCol = Wraparound) /\
  (exists leftCol rightCol,
     cropWindow 3600 180 (store0 []) = Ok (leftCol, rightCol) (store0 []) /\
     leftCol < rightCol /\ cropBranch leftCol rightCol = Contiguous).
Proof.
  destruct (seam_branch (frame0 3600 1800) (store0 [])
              ltac:(split; [simpl; lia|reflexivity])) as [H0 H180].
  split.
  - destruct H0 as (lc & rc & H1 & _ & _ & _ & _ & H2 & H3 & _). exists lc, rc. auto.
  - destruct H180 as (lc & rc & H1 & _ & _ & _ & _ & H2 & H3 & _). exists lc, rc. auto.
Defined.

(** On a frame of one column both ends of every window are column 0:
    at azimuth 0 [leftCol > rightCol] fails, and at azimuth 180
    [leftCol < rightCol] fails and the wrap-around branch is taken. *)
Lemma seam_branch_fails_on_one_column :
  (cropWindow 1 0 (store0 []) = Ok (0, 0) (store0 []) /\ ~ 0 > 0) /\
  (cropWindow 1 180 (store0 []) = Ok (0, 0) (store0 []) /\ ~ 0 < 0 /\
   cropBranch 0 0 = Wraparound).
Proof.
  split; (split; [vm_compute; reflexivity|]); [lia|split; [lia|reflexivity]].
Qed.
